(** * taskmgr: a shallow embedding of the command-driven task manager

    The development follows [taskmgr.py] top to bottom: the string
    utilities the interpreter relies on, the tokenizer, the store and its
    command handlers written in a state-and-exception monad, the sort and
    print engine, and the line dispatcher.  The theorems at the end settle
    the properties stated about the program.

    Text is modelled with Rocq strings, i.e. sequences of 8-bit
    characters; the character classes below are the ones Python applies to
    the ASCII range, which is the scope of the model. *)

From Stdlib Require Import ZArith Lia Bool Ascii String DecimalString DecimalZ.
From Stdlib Require Import Permutation Sorted.
From stdpp Require Import base tactics option list gmap strings sorting.

Local Open Scope string_scope.
Local Open Scope list_scope.
Local Open Scope Z_scope.

(** ** Characters and the [str] methods used by the program *)

Module Py.

Definition code (c : ascii) : N := N_of_ascii c.

Definition in_range (lo hi : N) (c : ascii) : bool :=
  ((lo <=? code c) && (code c <=? hi))%N.

(** [str.isspace] on one character, also the class [\s] of [re]:
    TAB, LF, VT, FF, CR, FS, GS, RS, US and SPACE. *)
Definition isspace (c : ascii) : bool :=
  in_range 9 13 c || in_range 28 32 c.

(** The white space [int()] skips around an ASCII numeral. *)
Definition is_c_space (c : ascii) : bool :=
  in_range 9 13 c || (code c =? 32)%N.

(** The class [\d]. *)
Definition is_digit (c : ascii) : bool := in_range 48 57 c.

(** The class [\w]: letters, digits and the underscore. *)
Definition is_word (c : ascii) : bool :=
  is_digit c || in_range 65 90 c || in_range 97 122 c || (code c =? 95)%N.

Definition dquote : ascii := ascii_of_N 34.
Definition squote : ascii := ascii_of_N 39.
Definition newline : ascii := ascii_of_N 10.

Definition lower_char (c : ascii) : ascii :=
  if in_range 65 90 c then ascii_of_N (code c + 32) else c.

(** The longest prefix of [s] whose characters satisfy [p], and the rest. *)
Fixpoint span (p : ascii -> bool) (s : string) : string * string :=
  match s with
  | String c s' =>
      if p c then let '(a, b) := span p s' in (String c a, b)
      else (EmptyString, s)
  | EmptyString => (EmptyString, EmptyString)
  end.

Definition lstrip_chars (p : ascii -> bool) (s : string) : string :=
  snd (span p s).

(** [s] without its longest suffix of characters satisfying [p]: the
    tail is stripped first, and the head goes too when nothing is left
    after it. *)
Fixpoint rstrip_chars (p : ascii -> bool) (s : string) : string :=
  match s with
  | String c s' =>
      match rstrip_chars p s' with
      | EmptyString => if p c then EmptyString else String c EmptyString
      | String _ _ as r => String c r
      end
  | EmptyString => EmptyString
  end.

(** [s.strip()] *)
Definition strip (s : string) : string :=
  rstrip_chars isspace (lstrip_chars isspace s).

(** [s.rstrip("\n")] *)
Definition rstrip_newline (s : string) : string :=
  rstrip_chars (fun c => Ascii.eqb c newline) s.

Fixpoint all_chars (p : ascii -> bool) (s : string) : bool :=
  match s with
  | String c s' => p c && all_chars p s'
  | EmptyString => true
  end.

(** [s.isdigit()]: at least one character, and all of them digits. *)
Definition isdigit (s : string) : bool :=
  match s with
  | EmptyString => false
  | String _ _ => all_chars is_digit s
  end.

(** [s.lower()] *)
Fixpoint lower (s : string) : string :=
  match s with
  | String c s' => String (lower_char c) (lower s')
  | EmptyString => EmptyString
  end.

(** [s.startswith("#")] *)
Definition startswith_hash (s : string) : bool :=
  match s with
  | String c _ => Ascii.eqb c "#"%char
  | EmptyString => false
  end.

Definition digit_val (c : ascii) : Z := Z.of_N (code c) - 48.

(** The digits of a numeral after its sign: a digit, then digits each
    optionally preceded by one underscore.  [prev_us] records that the
    previous character was an underscore.  Returns the value and the text
    that follows the numeral. *)
Fixpoint int_digits (acc : Z) (prev_us : bool) (s : string) : option (Z * string) :=
  match s with
  | String c s' =>
      if is_digit c then int_digits (acc * 10 + digit_val c) false s'
      else if Ascii.eqb c "_"%char then
        if prev_us then None else int_digits acc true s'
      else if prev_us then None else Some (acc, s)
  | EmptyString => if prev_us then None else Some (acc, EmptyString)
  end.

(** [int(s)] in base ten; [None] stands for [ValueError].  White space
    around the numeral is skipped, one sign is allowed, and the numeral
    must start with a digit. *)
Definition int (s : string) : option Z :=
  let s1 := lstrip_chars is_c_space s in
  let '(sign, s2) :=
    match s1 with
    | String c r =>
        if Ascii.eqb c "-"%char then (-1, r)
        else if Ascii.eqb c "+"%char then (1, r)
        else (1, s1)
    | EmptyString => (1, s1)
    end in
  match s2 with
  | String c _ =>
      if is_digit c then
        match int_digits 0 false s2 with
        | Some (v, rest) =>
            if all_chars is_c_space rest then Some (sign * v) else None
        | None => None
        end
      else None
  | EmptyString => None
  end.

(** [str(n)] for an integer. *)
Definition str_int (n : Z) : string := NilZero.string_of_int (Z.to_int n).

(** [str(b)] for a Boolean. *)
Definition str_bool (b : bool) : string := if b then "True" else "False".

End Py.

(** ** Error kinds

    The subclasses of [TaskMgrError]. *)

Inductive Error : Type :=
  | TooManyArguments
  | InvalidArgument
  | InvalidArgumentType
  | MissingArguments
  | InvalidDateFormat
  | InvalidRepeat
  | InvalidPriority
  | TaskNotFound
  | InvalidDoneStatus
  | UnknownCommand
  | TooLongLine.

#[global] Instance Error_eq_dec : EqDecision Error.
Proof. solve_decision. Defined.

(** [type(e).__name__] *)
Definition err_name (e : Error) : string :=
  match e with
  | TooManyArguments => "TooManyArguments"
  | InvalidArgument => "InvalidArgument"
  | InvalidArgumentType => "InvalidArgumentType"
  | MissingArguments => "MissingArguments"
  | InvalidDateFormat => "InvalidDateFormat"
  | InvalidRepeat => "InvalidRepeat"
  | InvalidPriority => "InvalidPriority"
  | TaskNotFound => "TaskNotFound"
  | InvalidDoneStatus => "InvalidDoneStatus"
  | UnknownCommand => "UnknownCommand"
  | TooLongLine => "TooLongLine"
  end.

(** ** Calendar dates ([datetime.date]) *)

Record date : Type := mk_date { year : Z; month : Z; day : Z }.

Definition is_leap (y : Z) : bool :=
  (y mod 4 =? 0) && (negb (y mod 100 =? 0) || (y mod 400 =? 0)).

Definition days_in_month (y m : Z) : Z :=
  if m =? 2 then (if is_leap y then 29 else 28)
  else if (m =? 4) || (m =? 6) || (m =? 9) || (m =? 11) then 30
  else 31.

(** [date(year, month, day)]; [None] stands for the [ValueError] raised
    outside the proleptic Gregorian calendar of years 1 to 9999. *)
Definition make_date (y m d : Z) : option date :=
  if (1 <=? y) && (y <=? 9999) && (1 <=? m) && (m <=? 12)
     && (1 <=? d) && (d <=? days_in_month y m)
  then Some (mk_date y m d) else None.

Definition days_before_year (y : Z) : Z :=
  let y' := y - 1 in y' * 365 + y' / 4 - y' / 100 + y' / 400.

Definition days_before_month (y m : Z) : Z :=
  fold_right Z.add 0 (map (days_in_month y) (map Z.of_nat (seq 1 (Z.to_nat (m - 1))))).

(** [d.toordinal()]: 1 for the first of January of year 1. *)
Definition toordinal (d : date) : Z :=
  days_before_year (year d) + days_before_month (year d) (month d) + day d.

(** A greedy [\d{1,2}] that must be followed by a hyphen. *)
Definition digits_1_2 (s : string) : option (string * string) :=
  match s with
  | String a (String b r) =>
      if Py.is_digit a then
        if Py.is_digit b then Some (String a (String b EmptyString), r)
        else Some (String a EmptyString, String b r)
      else None
  | String a EmptyString =>
      if Py.is_digit a then Some (String a EmptyString, EmptyString) else None
  | EmptyString => None
  end.

Definition expect_hyphen (s : string) : option string :=
  match s with
  | String c r => if Ascii.eqb c "-"%char then Some r else None
  | EmptyString => None
  end.

Fixpoint digits_value (acc : Z) (s : string) : Z :=
  match s with
  | String c s' => digits_value (acc * 10 + Py.digit_val c) s'
  | EmptyString => acc
  end.

(** [re.fullmatch(r"(\d{1,2})-(\d{1,2})-(\d{4})", s)] with the three groups
    converted by [int]. *)
Definition date_fullmatch (s : string) : option (Z * Z * Z) :=
  '(d, s1) ← digits_1_2 s;
  s2 ← expect_hyphen s1;
  '(m, s3) ← digits_1_2 s2;
  s4 ← expect_hyphen s3;
  if (String.length s4 =? 4)%nat && Py.all_chars Py.is_digit s4
  then Some (digits_value 0 d, digits_value 0 m, digits_value 0 s4)
  else None.

Definition parse_date_str (s : string) : Error + option date :=
  if String.eqb s "NONE" then inr None
  else
    match date_fullmatch s with
    | None => inl InvalidDateFormat
    | Some (d, m, y) =>
        match make_date y m d with
        | Some dt => inr (Some dt)
        | None => inl InvalidDateFormat
        end
    end.

Definition parse_bool_str (s : string) : Error + bool :=
  if String.eqb s "True" || String.eqb s "true" then inr true
  else if String.eqb s "False" || String.eqb s "false" then inr false
  else inl InvalidDoneStatus.

(** ** The tokenizer *)

(** One match of [ARG_PAIR_RE] anchored at the start of [s]: the key, the
    value with its quotes removed, and the text after the match.  The key
    is the longest run of word characters; white space may surround the
    equals sign; the value is a double-quoted or single-quoted string when
    the closing quote exists, and the longest run of non-blank characters
    otherwise. *)
Definition arg_pair_match (s : string) : option (string * string * string) :=
  let '(key, s1) := Py.span Py.is_word s in
  match key with
  | EmptyString => None
  | String _ _ =>
      match Py.lstrip_chars Py.isspace s1 with
      | String e s3 =>
          if Ascii.eqb e "="%char then
            let s4 := Py.lstrip_chars Py.isspace s3 in
            match s4 with
            | EmptyString => None
            | String q s5 =>
                let unquoted :=
                  let '(v, r) := Py.span (fun c => negb (Py.isspace c)) s4 in
                  Some (key, v, r) in
                if Ascii.eqb q Py.dquote || Ascii.eqb q Py.squote then
                  let '(v, r) := Py.span (fun c => negb (Ascii.eqb c q)) s5 in
                  match r with
                  | String _ r' => Some (key, v, r')
                  | EmptyString => unquoted
                  end
                else unquoted
            end
          else None
      | EmptyString => None
      end
  end.

(** [ARG_PAIR_RE.finditer(s)]: the successive non-overlapping matches,
    each searched from the end of the previous one, trying every start
    position in turn.  [fuel] bounds the number of positions visited. *)
Fixpoint finditer (fuel : nat) (s : string) : list (string * string * string) :=
  match fuel with
  | O => []
  | S fuel' =>
      match arg_pair_match s with
      | Some (k, v, r) => (k, v, r) :: finditer fuel' r
      | None =>
          match s with
          | String _ s' => finditer fuel' s'
          | EmptyString => []
          end
      end
  end.

Definition matches_of (segment : string) : list (string * string * string) :=
  finditer (S (String.length segment)) segment.

(** The loop of [tokenize_args_segment]: [args[key] = val] and
    [pos = m.end()] for each match, in order.  The position is kept as the
    text that follows it. *)
Definition tokenize_loop (segment : string)
    (ms : list (string * string * string)) : gmap string string * string :=
  foldl (fun st m => let '(k, v, r) := m in (<[k:=v]> (fst st), r)) (∅, segment) ms.

Definition tokenize_args_segment (segment : string) : Error + gmap string string :=
  let '(args, after) := tokenize_loop segment (matches_of segment) in
  match Py.strip after with
  | EmptyString => inr args
  | String _ _ => inl InvalidArgument
  end.

(** ** Configuration *)

Definition PRIORITY_ORDER : gmap string Z :=
  {[ "LOW" := 0; "MEDIUM" := 1; "HIGH" := 2 ]}.
Definition VALID_PRIOS : gset string := dom PRIORITY_ORDER.
Definition VALID_REPS : gset string := {[ "NONE"; "DAILY"; "WEEKLY"; "MONTHLY" ]}.
Definition VALID_DIRECTION : gset string := {[ "asc"; "desc" ]}.
Definition DEFAULT_PRIORITY : string := "MEDIUM".
Definition DEFAULT_REP : string := "NONE".
Definition DEFAULT_DUE : string := "NONE".
Definition PROPERTIES : list string :=
  ["name"; "type"; "desc"; "due"; "rep"; "prio"; "done"; "ctime"; "id"].

(** ** Tasks and the process state *)

(** One task dictionary: nine keys, here nine fields. *)
Record Task : Type := mk_task {
  t_name : string;
  t_type : string;
  t_desc : string;
  t_due : string;
  t_rep : string;
  t_prio : string;
  t_done : bool;
  t_ctime : string;
  t_id : Z
}.

#[global] Instance Task_eq_dec : EqDecision Task.
Proof. solve_decision. Defined.

(** The module globals [_tasks] and [_next_id], and the text printed so
    far, one entry per [print] call. *)
Record World : Type := mk_world {
  _tasks : list Task;
  _next_id : Z;
  stdout : list string
}.

Definition initial : World := mk_world [] 0 [].

(** ** State and exceptions

    A handler runs on the process state and either returns or raises; a
    raise keeps whatever state the handler had reached, as a Python
    exception does. *)

Inductive result (A : Type) : Type :=
  | Ok (a : A)
  | Raise (e : Error).
Arguments Ok {A} a.
Arguments Raise {A} e.

Definition M (A : Type) : Type := World -> World * result A.

Definition ret {A} (a : A) : M A := fun w => (w, Ok a).
Definition raise {A} (e : Error) : M A := fun w => (w, Raise e).
Definition bind {A B} (m : M A) (k : A -> M B) : M B :=
  fun w => match m w with
           | (w', Ok a) => k a w'
           | (w', Raise e) => (w', Raise e)
           end.
(** [try: m  except TaskMgrError as e: h e] *)
Definition try_except {A} (m : M A) (h : Error -> M A) : M A :=
  fun w => match m w with
           | (w', Ok a) => (w', Ok a)
           | (w', Raise e) => h e w'
           end.

Declare Scope M_scope.
Delimit Scope M_scope with M.
Notation "'let!' x ':=' c 'in' k" := (bind c (fun x => k))
  (at level 10, x name, c at level 100, k at level 200) : M_scope.
Notation "c '>>>' k" := (bind c (fun _ => k))
  (at level 100, k at level 200, right associativity) : M_scope.
Local Open Scope M_scope.

Definition lift {A} (r : Error + A) : M A :=
  match r with
  | inl e => raise e
  | inr a => ret a
  end.

Definition when_raise (b : bool) (e : Error) : M unit :=
  if b then raise e else ret tt.

Definition get_tasks : M (list Task) := fun w => (w, Ok (_tasks w)).
Definition get_next_id : M Z := fun w => (w, Ok (_next_id w)).
Definition set_tasks (l : list Task) : M unit :=
  fun w => (mk_world l (_next_id w) (stdout w), Ok tt).
Definition set_next_id (n : Z) : M unit :=
  fun w => (mk_world (_tasks w) n (stdout w), Ok tt).
Definition print (s : string) : M unit :=
  fun w => (mk_world (_tasks w) (_next_id w) (stdout w ++ [s]), Ok tt).

(** ** Command handlers *)

(** [for k in args.keys(): if k not in allowed: raise TooManyArguments()] *)
Definition check_allowed (allowed : gset string) (args : gmap string string) : M unit :=
  when_raise (negb (bool_decide (dom args ⊆ allowed))) TooManyArguments.

Definition has (args : gmap string string) (k : string) : bool :=
  bool_decide (is_Some (args !! k)).

(** [args[k]] after the presence of [k] was checked, and [args.get(k, d)]. *)
Definition get (args : gmap string string) (k : string) (d : string) : string :=
  default d (args !! k).

Definition success_line (original : string) : string := "Command success: " +:+ original.
Definition error_line (e : Error) (original : string) : string :=
  "Error " +:+ err_name e +:+ ": " +:+ original.

Definition help_text : list string :=
  [ "help";
    "print [sort_by=<prop>] [direction=<asc|desc>]";
    "add name=<name> [type=<type>] [desc=<desc>] [due=<DD-MM-YYYY>] [rep=<NONE|DAILY|WEEKLY|MONTHLY>] [prio=<LOW|MEDIUM|HIGH>]";
    "list property=<prop> val=<value> [sort_by=<prop>] [direction=<asc|desc>]";
    "mod id=<id> property=<prop> new_val=<value>";
    "done id=<id>";
    "delete id=<id> | delete property=<prop> val=<value>" ].

Fixpoint print_all (ls : list string) : M unit :=
  match ls with
  | [] => ret tt
  | l :: ls' => print l >>> print_all ls'
  end.

Definition cmd_help (args : gmap string string) (original : string) : M unit :=
  print (success_line original) >>> print_all help_text.

Definition validate_sort_args (args : gmap string string) : M (string * string) :=
  let sort_by := get args "sort_by" "name" in
  let direction := get args "direction" "asc" in
  when_raise (negb (bool_decide (direction ∈ VALID_DIRECTION))) InvalidArgument >>>
  when_raise (negb (bool_decide (sort_by ∈ PROPERTIES))) InvalidArgument >>>
  ret (sort_by, direction).

(** The first task whose id is [idv], with its index in the store:
    [next((i, t) for i, t in enumerate(_tasks) if t["id"] == idv, None)]. *)
Fixpoint find_task (idv : Z) (l : list Task) : option (nat * Task) :=
  match l with
  | [] => None
  | t :: l' =>
      if t_id t =? idv then Some (O, t)
      else prod_map S id <$> find_task idv l'
  end.

(** [str(t.get(prop, ""))] *)
Definition prop_str (t : Task) (prop : string) : string :=
  if String.eqb prop "name" then t_name t
  else if String.eqb prop "type" then t_type t
  else if String.eqb prop "desc" then t_desc t
  else if String.eqb prop "due" then t_due t
  else if String.eqb prop "rep" then t_rep t
  else if String.eqb prop "prio" then t_prio t
  else if String.eqb prop "done" then Py.str_bool (t_done t)
  else if String.eqb prop "ctime" then t_ctime t
  else if String.eqb prop "id" then Py.str_int (t_id t)
  else EmptyString.

(** [str(t.get(prop, "")).lower() == val.lower()] *)
Definition prop_matches (prop val : string) (t : Task) : bool :=
  String.eqb (Py.lower (prop_str t prop)) (Py.lower val).

(** Field assignments [task[k] = v] on a task dictionary. *)
Definition set_name (v : string) (t : Task) : Task :=
  mk_task v (t_type t) (t_desc t) (t_due t) (t_rep t) (t_prio t) (t_done t) (t_ctime t) (t_id t).
Definition set_type (v : string) (t : Task) : Task :=
  mk_task (t_name t) v (t_desc t) (t_due t) (t_rep t) (t_prio t) (t_done t) (t_ctime t) (t_id t).
Definition set_desc (v : string) (t : Task) : Task :=
  mk_task (t_name t) (t_type t) v (t_due t) (t_rep t) (t_prio t) (t_done t) (t_ctime t) (t_id t).
Definition set_due (v : string) (t : Task) : Task :=
  mk_task (t_name t) (t_type t) (t_desc t) v (t_rep t) (t_prio t) (t_done t) (t_ctime t) (t_id t).
Definition set_rep (v : string) (t : Task) : Task :=
  mk_task (t_name t) (t_type t) (t_desc t) (t_due t) v (t_prio t) (t_done t) (t_ctime t) (t_id t).
Definition set_prio (v : string) (t : Task) : Task :=
  mk_task (t_name t) (t_type t) (t_desc t) (t_due t) (t_rep t) v (t_done t) (t_ctime t) (t_id t).
Definition set_done (v : bool) (t : Task) : Task :=
  mk_task (t_name t) (t_type t) (t_desc t) (t_due t) (t_rep t) (t_prio t) v (t_ctime t) (t_id t).

(** An assignment through the reference [task] found at index [i]: the
    dictionary is shared with the store, so the store sees the update. *)
Definition assign (i : nat) (f : Task -> Task) : M unit :=
  let! l := get_tasks in set_tasks (alter f i l).

(** [now] is the string [now_ctime_str()] returns at this call. *)
Definition cmd_add (now : string) (args : gmap string string) (original : string) : M unit :=
  check_allowed {[ "name"; "type"; "desc"; "due"; "rep"; "prio" ]} args >>>
  match args !! "name" with
  | None => raise MissingArguments
  | Some name =>
      when_raise (Py.isdigit name) InvalidArgumentType >>>
      let typ := get args "type" "NONE" in
      let desc := get args "desc" EmptyString in
      let due_str := get args "due" DEFAULT_DUE in
      let rep := get args "rep" DEFAULT_REP in
      let prio := get args "prio" DEFAULT_PRIORITY in
      when_raise (negb (bool_decide (rep ∈ VALID_REPS))) InvalidRepeat >>>
      when_raise (negb (bool_decide (prio ∈ VALID_PRIOS))) InvalidPriority >>>
      (if String.eqb due_str "NONE" then ret tt
       else let! _ := lift (parse_date_str due_str) in ret tt) >>>
      let! nid := get_next_id in
      let task := mk_task name typ desc due_str rep prio false now nid in
      let! l := get_tasks in
      set_tasks (l ++ [task]) >>>
      set_next_id (nid + 1) >>>
      print (success_line original)
  end.

(** [task[prop] = new_val] in the last branch of [cmd_mod], where [prop]
    is one of name, type and desc. *)
Definition set_field (prop new_val : string) (t : Task) : Task :=
  if String.eqb prop "name" then set_name new_val t
  else if String.eqb prop "type" then set_type new_val t
  else if String.eqb prop "desc" then set_desc new_val t
  else t.

Definition cmd_mod (args : gmap string string) (original : string) : M unit :=
  check_allowed {[ "id"; "property"; "new_val" ]} args >>>
  match args !! "id", args !! "property", args !! "new_val" with
  | Some id_str, Some prop, Some new_val =>
      match Py.int id_str with
      | None => raise InvalidArgumentType
      | Some idv =>
          when_raise (negb (bool_decide (prop ∈ PROPERTIES))) InvalidArgument >>>
          let! l := get_tasks in
          match find_task idv l with
          | None => raise TaskNotFound
          | Some (i, _) =>
              (if String.eqb prop "due" then
                 let! _ := lift (parse_date_str new_val) in
                 assign i (set_due new_val)
               else if String.eqb prop "rep" then
                 when_raise (negb (bool_decide (new_val ∈ VALID_REPS))) InvalidRepeat >>>
                 assign i (set_rep new_val)
               else if String.eqb prop "prio" then
                 when_raise (negb (bool_decide (new_val ∈ VALID_PRIOS))) InvalidPriority >>>
                 assign i (set_prio new_val)
               else if String.eqb prop "done" then
                 let! b := lift (parse_bool_str new_val) in
                 assign i (set_done b)
               else if String.eqb prop "id" then raise InvalidArgument
               else if String.eqb prop "ctime" then raise InvalidArgument
               else
                 when_raise (String.eqb prop "name" && Py.isdigit new_val) InvalidArgumentType >>>
                 assign i (set_field prop new_val)) >>>
              print (success_line original)
          end
      end
  | _, _, _ => raise MissingArguments
  end.

Definition cmd_done (args : gmap string string) (original : string) : M unit :=
  check_allowed {[ "id" ]} args >>>
  match args !! "id" with
  | None => raise MissingArguments
  | Some id_str =>
      match Py.int id_str with
      | None => raise InvalidArgumentType
      | Some idv =>
          let! l := get_tasks in
          match find_task idv l with
          | None => raise TaskNotFound
          | Some (i, _) =>
              assign i (set_done true) >>>
              print (success_line original)
          end
      end
  end.

Definition cmd_delete (args : gmap string string) (original : string) : M unit :=
  check_allowed {[ "id"; "property"; "val" ]} args >>>
  match args !! "id" with
  | Some id_str =>
      when_raise (has args "property" || has args "val") TooManyArguments >>>
      match Py.int id_str with
      | None => raise InvalidArgumentType
      | Some idv =>
          let! l := get_tasks in
          match find_task idv l with
          | None => raise TaskNotFound
          | Some (idx, _) =>
              (* _tasks.pop(idx) *)
              set_tasks (delete idx l) >>>
              print (success_line original)
          end
      end
  | None =>
      match args !! "property", args !! "val" with
      | Some prop, Some val =>
          when_raise (negb (bool_decide (prop ∈ PROPERTIES))) InvalidArgument >>>
          let! l := get_tasks in
          let to_delete := filter (fun t => prop_matches prop val t = true) l in
          when_raise (bool_decide (to_delete = [])) TaskNotFound >>>
          let remaining := filter (fun t => t ∉ to_delete) l in
          set_tasks remaining >>>
          print (success_line original)
      | _, _ => raise MissingArguments
      end
  end.

(** ** Sorting and printing *)

(** The values [keyfn] returns: a string, a number, a Boolean, or the
    pair built for [due], whose second component is [None] or an ordinal. *)
Inductive Key : Type :=
  | KStr (s : string)
  | KInt (n : Z)
  | KBool (b : bool)
  | KTuple (tag : Z) (ord : option Z).

#[global] Instance Key_eq_dec : EqDecision Key.
Proof. solve_decision. Defined.

(** Python's [a < b] on keys.  Strings compare by code point, tuples
    lexicographically.  Comparisons Python rejects with [TypeError]
    (values of two shapes, [None] against a number) are [false] here; a
    key function never produces two keys of that kind, see
    [sort_key_total]. *)
Definition key_lt (a b : Key) : bool :=
  match a, b with
  | KStr s1, KStr s2 => String.ltb s1 s2
  | KInt x, KInt y => x <? y
  | KBool x, KBool y => negb x && y
  | KTuple t1 o1, KTuple t2 o2 =>
      if t1 =? t2 then
        match o1, o2 with
        | Some x, Some y => x <? y
        | _, _ => false
        end
      else t1 <? t2
  | _, _ => false
  end.

(** Insertion of [x], which stood before every element of [l] in the
    input, into the sorted [l]: [x] goes before the first element that is
    not smaller, so before its equals. *)
Fixpoint insert_sorted {A} (lt : A -> A -> bool) (x : A) (l : list A) : list A :=
  match l with
  | [] => [x]
  | y :: l' => if lt y x then y :: insert_sorted lt x l' else x :: y :: l'
  end.

Definition stable_sort {A} (lt : A -> A -> bool) (l : list A) : list A :=
  foldr (insert_sorted lt) [] l.

(** [sorted(l, key=key, reverse=reverse)].  The built-in sort is stable
    and uses only [<] on keys; with [reverse=True] it yields descending
    keys and still keeps elements with equal keys in their input order,
    which is an ascending stable sort of the reversed list, reversed. *)
Definition sorted {A} (key : A -> Key) (reverse : bool) (l : list A) : list A :=
  let lt a b := key_lt (key a) (key b) in
  if reverse then List.rev (stable_sort lt (List.rev l)) else stable_sort lt l.

Definition header : string :=
  "Name | Type | Desc | Due | Rep | Prio | Done | Ctime | Id".

Definition row (t : Task) : string :=
  t_name t +:+ " | " +:+ t_type t +:+ " | " +:+ t_desc t +:+ " | " +:+
  t_due t +:+ " | " +:+ t_rep t +:+ " | " +:+ t_prio t +:+ " | " +:+
  Py.str_bool (t_done t) +:+ " | " +:+ t_ctime t +:+ " | " +:+ Py.str_int (t_id t).

Fixpoint print_rows (ts : list Task) : M unit :=
  match ts with
  | [] => ret tt
  | t :: ts' => print (row t) >>> print EmptyString >>> print_rows ts'
  end.

Section Interpreter.

(** The key for [ctime] is [datetime(...).timestamp()] of the parsed
    creation time, or 0 when parsing raises.  It depends on the time zone
    of the process, so it is a parameter: the number of seconds the
    platform assigns to a stored [ctime] string. *)
Variable timestamp : string -> Z.

Definition sort_key_func (sort_by : string) (task : Task) : Key :=
  if String.eqb sort_by "name" then KStr (Py.lower (t_name task))
  else if String.eqb sort_by "type" then KStr (Py.lower (t_type task))
  else if String.eqb sort_by "desc" then KStr (Py.lower (t_desc task))
  else if String.eqb sort_by "due" then
    if String.eqb (t_due task) "NONE" then KTuple 1 None
    else match parse_date_str (t_due task) with
         | inr (Some d) => KTuple 0 (Some (toordinal d))
         | _ => KTuple 1 None
         end
  else if String.eqb sort_by "rep" then KStr (t_rep task)
  else if String.eqb sort_by "prio" then KInt (default 0 (PRIORITY_ORDER !! t_prio task))
  else if String.eqb sort_by "done" then KBool (t_done task)
  else if String.eqb sort_by "ctime" then KInt (timestamp (t_ctime task))
  else if String.eqb sort_by "id" then KInt (t_id task)
  else KStr EmptyString.

(** The order in which [print_header_and_tasks] prints the rows. *)
Definition sorted_tasks (tasks : list Task) (sort_by direction : string) : list Task :=
  let reverse := String.eqb direction "desc" in
  sorted (sort_key_func sort_by) reverse tasks.

Definition print_header_and_tasks (tasks : list Task) (sort_by direction : string) : M unit :=
  print header >>>
  print_rows (sorted_tasks tasks sort_by direction).

Definition cmd_print (args : gmap string string) (original : string) : M unit :=
  check_allowed {[ "sort_by"; "direction" ]} args >>>
  let! sd := validate_sort_args args in
  print (success_line original) >>>
  let! l := get_tasks in
  print_header_and_tasks l (fst sd) (snd sd).

Definition cmd_list (args : gmap string string) (original : string) : M unit :=
  check_allowed {[ "property"; "val"; "sort_by"; "direction" ]} args >>>
  match args !! "property", args !! "val" with
  | Some prop, Some val =>
      when_raise (negb (bool_decide (prop ∈ PROPERTIES))) InvalidArgument >>>
      let! sd := validate_sort_args args in
      let! l := get_tasks in
      let filtered := filter (fun t => prop_matches prop val t = true) l in
      print (success_line original) >>>
      print_header_and_tasks filtered (fst sd) (snd sd)
  | _, _ => raise MissingArguments
  end.

(** ** The dispatcher *)

(** [re.match(r"^\s*(\w+)", line)]: the command word and the text after it. *)
Definition command_word (line : string) : option (string * string) :=
  let '(cmd, after) := Py.span Py.is_word (Py.lstrip_chars Py.isspace line) in
  match cmd with
  | EmptyString => None
  | String _ _ => Some (cmd, after)
  end.

Definition dispatch (now cmd : string) (args : gmap string string) (orig : string) : M unit :=
  if String.eqb cmd "help" then
    when_raise (negb (bool_decide (args = ∅))) TooManyArguments >>>
    cmd_help args orig
  else if String.eqb cmd "print" then cmd_print args orig
  else if String.eqb cmd "add" then cmd_add now args orig
  else if String.eqb cmd "list" then cmd_list args orig
  else if String.eqb cmd "mod" then cmd_mod args orig
  else if String.eqb cmd "done" then cmd_done args orig
  else if String.eqb cmd "delete" then cmd_delete args orig
  else raise InvalidArgument.

Definition process_line (now line : string) : M unit :=
  let line := Py.rstrip_newline line in
  match Py.strip line with
  | EmptyString => ret tt
  | String _ _ =>
      if (1024 <? String.length line)%nat then raise TooLongLine
      else
        let orig := line in
        if Py.startswith_hash (Py.strip line) then ret tt
        else
          match command_word line with
          | None => raise InvalidArgument
          | Some (cmd, after) =>
              let rest := Py.strip after in
              let! args :=
                match rest with
                | EmptyString => ret ∅
                | String _ _ => lift (tokenize_args_segment rest)
                end in
              try_except (dispatch now cmd args orig)
                         (fun e => print (error_line e orig))
          end
  end.

(** The body of the loop of [run_from_file] on one raw line. *)
Definition run_line (now raw : string) : M unit :=
  let line := Py.rstrip_newline raw in
  try_except (process_line now line) (fun e => print (error_line e line)).

(** [run_from_file] on the lines of the file, each paired with the clock
    reading an [add] on that line would store. *)
Fixpoint run_lines (inputs : list (string * string)) : M unit :=
  match inputs with
  | [] => ret tt
  | (now, raw) :: rest => run_line now raw >>> run_lines rest
  end.

(** The state after a run; [run_line] never raises. *)
Definition exec (inputs : list (string * string)) (w : World) : World :=
  fst (run_lines inputs w).

End Interpreter.

(** ** Notions used in the statements *)

(** The command word and the argument mapping with which [process_line]
    reaches the dispatcher, for a line that gets there: not blank, not
    too long, not a comment, with a command word and a well-formed
    argument segment. *)
Definition parse_line (raw : string) : option (string * gmap string string) :=
  let line := Py.rstrip_newline raw in
  match Py.strip line with
  | EmptyString => None
  | String _ _ =>
      if (1024 <? String.length line)%nat then None
      else if Py.startswith_hash (Py.strip line) then None
      else
        match command_word line with
        | None => None
        | Some (cmd, after) =>
            match Py.strip after with
            | EmptyString => Some (cmd, ∅)
            | String _ _ as rest =>
                match tokenize_args_segment rest with
                | inr args => Some (cmd, args)
                | inl _ => None
                end
            end
        end
  end.

(** The state [w] with [out] appended to the printed text, the store and
    the id counter untouched. *)
Definition with_output (w : World) (out : list string) : World :=
  mk_world (_tasks w) (_next_id w) (stdout w ++ out).

(** The due field holds a real calendar date. *)
Definition real_date (due : string) : Prop :=
  exists d, parse_date_str due = inr (Some d).

(** A string of [n] copies of [c]. *)
Fixpoint replicate_char (n : nat) (c : ascii) : string :=
  match n with
  | O => EmptyString
  | S n' => String c (replicate_char n' c)
  end.

(** The line is an [add] command that ran to its success line. *)
Definition is_successful_add (timestamp : string -> Z) (now raw : string) (w : World) : bool :=
  match command_word (Py.rstrip_newline raw) with
  | Some (cmd, _) =>
      String.eqb cmd "add" &&
      bool_decide (stdout (fst (run_line timestamp now raw w)) =
                   stdout w ++ [success_line (Py.rstrip_newline raw)])
  | None => false
  end.

(** The number of successful [add]s in a run started in [w]. *)
Fixpoint successful_adds (timestamp : string -> Z)
    (inputs : list (string * string)) (w : World) : nat :=
  match inputs with
  | [] => O
  | (now, raw) :: rest =>
      ((if is_successful_add timestamp now raw w then 1 else 0) +
       successful_adds timestamp rest (fst (run_line timestamp now raw w)))%nat
  end.

(** A field assignment that leaves the id and the creation time alone. *)
Definition id_preserving (f : Task -> Task) : Prop :=
  forall t, t_id (f t) = t_id t /\ t_ctime (f t) = t_ctime t.

(** A field assignment that does not introduce a numeric name. *)
Definition name_safe (f : Task -> Task) : Prop :=
  forall t, Py.isdigit (t_name t) = false -> Py.isdigit (t_name (f t)) = false.

(** A step that creates no task: the counter stands, and the store is
    the old one with one task updated in place, or with tasks removed. *)
Definition kept (w w' : World) : Prop :=
  _next_id w' = _next_id w /\
  ((exists i f, _tasks w' = alter f i (_tasks w) /\ id_preserving f /\ name_safe f) \/
   sublist (_tasks w') (_tasks w)).

(** A step that appends the new task [t]. *)
Definition added (w w' : World) (t : Task) : Prop :=
  _tasks w' = _tasks w ++ [t] /\ _next_id w' = _next_id w + 1 /\
  t_id t = _next_id w /\ Py.isdigit (t_name t) = false.

(** The arguments with which an [add] goes through: only the six keys,
    a name that is not a numeral, a repeat and a priority (given or
    default) among the valid ones, and a due value that is NONE or the
    text of a calendar date. *)
Definition add_accepts (args : gmap string string) (name : string) : Prop :=
  dom args ⊆ ({[ "name"; "type"; "desc"; "due"; "rep"; "prio" ]} : gset string) /\
  args !! "name" = Some name /\ Py.isdigit name = false /\
  default "NONE" (args !! "rep") ∈ VALID_REPS /\
  default "MEDIUM" (args !! "prio") ∈ VALID_PRIOS /\
  (default "NONE" (args !! "due") = "NONE" \/
   real_date (default "NONE" (args !! "due"))).

(** [<] is a strict total order on three keys: the key functions only
    produce keys that compare this way. *)
Definition comparable (ka kb kc : Key) : Prop :=
  key_lt ka ka = false /\
  (key_lt ka kb = true -> key_lt kb ka = false) /\
  (key_lt kb ka = false -> key_lt kc kb = false -> key_lt kc ka = false) /\
  (key_lt ka kb = false -> key_lt kb ka = false -> ka = kb).

Definition total_on {A} (key : A -> Key) : Prop :=
  forall a b c, comparable (key a) (key b) (key c).

(** The counter equals [n], and the ids in the store are increasing and
    below the counter. *)
Definition ids_in_order (w : World) (n : nat) : Prop :=
  _next_id w = Z.of_nat n /\
  StronglySorted Z.lt (t_id <$> _tasks w) /\
  Forall (fun i => 0 <= i < Z.of_nat n) (t_id <$> _tasks w).

(** Names in the store are never numeric. *)
Definition names_ok (w : World) : Prop :=
  Forall (fun t => Py.isdigit (t_name t) = false) (_tasks w).

(** The value of the last (rightmost) match of [ms] whose key is [k]. *)
Definition last_occurrence (k : string) (ms : list (string * string * string))
    : option string :=
  (fun m => snd (fst m)) <$> last (filter (fun m => fst (fst m) = k) ms).

(** A sample clock-to-seconds function for closed examples. *)
Definition epoch_zero : string -> Z := fun _ => 0.

(** Two tasks as two [add] commands leave them: the first with a due
    date, the second without, both with the default priority. *)
Definition two_adds : list (string * string) :=
  [ ("3-11-2025 09:00:00", "add name=a due=05-10-2025");
    ("3-11-2025 09:00:01", "add name=b") ].

Definition task_a : Task :=
  mk_task "a" "NONE" EmptyString "05-10-2025" "NONE" "MEDIUM" false "3-11-2025 09:00:00" 0.
Definition task_b : Task :=
  mk_task "b" "NONE" EmptyString "NONE" "NONE" "MEDIUM" false "3-11-2025 09:00:01" 1.

(** ** Notions used in the further properties *)

(** The task dictionary [cmd_add] builds from its arguments. *)
Definition new_task (now : string) (args : gmap string string)
    (name : string) (nid : Z) : Task :=
  mk_task name (get args "type" "NONE") (get args "desc" EmptyString)
          (get args "due" DEFAULT_DUE) (get args "rep" DEFAULT_REP)
          (get args "prio" DEFAULT_PRIORITY) false now nid.

(** The due field, the repeat and the priority of a task are valid. *)
Definition well_formed (t : Task) : Prop :=
  (t_due t = "NONE" \/ real_date (t_due t)) /\
  t_rep t ∈ VALID_REPS /\ t_prio t ∈ VALID_PRIOS.

(** The assignments [cmd_mod] and [cmd_done] make, each with the check
    that guards it. *)
Inductive Update : (Task -> Task) -> Prop :=
  | up_due v : v = "NONE" \/ real_date v -> Update (set_due v)
  | up_rep v : v ∈ VALID_REPS -> Update (set_rep v)
  | up_prio v : v ∈ VALID_PRIOS -> Update (set_prio v)
  | up_done b : Update (set_done b)
  | up_name v : Py.isdigit v = false -> Update (set_name v)
  | up_type v : Update (set_type v)
  | up_desc v : Update (set_desc v).

(** What one line can do to the store and the counter. *)
Inductive Step (now : string) (w w' : World) : Prop :=
  | step_same :
      _tasks w' = _tasks w -> _next_id w' = _next_id w -> Step now w w'
  | step_add args name :
      Py.isdigit name = false ->
      well_formed (new_task now args name (_next_id w)) ->
      _tasks w' = _tasks w ++ [new_task now args name (_next_id w)] ->
      _next_id w' = _next_id w + 1 -> Step now w w'
  | step_update i t f :
      Update f -> _tasks w !! i = Some t ->
      _tasks w' = <[i := f t]> (_tasks w) ->
      _next_id w' = _next_id w -> Step now w w'
  | step_remove :
      _tasks w' `sublist_of` _tasks w -> _next_id w' = _next_id w -> Step now w w'.

(** The command word of the line is one of the four commands that
    write to the store. *)
Definition is_mutating_command (raw : string) : bool :=
  match command_word (Py.rstrip_newline raw) with
  | Some (cmd, _) => bool_decide (cmd ∈ ["add"; "mod"; "done"; "delete"])
  | None => false
  end.

(** Two states with the same store and the same counter. *)
Definition same_store (w w' : World) : Prop :=
  _tasks w' = _tasks w /\ _next_id w' = _next_id w.

(** The lines of a table body: each task's row, then an empty line. *)
Definition table (ts : list Task) : list string :=
  flat_map (fun t => [row t; EmptyString]) ts.

(** The value of a decimal numeral read digit by digit from [acc]. *)
Fixpoint horner (acc : Z) (d : Decimal.uint) : Z :=
  match d with
  | Decimal.Nil => acc
  | Decimal.D0 d => horner (acc * 10 + 0) d
  | Decimal.D1 d => horner (acc * 10 + 1) d
  | Decimal.D2 d => horner (acc * 10 + 2) d
  | Decimal.D3 d => horner (acc * 10 + 3) d
  | Decimal.D4 d => horner (acc * 10 + 4) d
  | Decimal.D5 d => horner (acc * 10 + 5) d
  | Decimal.D6 d => horner (acc * 10 + 6) d
  | Decimal.D7 d => horner (acc * 10 + 7) d
  | Decimal.D8 d => horner (acc * 10 + 8) d
  | Decimal.D9 d => horner (acc * 10 + 9) d
  end.

(** The assignment [cmd_mod] makes for a property and a new value. *)
Inductive Writes : string -> string -> (Task -> Task) -> Prop :=
  | w_due v : Writes "due" v (set_due v)
  | w_rep v : Writes "rep" v (set_rep v)
  | w_prio v : Writes "prio" v (set_prio v)
  | w_done v b : parse_bool_str v = inr b -> Writes "done" v (set_done b)
  | w_name v : Writes "name" v (set_name v)
  | w_type v : Writes "type" v (set_type v)
  | w_desc v : Writes "desc" v (set_desc v).

(** The character [c] occurs in [s]. *)
Fixpoint occurs (c : ascii) (s : string) : bool :=
  match s with
  | String c' s' => Ascii.eqb c' c || occurs c s'
  | EmptyString => false
  end.

(** A key-value pair written the way the usage text shows it, with the
    value in double quotes, and a list of pairs separated by one space. *)
Definition render_pair (p : string * string) : string :=
  fst p +:+ String "=" (String Py.dquote (snd p +:+ String Py.dquote EmptyString)).

Fixpoint render (ps : list (string * string)) : string :=
  match ps with
  | [] => EmptyString
  | [p] => render_pair p
  | p :: ps' => render_pair p +:+ String " " (render ps')
  end.

(** A key the tokenizer can read back: a non-empty run of word
    characters; and a value that can stand between double quotes. *)
Definition writable (p : string * string) : Prop :=
  fst p <> EmptyString /\ Py.all_chars Py.is_word (fst p) = true /\
  occurs Py.dquote (snd p) = false.

(** The matches the scan finds in a rendered list of pairs: each pair,
    with the text that follows it. *)
Fixpoint rendered_matches (ps : list (string * string))
    : list (string * string * string) :=
  match ps with
  | [] => []
  | [p] => [(fst p, snd p, EmptyString)]
  | p :: ps' => (fst p, snd p, String " " (render ps')) :: rendered_matches ps'
  end.

(** The error kinds each command can end in, read off its handler. *)
Definition errors_of (cmd : string) : list Error :=
  if String.eqb cmd "help" then [TooManyArguments]
  else if String.eqb cmd "print" then [TooManyArguments; InvalidArgument]
  else if String.eqb cmd "add" then
    [TooManyArguments; MissingArguments; InvalidArgumentType; InvalidRepeat;
     InvalidPriority; InvalidDateFormat]
  else if String.eqb cmd "list" then
    [TooManyArguments; MissingArguments; InvalidArgument]
  else if String.eqb cmd "mod" then
    [TooManyArguments; MissingArguments; InvalidArgumentType; InvalidArgument;
     TaskNotFound; InvalidDateFormat; InvalidRepeat; InvalidPriority;
     InvalidDoneStatus]
  else if String.eqb cmd "done" then
    [TooManyArguments; MissingArguments; InvalidArgumentType; TaskNotFound]
  else if String.eqb cmd "delete" then
    [TooManyArguments; MissingArguments; InvalidArgumentType; InvalidArgument;
     TaskNotFound]
  else [InvalidArgument].

(** Calendar order of two dates: by year, then month, then day. *)
Definition earlier (a b : date) : Prop :=
  year a < year b \/
  (year a = year b /\
   (month a < month b \/ (month a = month b /\ day a < day b))).

(** [clear_state()]: the store is emptied and the counter reset; what
    was printed stays printed. *)
Definition clear_state : M unit :=
  fun w => (mk_world [] 0 (stdout w), Ok tt).

(** The state [w] with the lines [p] printed before everything else. *)
Definition printed_before (p : list string) (w : World) : World :=
  mk_world (_tasks w) (_next_id w) (p ++ stdout w).

(** A computation that only appends to the output and never reads it. *)
Definition appends_only {A} (c : M A) : Prop :=
  forall p w, c (printed_before p w) = (printed_before p (c w).1, (c w).2).

(** [s.zfill(w)] for a string of digits: zeros in front up to the width
    [w], as the formats [%02d], [%d], [%m] and (padded) [%Y] write a
    number that is not negative. *)
Definition zfill (w : nat) (s : string) : string :=
  replicate_char (w - String.length s) "0" +:+ s.

(** [d.strftime("%d-%m-%Y")].  The day and the month are written in two
    digits.  Whether a year below 1000 is padded to four digits depends
    on the C library and on the version of Python: [pad_year]. *)
Definition strftime_dmY (pad_year : bool) (d : date) : string :=
  zfill 2 (Py.str_int (day d)) +:+ "-" +:+ zfill 2 (Py.str_int (month d)) +:+ "-" +:+
  (if pad_year then zfill 4 (Py.str_int (year d)) else Py.str_int (year d)).

Definition format_due_for_print (pad_year : bool) (due : option date) : string :=
  match due with
  | Some d => strftime_dmY pad_year d
  | None => "NONE"
  end.

(** The numbers from [lo] up to, not including, [hi]. *)
Definition numbers (lo hi : Z) : list Z :=
  map (fun k => lo + Z.of_nat k) (seq 0 (Z.to_nat (hi - lo))).

(** [s] is two digits that read as [n]. *)
Definition two_digits_of (n : Z) (s : string) : bool :=
  match s with
  | String a (String b EmptyString) =>
      Py.is_digit a && Py.is_digit b && (digits_value 0 s =? n)
  | _ => false
  end.

(** [s] is four digits that read as [n]. *)
Definition four_digits_of (n : Z) (s : string) : bool :=
  (String.length s =? 4)%nat && Py.all_chars Py.is_digit s &&
  (digits_value 0 s =? n).

(** The fields of a [datetime] the program uses; the clock also gives
    microseconds, which [now_ctime_str] does not write. *)
Record datetime : Type := mk_datetime
  { dt_year : Z; dt_month : Z; dt_day : Z;
    dt_hour : Z; dt_minute : Z; dt_second : Z }.

(** [datetime(year, month, day, hour, minute, second)]; [None] stands
    for the [ValueError] raised for fields out of range. *)
Definition make_datetime (y m d hh mm ss : Z) : option datetime :=
  match make_date y m d with
  | Some _ =>
      if (0 <=? hh) && (hh <=? 23) && (0 <=? mm) && (mm <=? 59)
         && (0 <=? ss) && (ss <=? 59)
      then Some (mk_datetime y m d hh mm ss) else None
  | None => None
  end.

(** [now_ctime_str()] when the clock reads [dt]. *)
Definition now_ctime_str (dt : datetime) : string :=
  Py.str_int (dt_day dt) +:+ "-" +:+ Py.str_int (dt_month dt) +:+ "-" +:+
  Py.str_int (dt_year dt) +:+ " " +:+
  zfill 2 (Py.str_int (dt_hour dt)) +:+ ":" +:+
  zfill 2 (Py.str_int (dt_minute dt)) +:+ ":" +:+
  zfill 2 (Py.str_int (dt_second dt)).

(** [s.split(sep)] for a separator of one character. *)
Fixpoint split_on (sep : ascii) (s : string) : list string :=
  match s with
  | EmptyString => [EmptyString]
  | String a r =>
      if Ascii.eqb a sep then EmptyString :: split_on sep r
      else match split_on sep r with
           | p :: ps => String a p :: ps
           | [] => [String a EmptyString]
           end
  end.

(** The [datetime] the [ctime] branch of the sort key builds from a
    stored string; [None] stands for any exception on the way (a missing
    part, a part that is not a number, fields out of range). *)
Definition ctime_fields (s : string) : option datetime :=
  let parts := split_on " " s in
  p0 ← parts !! 0%nat;
  p1 ← parts !! 1%nat;
  let dparts := split_on "-" p0 in
  let tparts := split_on ":" p1 in
  y ← dparts !! 2%nat ≫= Py.int;
  m ← dparts !! 1%nat ≫= Py.int;
  d ← dparts !! 0%nat ≫= Py.int;
  hh ← tparts !! 0%nat ≫= Py.int;
  mm ← tparts !! 1%nat ≫= Py.int;
  ss ← tparts !! 2%nat ≫= Py.int;
  make_datetime y m d hh mm ss.

(** The sort key for [ctime]: [epoch dt] is what [dt.timestamp()] gives
    on the platform (0 where it raises), and 0 is the key of a string
    from which no [datetime] is built. *)
Definition ctime_key (epoch : datetime -> Z) (s : string) : Z :=
  match ctime_fields s with
  | Some dt => epoch dt
  | None => 0
  end.

(** [s] is made of digits and [int(s)] is [n]. *)
Definition reads_as (n : Z) (s : string) : bool :=
  Py.all_chars Py.is_digit s &&
  match Py.int s with
  | Some v => v =? n
  | None => false
  end.

(** * Properties *)

(** ** The library functions on sample inputs *)

Example strip_ex : Py.strip "  a b  " = "a b".
Proof. reflexivity. Qed.

Example int_ex :
  Py.int " +1_0 " = Some 10 /\ Py.int "-007" = Some (-7) /\
  Py.int "1__0" = None /\ Py.int "_1" = None /\ Py.int "1_" = None /\
  Py.int "" = None /\ Py.int "12a" = None /\ Py.int "+ 1" = None.
Proof. repeat split; reflexivity. Qed.

Example str_int_ex : Py.str_int 0 = "0" /\ Py.str_int 120 = "120" /\ Py.str_int (-5) = "-5".
Proof. repeat split; reflexivity. Qed.

Example parse_date_ex :
  parse_date_str "05-10-2025" = inr (Some (mk_date 2025 10 5)) /\
  parse_date_str "5-1-2025" = inr (Some (mk_date 2025 1 5)) /\
  parse_date_str "31-02-2025" = inl InvalidDateFormat /\
  parse_date_str "29-02-2024" = inr (Some (mk_date 2024 2 29)) /\
  parse_date_str "2025/10/31" = inl InvalidDateFormat /\
  parse_date_str "001-1-2025" = inl InvalidDateFormat /\
  parse_date_str "NONE" = inr None.
Proof. repeat split; reflexivity. Qed.

Example toordinal_ex :
  toordinal (mk_date 1 1 1) = 1 /\ toordinal (mk_date 1970 1 1) = 719163 /\
  toordinal (mk_date 2025 10 5) = 739529.
Proof. repeat split; reflexivity. Qed.

(** ** String utilities *)

Lemma span_twice p s :
  Py.lstrip_chars p (Py.lstrip_chars p s) = Py.lstrip_chars p s.
Proof.
  unfold Py.lstrip_chars.
  induction s as [|c s IH]; simpl; [done|].
  destruct (p c) eqn:Hc.
  - destruct (Py.span p s); simpl in *. done.
  - simpl. rewrite Hc. done.
Qed.

Lemma rstrip_chars_idem p s :
  Py.rstrip_chars p (Py.rstrip_chars p s) = Py.rstrip_chars p s.
Proof.
  induction s as [|c s IH]; simpl; [done|].
  destruct (Py.rstrip_chars p s) as [|c' r] eqn:Hr.
  - destruct (p c) eqn:Hc; simpl; [done|]. by rewrite Hc.
  - simpl in *. rewrite IH. done.
Qed.

Lemma rstrip_newline_idem s :
  Py.rstrip_newline (Py.rstrip_newline s) = Py.rstrip_newline s.
Proof. apply rstrip_chars_idem. Qed.

Lemma isdigit_empty : Py.isdigit EmptyString = false.
Proof. reflexivity. Qed.

Lemma success_not_error orig e l : success_line orig <> error_line e l.
Proof. unfold success_line, error_line. simpl. discriminate. Qed.

(** ** The monad *)

Ltac mred :=
  cbv [bind ret raise when_raise lift check_allowed get_tasks get_next_id
       set_tasks set_next_id print assign try_except] in *;
  cbn [_tasks _next_id stdout] in *.

Lemma print_all_run ls w :
  print_all ls w = (with_output w ls, Ok tt).
Proof.
  revert w. induction ls as [|l ls IH]; intros w; simpl.
  - unfold ret, with_output. rewrite app_nil_r. by destruct w.
  - mred. rewrite IH. unfold with_output. simpl. by rewrite <- app_assoc.
Qed.

Lemma print_rows_run ts w :
  exists out, print_rows ts w = (with_output w out, Ok tt).
Proof.
  revert w. induction ts as [|t ts IH]; intros w; simpl.
  - exists []. unfold ret, with_output. rewrite app_nil_r. by destruct w.
  - mred. destruct (IH (mk_world (_tasks w) (_next_id w) ((stdout w ++ [row t]) ++ [EmptyString])))
      as [out Hout].
    exists (row t :: EmptyString :: out). rewrite Hout. unfold with_output. simpl.
    by rewrite <- !app_assoc.
Qed.

(** ** Effects of the handlers *)

Ltac raise_case := left; eexists; reflexivity.

Lemma set_field_ok prop v :
  String.eqb prop "name" && Py.isdigit v = false ->
  id_preserving (set_field prop v) /\ name_safe (set_field prop v).
Proof.
  intros H. unfold set_field. split; intros t.
  - repeat case_match; done.
  - intros Ht. destruct (String.eqb prop "name"); simpl in *; [done|].
    repeat case_match; done.
Qed.

Lemma cmd_add_spec now args orig w :
  (exists e, cmd_add now args orig w = (w, Raise e)) \/
  (exists t, cmd_add now args orig w =
      (mk_world (_tasks w ++ [t]) (_next_id w + 1) (stdout w ++ [success_line orig]), Ok tt)
      /\ t_id t = _next_id w /\ Py.isdigit (t_name t) = false).
Proof.
  unfold cmd_add. mred.
  repeat (case_match; simplify_eq/=; try raise_case).
  all: right; eexists; (split; [reflexivity|]); simpl; auto.
Qed.

Lemma cmd_mod_spec args orig w :
  (exists e, cmd_mod args orig w = (w, Raise e)) \/
  (exists i f, cmd_mod args orig w =
      (mk_world (alter f i (_tasks w)) (_next_id w) (stdout w ++ [success_line orig]), Ok tt)
      /\ id_preserving f /\ name_safe f).
Proof.
  unfold cmd_mod. mred.
  repeat (case_match; simplify_eq/=; try raise_case).
  all: right; do 2 eexists; (split; [reflexivity|]).
  all: try (split; intros ?; done).
  by apply set_field_ok.
Qed.

Lemma cmd_done_spec args orig w :
  (exists e, cmd_done args orig w = (w, Raise e)) \/
  (exists i f, cmd_done args orig w =
      (mk_world (alter f i (_tasks w)) (_next_id w) (stdout w ++ [success_line orig]), Ok tt)
      /\ id_preserving f /\ name_safe f).
Proof.
  unfold cmd_done. mred.
  repeat (case_match; simplify_eq/=; try raise_case).
  right; do 2 eexists; (split; [reflexivity|]). split; intros ?; done.
Qed.

Lemma cmd_delete_spec args orig w :
  (exists e, cmd_delete args orig w = (w, Raise e)) \/
  (exists l, cmd_delete args orig w =
      (mk_world l (_next_id w) (stdout w ++ [success_line orig]), Ok tt)
      /\ sublist l (_tasks w)).
Proof.
  unfold cmd_delete. mred.
  repeat (case_match; simplify_eq/=; try raise_case).
  all: right; eexists; (split; [reflexivity|]).
  - apply sublist_delete.
  - apply sublist_filter.
Qed.

Lemma cmd_help_spec args orig w :
  cmd_help args orig w = (with_output w (success_line orig :: help_text), Ok tt).
Proof.
  unfold cmd_help. mred. rewrite print_all_run. unfold with_output. simpl.
  by rewrite <- app_assoc.
Qed.

Section HandlerSpecs.

Variable timestamp : string -> Z.

Lemma print_header_and_tasks_run tasks sort_by direction w :
  exists out, print_header_and_tasks timestamp tasks sort_by direction w
              = (with_output w (header :: out), Ok tt).
Proof.
  unfold print_header_and_tasks. mred.
  destruct (print_rows_run (sorted_tasks timestamp tasks sort_by direction)
              (mk_world (_tasks w) (_next_id w) (stdout w ++ [header]))) as [out Hout].
  exists out. rewrite Hout. unfold with_output. simpl. by rewrite <- app_assoc.
Qed.

Lemma cmd_print_spec args orig w :
  (exists e, cmd_print timestamp args orig w = (w, Raise e)) \/
  (exists out, cmd_print timestamp args orig w
               = (with_output w (success_line orig :: out), Ok tt)).
Proof.
  unfold cmd_print, validate_sort_args. mred.
  repeat (case_match; simplify_eq/=; try raise_case).
  right.
  match goal with
  | |- context [print_header_and_tasks _ ?l ?s ?d ?w0] =>
      destruct (print_header_and_tasks_run l s d w0) as [out Hout]; rewrite Hout
  end.
  eexists. unfold with_output. simpl. rewrite <- app_assoc. reflexivity.
Qed.

Lemma cmd_list_spec args orig w :
  (exists e, cmd_list timestamp args orig w = (w, Raise e)) \/
  (exists out, cmd_list timestamp args orig w
               = (with_output w (success_line orig :: out), Ok tt)).
Proof.
  unfold cmd_list, validate_sort_args. mred.
  repeat (case_match; simplify_eq/=; try raise_case).
  right.
  match goal with
  | |- context [print_header_and_tasks _ ?l ?s ?d ?w0] =>
      destruct (print_header_and_tasks_run l s d w0) as [out Hout]; rewrite Hout
  end.
  eexists. unfold with_output. simpl. rewrite <- app_assoc. reflexivity.
Qed.

(** Every command either raises in the state it started in, or prints
    its success line first; only [add] creates a task. *)
Lemma dispatch_spec now cmd args orig w :
  (exists e, dispatch timestamp now cmd args orig w = (w, Raise e)) \/
  (exists w' out, dispatch timestamp now cmd args orig w = (w', Ok tt) /\
      stdout w' = stdout w ++ success_line orig :: out /\
      if String.eqb cmd "add" then out = [] /\ exists t, added w w' t else kept w w').
Proof.
  unfold dispatch.
  destruct (String.eqb cmd "help") eqn:Hhelp.
  { apply String.eqb_eq in Hhelp as ->. simpl.
    unfold bind, when_raise.
    destruct (negb (bool_decide (args = ∅))); simpl; [raise_case|].
    right. rewrite cmd_help_spec. do 2 eexists. split; [reflexivity|].
    split; [reflexivity|]. split; [done|]. right. done. }
  destruct (String.eqb cmd "print") eqn:Hprint.
  { apply String.eqb_eq in Hprint as ->. simpl.
    destruct (cmd_print_spec args orig w) as [[e He]|[out Hout]]; [left; eauto|].
    right. rewrite Hout. do 2 eexists. split; [reflexivity|].
    split; [reflexivity|]. split; [done|]. right. done. }
  destruct (String.eqb cmd "add") eqn:Hadd.
  { destruct (cmd_add_spec now args orig w) as [[e He]|(t & Ht & Hid & Hname)]; [left; eauto|].
    right. rewrite Ht. do 2 eexists. split; [reflexivity|].
    split; [reflexivity|]. split; [done|]. exists t. by repeat split. }
  destruct (String.eqb cmd "list") eqn:Hlist.
  { destruct (cmd_list_spec args orig w) as [[e He]|[out Hout]]; [left; eauto|].
    right. rewrite Hout. do 2 eexists. split; [reflexivity|].
    split; [reflexivity|]. split; [done|]. right. done. }
  destruct (String.eqb cmd "mod") eqn:Hmod.
  { destruct (cmd_mod_spec args orig w) as [[e He]|(i & f & Hf & Hid & Hname)]; [left; eauto|].
    right. rewrite Hf. do 2 eexists. split; [reflexivity|].
    split; [reflexivity|]. split; [done|]. left. eauto. }
  destruct (String.eqb cmd "done") eqn:Hdone.
  { destruct (cmd_done_spec args orig w) as [[e He]|(i & f & Hf & Hid & Hname)]; [left; eauto|].
    right. rewrite Hf. do 2 eexists. split; [reflexivity|].
    split; [reflexivity|]. split; [done|]. left. eauto. }
  destruct (String.eqb cmd "delete") eqn:Hdel.
  { destruct (cmd_delete_spec args orig w) as [[e He]|(l & Hl & Hsub)]; [left; eauto|].
    right. rewrite Hl. do 2 eexists. split; [reflexivity|].
    split; [reflexivity|]. split; [done|]. right. done. }
  left. eexists. reflexivity.
Qed.

End HandlerSpecs.

(** ** The dispatcher *)

Section LineSpecs.

Variable timestamp : string -> Z.

Lemma parse_line_rstrip raw : parse_line (Py.rstrip_newline raw) = parse_line raw.
Proof. unfold parse_line. by rewrite rstrip_newline_idem. Qed.

Lemma parse_line_command_word raw cmd args :
  parse_line raw = Some (cmd, args) ->
  exists after, command_word (Py.rstrip_newline raw) = Some (cmd, after).
Proof.
  unfold parse_line. intros H.
  repeat (case_match; simplify_eq/=); eauto.
Qed.

(** A line that reaches the dispatcher runs its handler under the
    [except TaskMgrError] clause. *)
Lemma process_line_parsed now raw cmd args :
  parse_line raw = Some (cmd, args) ->
  process_line timestamp now raw =
  try_except (dispatch timestamp now cmd args (Py.rstrip_newline raw))
             (fun e => print (error_line e (Py.rstrip_newline raw))).
Proof.
  unfold parse_line, process_line. intros H.
  repeat (case_match; simplify_eq/=); reflexivity.
Qed.

(** A line that does not reach the dispatcher is ignored or raises, and
    the state stays as it was. *)
Lemma process_line_unparsed now raw w :
  parse_line raw = None ->
  process_line timestamp now raw w = (w, Ok tt) \/
  exists e, process_line timestamp now raw w = (w, Raise e).
Proof.
  unfold parse_line, process_line. intros H. mred.
  repeat (case_match; simplify_eq/=); eauto.
Qed.

Lemma try_except_dispatch now cmd args orig w :
  exists w', try_except (dispatch timestamp now cmd args orig)
                        (fun e => print (error_line e orig)) w = (w', Ok tt) /\
    ((exists e, w' = with_output w [error_line e orig]) \/
     (exists out, stdout w' = stdout w ++ success_line orig :: out /\
        if String.eqb cmd "add" then out = [] /\ exists t, added w w' t else kept w w')).
Proof.
  unfold try_except.
  destruct (dispatch_spec timestamp now cmd args orig w)
    as [[e He]|(w' & out & Hrun & Hout & Heff)].
  - rewrite He. unfold print. eexists. split; [reflexivity|]. left. by exists e.
  - rewrite Hrun. exists w'. split; [reflexivity|]. right. eauto.
Qed.

(** The three outcomes of one line: nothing happens, one error line is
    printed and nothing else changes, or the command succeeds. *)
Lemma run_line_spec now raw w :
  exists w', run_line timestamp now raw w = (w', Ok tt) /\
    (w' = w \/
     (exists e, w' = with_output w [error_line e (Py.rstrip_newline raw)]) \/
     (exists cmd after out,
        command_word (Py.rstrip_newline raw) = Some (cmd, after) /\
        stdout w' = stdout w ++ success_line (Py.rstrip_newline raw) :: out /\
        if String.eqb cmd "add" then out = [] /\ exists t, added w w' t else kept w w')).
Proof.
  unfold run_line.
  destruct (parse_line raw) as [[cmd args]|] eqn:Hp.
  - rewrite <- parse_line_rstrip in Hp.
    rewrite (process_line_parsed now _ cmd args Hp), rstrip_newline_idem.
    rewrite parse_line_rstrip in Hp.
    destruct (parse_line_command_word _ _ _ Hp) as [after Hcw].
    destruct (try_except_dispatch now cmd args (Py.rstrip_newline raw) w)
      as (w' & Hrun & Hcases).
    exists w'. unfold try_except at 1. rewrite Hrun. split; [done|].
    destruct Hcases as [He|(out & Hout & Heff)]; [by right; left|].
    right; right. eauto 10.
  - rewrite <- parse_line_rstrip in Hp.
    destruct (process_line_unparsed now _ w Hp) as [H|[e H]];
      unfold try_except; rewrite H.
    + exists w. split; [done|]. by left.
    + eexists. split; [reflexivity|]. right; left. by exists e.
Qed.

Lemma run_line_ok now raw w : snd (run_line timestamp now raw w) = Ok tt.
Proof. destruct (run_line_spec now raw w) as (w' & -> & _). done. Qed.

Lemma exec_cons now raw rest w :
  exec timestamp ((now, raw) :: rest) w
  = exec timestamp rest (fst (run_line timestamp now raw w)).
Proof.
  unfold exec. simpl. unfold bind.
  destruct (run_line_spec now raw w) as (w' & -> & _). done.
Qed.

Lemma exec_app l1 l2 w :
  exec timestamp (l1 ++ l2) w = exec timestamp l2 (exec timestamp l1 w).
Proof.
  revert w. induction l1 as [|[now raw] l1 IH]; intros w; [done|].
  rewrite <- app_comm_cons, !exec_cons. apply IH.
Qed.

(** An error line is never mistaken for the output of a successful
    command or of an ignored line. *)
Lemma run_line_error_inv now raw w e l out :
  stdout (fst (run_line timestamp now raw w)) = stdout w ++ error_line e l :: out ->
  fst (run_line timestamp now raw w) = with_output w [error_line e l] .
Proof.
  destruct (run_line_spec now raw w) as (w' & -> & Hcases). simpl.
  destruct Hcases as [->|[[e' ->]|(cmd & after & out' & _ & Hout & _)]]; intros H.
  - exfalso. apply (f_equal length) in H. rewrite length_app in H. simpl in H. lia.
  - unfold with_output in *. simpl in H. apply app_inv_head in H.
    assert (error_line e' (Py.rstrip_newline raw) = error_line e l) as -> by congruence.
    done.
  - rewrite Hout in H. apply app_inv_head in H.
    assert (success_line (Py.rstrip_newline raw) = error_line e l) as Hx by congruence.
    by apply success_not_error in Hx.
Qed.

End LineSpecs.

(** ** The sort *)

Lemma string_ltb_leb s1 s2 : String.ltb s1 s2 = negb (String.leb s2 s1).
Proof.
  unfold String.ltb, String.leb. rewrite (String.compare_antisym s2 s1).
  by destruct (String.compare s1 s2).
Qed.

Lemma str_keys_total {A} (f : A -> string) : total_on (fun a => KStr (f a)).
Proof.
  intros a b c. unfold comparable. simpl. rewrite !string_ltb_leb.
  pose proof (@String.le_po) as [[Hrefl Htrans] Hanti].
  pose proof (Hrefl (f a)) as Ha. unfold String.le in Ha.
  repeat split.
  - by destruct (String.leb (f a) (f a)).
  - intros H. destruct (String.leb_total (f a) (f b)) as [->| Hba]; [done|].
    rewrite Hba in H. done.
  - rewrite !negb_false_iff. intros H1 H2.
    pose proof (Htrans (f a) (f b) (f c)) as Ht. unfold String.le in Ht.
    rewrite H1, H2 in Ht. specialize (Ht I I). by destruct (String.leb (f a) (f c)).
  - rewrite !negb_false_iff. intros H1 H2. f_equal. by apply String.leb_antisym.
Qed.

Lemma int_keys_total {A} (f : A -> Z) : total_on (fun a => KInt (f a)).
Proof.
  intros a b c. unfold comparable. simpl.
  rewrite ?Z.ltb_lt, ?Z.ltb_ge, ?Z.ltb_irrefl.
  repeat split; intros; try f_equal; lia.
Qed.

Lemma bool_keys_total {A} (f : A -> bool) : total_on (fun a => KBool (f a)).
Proof.
  intros a b c. unfold comparable. simpl.
  destruct (f a), (f b), (f c); simpl; repeat split; done.
Qed.

Section StableSort.

Context {A : Type} (key : A -> Key).
Hypothesis key_total : total_on key.

Let lt (a b : A) : bool := key_lt (key a) (key b).
(** [a] may stand before [b] in ascending order. *)
Let le (a b : A) : Prop := key_lt (key b) (key a) = false.

Lemma insert_sorted_perm x l : insert_sorted lt x l ≡ₚ x :: l.
Proof.
  induction l as [|y l IH]; simpl; [done|].
  destruct (lt y x); [|done]. rewrite IH. apply Permutation_swap.
Qed.

Lemma stable_sort_perm l : stable_sort lt l ≡ₚ l.
Proof.
  induction l as [|x l IH]; simpl; [done|].
  rewrite insert_sorted_perm. by rewrite IH.
Qed.

Lemma insert_sorted_sorted x l :
  StronglySorted le l -> StronglySorted le (insert_sorted lt x l).
Proof.
  induction 1 as [|y l Hl IH Hy]; simpl.
  - repeat constructor.
  - destruct (lt y x) eqn:Hyx.
    + constructor; [done|].
      rewrite insert_sorted_perm. constructor; [|done].
      destruct (key_total y x x) as (_ & Hasym & _). by apply Hasym.
    + constructor; [by constructor|].
      constructor; [done|].
      eapply Forall_impl; [exact Hy|]. intros z Hz.
      destruct (key_total x y z) as (_ & _ & Htrans & _). by apply Htrans.
Qed.

Lemma stable_sort_sorted l : StronglySorted le (stable_sort lt l).
Proof.
  induction l as [|x l IH]; simpl; [constructor|]. by apply insert_sorted_sorted.
Qed.

Lemma insert_sorted_filter k x l :
  filter (fun a => key a = k) (insert_sorted lt x l)
  = filter (fun a => key a = k) (x :: l).
Proof.
  induction l as [|y l IH]; simpl; [done|].
  destruct (lt y x) eqn:Hyx; [|done].
  rewrite !filter_cons in *. rewrite IH.
  destruct (decide (key x = k)) as [Hx|Hx]; [|done].
  destruct (decide (key y = k)) as [Hy|Hy]; [|done].
  exfalso. unfold lt in Hyx. rewrite Hx, Hy in Hyx.
  destruct (key_total x x x) as (Hirr & _). rewrite Hx in Hirr. congruence.
Qed.

(** Stability: the elements with a given key come out in input order. *)
Lemma stable_sort_filter k l :
  filter (fun a => key a = k) (stable_sort lt l) = filter (fun a => key a = k) l.
Proof.
  induction l as [|x l IH]; simpl; [done|].
  rewrite insert_sorted_filter, !filter_cons. by rewrite IH.
Qed.

Lemma rev_reverse (l : list A) : List.rev l = reverse l.
Proof. unfold reverse. by rewrite rev_append_rev, app_nil_r. Qed.

Lemma StronglySorted_rev_flip (R : relation A) l :
  StronglySorted R l -> StronglySorted (flip R) (rev l).
Proof.
  induction 1 as [|x l Hl IH Hx]; simpl; [constructor|].
  apply StronglySorted_app_2; [|done|repeat constructor].
  intros a b Ha Hb. apply list_elem_of_singleton in Hb as ->.
  rewrite Forall_forall in Hx. apply Hx. by rewrite rev_reverse, elem_of_reverse in Ha.
Qed.

Lemma sorted_perm reverse l : sorted key reverse l ≡ₚ l.
Proof.
  unfold sorted. change (fun a b => key_lt (key a) (key b)) with lt. destruct reverse.
  - by rewrite rev_reverse, reverse_Permutation, stable_sort_perm,
               rev_reverse, reverse_Permutation.
  - apply stable_sort_perm.
Qed.

Lemma sorted_asc l : StronglySorted le (sorted key false l).
Proof. apply stable_sort_sorted. Qed.

Lemma sorted_desc l : StronglySorted (flip le) (sorted key true l).
Proof. apply StronglySorted_rev_flip, stable_sort_sorted. Qed.

Lemma filter_rev (P : A -> Prop) `{!forall x, Decision (P x)} l :
  filter P (rev l) = rev (filter P l).
Proof. rewrite !rev_reverse. apply filter_reverse. Qed.

Lemma sorted_stable reverse k l :
  filter (fun a => key a = k) (sorted key reverse l) = filter (fun a => key a = k) l.
Proof.
  unfold sorted. change (fun a b => key_lt (key a) (key b)) with lt. destruct reverse.
  - by rewrite filter_rev, stable_sort_filter, filter_rev, rev_involutive.
  - apply stable_sort_filter.
Qed.

(** With pairwise distinct keys an ascending list is strictly ascending,
    and there is only one such arrangement. *)
Lemma sorted_strict l :
  NoDup (key <$> l) -> StronglySorted le l ->
  StronglySorted (fun a b => lt a b = true) l.
Proof.
  intros Hnd Hs. induction Hs as [|x l Hl IH Hx]; [constructor|].
  simpl in Hnd. apply NoDup_cons in Hnd as [Hx' Hnd].
  constructor; [by apply IH|].
  rewrite Forall_forall in *. intros y Hy. specialize (Hx y Hy).
  unfold lt. destruct (key_lt (key x) (key y)) eqn:Hxy; [done|].
  exfalso. apply Hx'. destruct (key_total x y y) as (_ & _ & _ & Htri).
  rewrite (Htri Hxy Hx). apply list_elem_of_fmap. by exists y.
Qed.

Lemma stable_sort_unique l1 l2 :
  NoDup (key <$> l1) -> l1 ≡ₚ l2 -> stable_sort lt l1 = stable_sort lt l2.
Proof.
  intros Hnd Hp.
  assert (Hanti : AntiSymm (=) (fun a b => lt a b = true)).
  { intros a b Hab Hba. unfold lt in *.
    destruct (key_total a b b) as (_ & Hasym & _). rewrite (Hasym Hab) in Hba. done. }
  apply (StronglySorted_unique (fun a b => lt a b = true)).
  - apply sorted_strict; [|apply stable_sort_sorted].
    by rewrite stable_sort_perm.
  - apply sorted_strict; [|apply stable_sort_sorted].
    by rewrite stable_sort_perm, <- Hp.
  - by rewrite !stable_sort_perm.
Qed.

Lemma sorted_desc_rev_asc l :
  NoDup (key <$> l) -> sorted key true l = rev (sorted key false l).
Proof.
  intros Hnd. unfold sorted. change (fun a b => key_lt (key a) (key b)) with lt.
  f_equal. symmetry.
  apply stable_sort_unique; [done|].
  by rewrite rev_reverse, reverse_Permutation.
Qed.

Lemma StronglySorted_lookup_lt (R : relation A) l i j x y :
  StronglySorted R l -> l !! i = Some x -> l !! j = Some y -> (i < j)%nat -> R x y.
Proof.
  intros Hs. revert i j. induction Hs as [|z l Hl IH Hz]; intros i j Hi Hj Hij.
  - by rewrite lookup_nil in Hi.
  - destruct j as [|j]; [lia|]. destruct i as [|i]; simpl in *.
    + simplify_eq. rewrite Forall_forall in Hz. apply Hz.
      by eapply list_elem_of_lookup_2.
    + apply (IH i j); [done..|lia].
Qed.

End StableSort.

Section SortKeys.

Variable timestamp : string -> Z.

(** The key for [due] is the pair for a real date or the pair that
    sorts last. *)
Lemma due_key_shape t :
  sort_key_func timestamp "due" t = KTuple 1 None \/
  exists d, parse_date_str (t_due t) = inr (Some d) /\
            sort_key_func timestamp "due" t = KTuple 0 (Some (toordinal d)).
Proof.
  unfold sort_key_func. simpl.
  destruct (String.eqb (t_due t) "NONE"); [by left|].
  destruct (parse_date_str (t_due t)) as [e|[d|]]; eauto.
Qed.

Lemma due_key_real t d :
  parse_date_str (t_due t) = inr (Some d) ->
  sort_key_func timestamp "due" t = KTuple 0 (Some (toordinal d)).
Proof.
  intros Hd. unfold sort_key_func. simpl.
  destruct (String.eqb (t_due t) "NONE") eqn:Hn.
  - apply String.eqb_eq in Hn. rewrite Hn in Hd. discriminate.
  - by rewrite Hd.
Qed.

Lemma due_key_none t :
  t_due t = "NONE" -> sort_key_func timestamp "due" t = KTuple 1 None.
Proof. intros Hn. unfold sort_key_func. simpl. by rewrite Hn. Qed.

(** Whatever the field, the keys of one sort are totally ordered by [<],
    so no comparison of the sort is one Python rejects. *)
Lemma sort_key_total sort_by : total_on (sort_key_func timestamp sort_by).
Proof.
  destruct (String.eqb sort_by "due") eqn:Hdue.
  { apply String.eqb_eq in Hdue as ->. intros a b c. unfold comparable.
    destruct (due_key_shape a) as [->|(da & _ & ->)],
             (due_key_shape b) as [->|(db & _ & ->)],
             (due_key_shape c) as [->|(dc & _ & ->)];
      try generalize (toordinal da); try generalize (toordinal db);
      try generalize (toordinal dc); intros; simpl;
      rewrite ?Z.ltb_lt, ?Z.ltb_ge, ?Z.ltb_irrefl;
      repeat split; intros; try done; try lia;
      match goal with |- KTuple _ (Some ?x) = KTuple _ (Some ?y) =>
        assert (x = y) as -> by lia; done end. }
  unfold sort_key_func. rewrite Hdue.
  repeat (case_match; [first [apply str_keys_total | apply int_keys_total
                             | apply bool_keys_total]|]).
  apply str_keys_total.
Qed.

End SortKeys.

(** ** Looking a task up *)

Lemma find_task_spec idv l i t :
  find_task idv l = Some (i, t) ->
  l !! i = Some t /\ t_id t = idv /\
  Forall (fun t' => t_id t' <> idv) (take i l).
Proof.
  revert i. induction l as [|t' l IH]; intros i; simpl; [done|].
  destruct (t_id t' =? idv) eqn:Heq.
  - intros [= <- <-]. simpl. split; [done|]. split; [lia|constructor].
  - destruct (find_task idv l) as [[i' t'']|]; simpl; [|done].
    intros [= <- <-]. destruct (IH i' eq_refl) as (Hl & Hid & Hbefore).
    simpl. split; [done|]. split; [done|]. constructor; [lia|done].
Qed.

Lemma find_task_elem idv l t :
  t ∈ l -> t_id t = idv -> exists i t', find_task idv l = Some (i, t').
Proof.
  intros Ht Hid. induction l as [|t' l IH]; simpl.
  - by apply elem_of_nil in Ht.
  - destruct (t_id t' =? idv) eqn:Heq; [eauto|].
    apply elem_of_cons in Ht as [->|Ht]; [lia|].
    destruct (IH Ht) as (i & t'' & ->). simpl. eauto.
Qed.

Lemma find_task_none idv l :
  find_task idv l = None -> Forall (fun t => t_id t <> idv) l.
Proof.
  induction l as [|t l IH]; simpl; [constructor|].
  destruct (t_id t =? idv) eqn:Heq; [done|].
  destruct (find_task idv l) as [[i t']|]; simpl; [done|].
  intros _. constructor; [lia|by apply IH].
Qed.

(** ** Runs from the empty store *)

Section Runs.

Variable timestamp : string -> Z.

(** The line is a successful [add] exactly when it appends a task. *)
Lemma step_classify now raw w :
  let w' := fst (run_line timestamp now raw w) in
  if is_successful_add timestamp now raw w then exists t, added w w' t else kept w w'.
Proof.
  unfold is_successful_add. simpl.
  destruct (run_line_spec timestamp now raw w) as (w' & Hrun & Hcases).
  rewrite Hrun. simpl.
  assert (Hsame : forall v, kept v v).
  { intros v. split; [done|]. by right. }
  assert (Herr : forall e, kept w (with_output w [error_line e (Py.rstrip_newline raw)])).
  { intros e. split; [done|]. by right. }
  destruct Hcases as [->|[[e ->]|(cmd & after & out & Hcw & Hout & Heff)]].
  - destruct (command_word _) as [[cmd after]|]; [|done].
    rewrite bool_decide_eq_false_2, andb_false_r; [done|].
    intros H. apply (f_equal length) in H. rewrite length_app in H. simpl in H. lia.
  - destruct (command_word _) as [[cmd after]|]; [|done].
    rewrite bool_decide_eq_false_2, andb_false_r; [done|].
    simpl. intros H. apply app_inv_head in H.
    assert (success_line (Py.rstrip_newline raw) = error_line e (Py.rstrip_newline raw)) as Hx
      by congruence.
    by apply success_not_error in Hx.
  - rewrite Hcw. destruct (String.eqb cmd "add"); simpl; [|done].
    destruct Heff as [-> Hadd]. rewrite Hout, bool_decide_eq_true_2; done.
Qed.

Lemma fmap_id_alter (f : Task -> Task) i (l : list Task) :
  id_preserving f -> t_id <$> alter f i l = t_id <$> l.
Proof.
  intros Hf. revert i. induction l as [|t l IH]; intros [|i]; simpl; [done..| |].
  - f_equal. apply Hf.
  - f_equal. apply IH.
Qed.

Lemma kept_ids w w' :
  kept w w' -> (t_id <$> _tasks w') `sublist_of` (t_id <$> _tasks w).
Proof.
  intros [_ [(i & f & -> & Hf & _)|Hsub]].
  - by rewrite fmap_id_alter.
  - by apply fmap_sublist.
Qed.

Lemma StronglySorted_sublist {A} (R : relation A) (l1 l2 : list A) :
  l1 `sublist_of` l2 -> StronglySorted R l2 -> StronglySorted R l1.
Proof.
  induction 1 as [|x l1 l2 Hsub IH|x l1 l2 Hsub IH]; intros Hs; [done| |].
  - apply StronglySorted_inv in Hs as [Hs Hx]. constructor; [by apply IH|].
    rewrite Forall_forall in *. intros y Hy. apply Hx. by eapply elem_of_sublist.
  - apply StronglySorted_inv in Hs as [Hs _]. by apply IH.
Qed.

Lemma added_ids_in_order w w' t n :
  added w w' t -> ids_in_order w n -> ids_in_order w' (S n).
Proof.
  intros (Ht & Hn & Hid & _) (Hc & Hs & Hb). unfold ids_in_order.
  rewrite Ht, Hn, fmap_app, Hc. simpl. split; [lia|]. split.
  - apply StronglySorted_app_2; [|done|repeat constructor].
    intros x y Hx Hy. apply list_elem_of_singleton in Hy as ->.
    rewrite Forall_forall in Hb. specialize (Hb x Hx). lia.
  - apply Forall_app. split.
    + eapply Forall_impl; [exact Hb|]. simpl. lia.
    + repeat constructor; lia.
Qed.

Lemma kept_ids_in_order w w' n :
  kept w w' -> ids_in_order w n -> ids_in_order w' n.
Proof.
  intros Hk (Hc & Hs & Hb). pose proof (kept_ids _ _ Hk) as Hsub.
  destruct Hk as [Hn _]. unfold ids_in_order. rewrite Hn. split; [done|]. split.
  - by eapply StronglySorted_sublist.
  - rewrite Forall_forall in *. intros x Hx. apply Hb. by eapply elem_of_sublist.
Qed.

Lemma exec_ids_in_order inputs w n :
  ids_in_order w n ->
  ids_in_order (exec timestamp inputs w) (n + successful_adds timestamp inputs w).
Proof.
  revert w n. induction inputs as [|[now raw] rest IH]; intros w n Hw; simpl.
  - by rewrite Nat.add_0_r.
  - rewrite exec_cons. pose proof (step_classify now raw w) as Hstep. simpl in Hstep.
    destruct (is_successful_add timestamp now raw w).
    + destruct Hstep as [t Ht].
      replace (n + (1 + successful_adds timestamp rest (fst (run_line timestamp now raw w))))%nat
        with (S n + successful_adds timestamp rest (fst (run_line timestamp now raw w)))%nat by lia.
      apply IH. by eapply added_ids_in_order.
    + apply IH. by eapply kept_ids_in_order.
Qed.

Lemma initial_ids_in_order : ids_in_order initial 0.
Proof. repeat split; simpl; constructor. Qed.

Lemma exec_names_ok inputs w : names_ok w -> names_ok (exec timestamp inputs w).
Proof.
  revert w. induction inputs as [|[now raw] rest IH]; intros w Hw; [done|].
  rewrite exec_cons. apply IH.
  pose proof (step_classify now raw w) as Hstep. simpl in Hstep.
  unfold names_ok in *.
  destruct (is_successful_add timestamp now raw w).
  - destruct Hstep as (t & -> & _ & _ & Hname). apply Forall_app. split; [done|].
    by repeat constructor.
  - destruct Hstep as [_ [(i & f & -> & _ & Hf)|Hsub]].
    + apply Forall_alter; [done|]. intros x _. apply Hf.
    + rewrite Forall_forall in *. intros x Hx. apply Hw. by eapply elem_of_sublist.
Qed.

End Runs.

(** ** Which adds go through, and what the other lines keep *)

Lemma parse_date_none s : parse_date_str s = inr None -> s = "NONE".
Proof.
  unfold parse_date_str. destruct (String.eqb s "NONE") eqn:Hs.
  - intros _. by apply String.eqb_eq.
  - destruct (date_fullmatch s) as [[[d m] y]|]; [|done].
    by destruct (make_date y m d).
Qed.

Lemma parse_date_ok s (x : option date) :
  parse_date_str s = inr x -> s = "NONE" \/ real_date s.
Proof.
  destruct x as [d|]; intros H.
  - right. by exists d.
  - left. by apply parse_date_none.
Qed.

Lemma alter_insert_found (f : Task -> Task) i t (l : list Task) :
  l !! i = Some t -> alter f i l = <[i := f t]> l.
Proof.
  revert i. induction l as [|x l IH]; intros [|i] H; simplify_eq/=; [done|].
  f_equal. by apply IH.
Qed.

Lemma first_with_id_found idv (l : list Task) i t :
  l !! i = Some t -> t_id t = idv ->
  (forall j t', (j < i)%nat -> l !! j = Some t' -> t_id t' <> idv) ->
  find_task idv l = Some (i, t).
Proof.
  revert i. induction l as [|a l IH]; intros i Hl Ht Hfirst; [done|].
  destruct i as [|i]; simpl in *.
  - injection Hl as ->. apply Z.eqb_eq in Ht. by rewrite Ht.
  - assert (Ha : t_id a <> idv) by (apply (Hfirst 0%nat a); [lia|done]).
    apply Z.eqb_neq in Ha. rewrite Ha.
    rewrite (IH i Hl Ht); [done|].
    intros j t' Hj Hj'. apply (Hfirst (S j) t'); [lia|done].
Qed.

Lemma cmd_add_cases now args orig w :
  (exists name,
     add_accepts args name /\
     cmd_add now args orig w
     = (mk_world (_tasks w ++ [new_task now args name (_next_id w)])
                 (_next_id w + 1) (stdout w ++ [success_line orig]), Ok tt)) \/
  ((forall name, ~ add_accepts args name) /\
   exists e, cmd_add now args orig w = (w, Raise e)).
Proof.
  unfold cmd_add, add_accepts, new_task, get, DEFAULT_REP, DEFAULT_PRIORITY, DEFAULT_DUE.
  mred.
  destruct (bool_decide (dom args ⊆ _)) eqn:Hdom; cbn [negb].
  2:{ right. apply bool_decide_eq_false_1 in Hdom.
      split; [|by eexists]. by intros name (? & _). }
  apply bool_decide_eq_true_1 in Hdom.
  destruct (args !! "name") as [name|] eqn:Hname.
  2:{ right. split; [|by eexists]. by intros name (_ & ? & _). }
  destruct (Py.isdigit name) eqn:Hdig.
  { right. split; [|by eexists]. intros name' (_ & [= <-] & ? & _). congruence. }
  destruct (bool_decide (default "NONE" (args !! "rep") ∈ VALID_REPS)) eqn:Hrep; cbn [negb].
  2:{ right. apply bool_decide_eq_false_1 in Hrep.
      split; [|by eexists]. by intros name' (_ & _ & _ & ? & _). }
  apply bool_decide_eq_true_1 in Hrep.
  destruct (bool_decide (default "MEDIUM" (args !! "prio") ∈ VALID_PRIOS)) eqn:Hprio;
    cbn [negb].
  2:{ right. apply bool_decide_eq_false_1 in Hprio.
      split; [|by eexists]. by intros name' (_ & _ & _ & _ & ? & _). }
  apply bool_decide_eq_true_1 in Hprio.
  destruct (String.eqb (default "NONE" (args !! "due")) "NONE") eqn:Hnone.
  { left. exists name. apply String.eqb_eq in Hnone. split; [|done].
    repeat split; try done. by left. }
  destruct (parse_date_str (default "NONE" (args !! "due"))) as [e|d] eqn:Hdue.
  { right. split; [|by eexists]. apply String.eqb_neq in Hnone.
    intros name' (_ & _ & _ & _ & _ & [?|[d Hd]]); congruence. }
  left. exists name. split; [|done]. repeat split; try done.
  right. destruct (parse_date_ok _ _ Hdue) as [Hn|Hreal]; [|done].
  apply String.eqb_neq in Hnone. done.
Qed.

Section AddLines.

Variable timestamp : string -> Z.

Lemma run_line_parsed now raw cmd args w :
  parse_line raw = Some (cmd, args) ->
  run_line timestamp now raw w =
  try_except (dispatch timestamp now cmd args (Py.rstrip_newline raw))
             (fun e => print (error_line e (Py.rstrip_newline raw))) w.
Proof.
  intros Hp. unfold run_line.
  rewrite <- parse_line_rstrip in Hp.
  rewrite (process_line_parsed timestamp now _ cmd args Hp), rstrip_newline_idem.
  destruct (try_except_dispatch timestamp now cmd args (Py.rstrip_newline raw) w)
    as (w' & Hrun & _).
  unfold try_except at 1. by rewrite Hrun.
Qed.

Lemma successful_add_iff now raw w :
  is_successful_add timestamp now raw w = true <->
  exists args name, parse_line raw = Some ("add", args) /\ add_accepts args name.
Proof.
  unfold is_successful_add. split.
  - destruct (command_word _) as [[cmd after]|] eqn:Hcw; [|done].
    intros [Hadd Hout]%andb_prop.
    apply String.eqb_eq in Hadd as ->. apply bool_decide_eq_true_1 in Hout.
    destruct (parse_line raw) as [[cmd args]|] eqn:Hp.
    + destruct (parse_line_command_word _ _ _ Hp) as [after' Hcw'].
      assert (cmd = "add") as -> by congruence.
      rewrite (run_line_parsed now raw "add" args w Hp) in Hout.
      unfold try_except, dispatch in Hout. cbn [String.eqb Ascii.eqb Bool.eqb] in Hout.
      destruct (cmd_add_cases now args (Py.rstrip_newline raw) w)
        as [(name & Hacc & _)|(_ & e & He)]; [by eauto|].
      rewrite He in Hout. simpl in Hout. apply app_inv_head in Hout.
      assert (error_line e (Py.rstrip_newline raw) = success_line (Py.rstrip_newline raw))
        as Hx by congruence.
      symmetry in Hx. by apply success_not_error in Hx.
    + unfold run_line in Hout. rewrite <- parse_line_rstrip in Hp.
      destruct (process_line_unparsed timestamp now _ w Hp) as [H|[e H]];
        unfold try_except in Hout; rewrite H in Hout; simpl in Hout.
      * apply (f_equal length) in Hout. rewrite length_app in Hout. simpl in Hout. lia.
      * apply app_inv_head in Hout.
        assert (error_line e (Py.rstrip_newline raw) = success_line (Py.rstrip_newline raw))
          as Hx by congruence.
        symmetry in Hx. by apply success_not_error in Hx.
  - intros (args & name & Hp & Hacc).
    destruct (parse_line_command_word _ _ _ Hp) as [after Hcw]. rewrite Hcw.
    cbn [String.eqb Ascii.eqb Bool.eqb andb].
    apply bool_decide_eq_true_2.
    rewrite (run_line_parsed now raw "add" args w Hp).
    unfold try_except, dispatch. cbn [String.eqb Ascii.eqb Bool.eqb].
    destruct (cmd_add_cases now args (Py.rstrip_newline raw) w)
      as [(name' & _ & ->)|(Hno & _)]; [done|].
    by destruct (Hno name).
Qed.

Lemma alter_beyond (f : Task -> Task) i (l : list Task) :
  l !! i = None -> alter f i l = l.
Proof.
  revert i. induction l as [|a l IH]; intros [|i] H; try done.
  simpl in *. f_equal. by apply IH.
Qed.

Lemma kept_in_place w w' :
  kept w w' ->
  _next_id w' = _next_id w /\
  ((exists i t t',
      _tasks w !! i = Some t /\ _tasks w' = <[i := t']> (_tasks w) /\
      t_id t' = t_id t) \/
   _tasks w' `sublist_of` _tasks w).
Proof.
  intros [Hn [(i & f & Hl & Hid & _)|Hsub]]; (split; [done|]); [|by right].
  destruct (_tasks w !! i) as [t|] eqn:Hi.
  - left. exists i, t, (f t). split; [done|]. split; [|apply Hid].
    by rewrite Hl, (alter_insert_found f i t).
  - right. by rewrite Hl, alter_beyond.
Qed.

End AddLines.

(** * The stated properties *)

(** ** Sample sessions *)

Example two_adds_store :
  _tasks (exec epoch_zero two_adds initial) = [task_a; task_b].
Proof. vm_compute. reflexivity. Qed.

(** ** Sorting by due date *)

(** C1, as stated, fails for [direction=desc]: after the two sample
    [add]s, the descending order by due date prints the task without a
    due date first, before the task with a real date. *)
Lemma due_desc_puts_none_first :
  sorted_tasks epoch_zero (_tasks (exec epoch_zero two_adds initial)) "due" "desc"
    = [task_b; task_a]
  /\ t_due task_b = "NONE" /\ real_date (t_due task_a).
Proof.
  split; [vm_compute; reflexivity|]. split; [reflexivity|].
  eexists. vm_compute. reflexivity.
Qed.

(** C1, amended: sorting by due places every task whose due field is
    [NONE] after every task with a real calendar date when the direction
    is ascending, and before every such task when the direction is
    [desc]: the NONE-last rule is part of the key, and [desc] reverses
    the order of the keys. *)
Theorem due_none_last_unless_desc
    (timestamp : string -> Z) (tasks : list Task) (direction : string)
    (i j : nat) (a b : Task) :
  sorted_tasks timestamp tasks "due" direction !! i = Some a ->
  sorted_tasks timestamp tasks "due" direction !! j = Some b ->
  real_date (t_due a) ->
  t_due b = "NONE" ->
  if String.eqb direction "desc" then (j < i)%nat else (i < j)%nat.
Proof.
  intros Hi Hj [d Hd] Hb.
  pose proof (due_key_real timestamp a d Hd) as Ka.
  pose proof (due_key_none timestamp b Hb) as Kb.
  assert (Hne : i <> j).
  { intros ->. rewrite Hi in Hj. injection Hj as ->. rewrite Ka in Kb. discriminate. }
  unfold sorted_tasks in *. destruct (String.eqb direction "desc").
  - destruct (decide (j < i)%nat) as [|Hge]; [done|]. exfalso.
    assert (Hlt : (i < j)%nat) by lia.
    pose proof (StronglySorted_lookup_lt _ _ i j a b
                  (sorted_desc _ (sort_key_total timestamp "due") tasks) Hi Hj Hlt) as H.
    unfold flip in H. cbv beta in H. rewrite Ka, Kb in H. discriminate.
  - destruct (decide (i < j)%nat) as [|Hge]; [done|]. exfalso.
    assert (Hlt : (j < i)%nat) by lia.
    pose proof (StronglySorted_lookup_lt _ _ j i b a
                  (sorted_asc _ (sort_key_total timestamp "due") tasks) Hj Hi Hlt) as H.
    cbv beta in H. rewrite Ka, Kb in H. discriminate.
Qed.

Lemma due_none_last_unless_desc_witness :
  (if String.eqb "desc" "desc" then (0 < 1)%nat else (1 < 0)%nat) /\
  (if String.eqb "asc" "desc" then (1 < 0)%nat else (0 < 1)%nat).
Proof.
  split.
  - apply (due_none_last_unless_desc epoch_zero [task_a; task_b] "desc" 1 0 task_a task_b);
      [reflexivity | reflexivity | eexists; vm_compute; reflexivity | reflexivity].
  - apply (due_none_last_unless_desc epoch_zero [task_b; task_a] "asc" 0 1 task_a task_b);
      [reflexivity | reflexivity | eexists; vm_compute; reflexivity | reflexivity].
Defined.

(** ** Direction and stability *)

(** C6, as stated, fails on ties: the two sample tasks have the same
    priority, both directions print them in store order, so the
    descending order is not the reverse of the ascending one. *)
Lemma desc_is_not_reverse_on_ties :
  sorted_tasks epoch_zero (_tasks (exec epoch_zero two_adds initial)) "prio" "desc"
  <> List.rev (sorted_tasks epoch_zero (_tasks (exec epoch_zero two_adds initial)) "prio" "asc").
Proof. vm_compute. discriminate. Qed.

(** C6, amended: for every task list and every sort field, both
    directions print a permutation of the list, ascending by key for
    [asc] and descending by key for [desc]; sorting is stable for ties in
    both directions (tasks with equal keys keep their store order); and
    the [desc] order is exactly the reverse of the [asc] order when no two
    tasks have the same key. *)
Theorem desc_reverses_keys_and_sort_is_stable
    (timestamp : string -> Z) (sort_by : string) (tasks : list Task) :
  let key := sort_key_func timestamp sort_by in
  let asc := sorted_tasks timestamp tasks sort_by "asc" in
  let desc := sorted_tasks timestamp tasks sort_by "desc" in
  asc ≡ₚ tasks /\ desc ≡ₚ tasks /\
  StronglySorted (fun a b => key_lt (key b) (key a) = false) asc /\
  StronglySorted (fun a b => key_lt (key a) (key b) = false) desc /\
  (forall k, filter (fun t => key t = k) asc = filter (fun t => key t = k) tasks) /\
  (forall k, filter (fun t => key t = k) desc = filter (fun t => key t = k) tasks) /\
  (NoDup (key <$> tasks) -> desc = List.rev asc).
Proof.
  intros key asc desc. subst asc desc. unfold sorted_tasks. simpl.
  pose proof (sort_key_total timestamp sort_by) as Htot. fold key in Htot.
  repeat split.
  - apply (sorted_perm key false).
  - apply (sorted_perm key true).
  - apply (sorted_asc key Htot).
  - apply (sorted_desc key Htot).
  - intros k. apply (sorted_stable key Htot false).
  - intros k. apply (sorted_stable key Htot true).
  - apply (sorted_desc_rev_asc key Htot).
Qed.

(** ** Failure leaves the store alone *)

(** C3: for every line and every state, if processing the line prints
    an error line, of whatever kind, then the task store and the id
    counter are what they were before the line. *)
Theorem error_leaves_store_unchanged
    (timestamp : string -> Z) (now raw : string) (w : World)
    (e : Error) (l : string) (out : list string) :
  stdout (fst (run_line timestamp now raw w)) = stdout w ++ error_line e l :: out ->
  _tasks (fst (run_line timestamp now raw w)) = _tasks w /\
  _next_id (fst (run_line timestamp now raw w)) = _next_id w.
Proof.
  intros H. by rewrite (run_line_error_inv timestamp now raw w e l out H).
Qed.

Lemma error_leaves_store_unchanged_witness :
  let w := exec epoch_zero two_adds initial in
  let w' := fst (run_line epoch_zero "3-11-2025 09:00:02"
                          "mod id=0 property=due new_val=31-02-2025" w) in
  _tasks w' = _tasks w /\ _next_id w' = _next_id w.
Proof.
  apply (error_leaves_store_unchanged epoch_zero _ _ _ InvalidDateFormat
           "mod id=0 property=due new_val=31-02-2025" []).
  vm_compute. reflexivity.
Defined.

(** ** Identifiers *)

(** C4: in a run from the empty store, the counter equals the number
    [n] of successful adds so far; the ids in the store increase in
    creation order and are all below [n].  A line is a successful add
    exactly when it parses to [add] with arguments that pass the checks;
    it then appends a task with id [n] to the unchanged store, so the
    n-th successful add creates the task with id [n] and no id is given
    twice whatever was deleted.  Any other line creates no task and
    leaves the counter: it replaces at most one task, in place, by a
    task with the same id, or it only removes tasks, so every remaining
    task is the task it was, with the id it had. *)
Theorem ids_count_successful_adds
    (timestamp : string -> Z) (inputs : list (string * string)) (now raw : string) :
  let w := exec timestamp inputs initial in
  let n := successful_adds timestamp inputs initial in
  let w' := fst (run_line timestamp now raw w) in
  _next_id w = Z.of_nat n /\
  StronglySorted Z.lt (t_id <$> _tasks w) /\
  Forall (fun i => 0 <= i < Z.of_nat n) (t_id <$> _tasks w) /\
  (is_successful_add timestamp now raw w = true <->
   exists args name, parse_line raw = Some ("add", args) /\ add_accepts args name) /\
  if is_successful_add timestamp now raw w
  then exists t, _tasks w' = _tasks w ++ [t] /\ t_id t = Z.of_nat n /\
                 _next_id w' = Z.of_nat (S n)
  else _next_id w' = _next_id w /\
       ((exists i t t',
           _tasks w !! i = Some t /\ _tasks w' = <[i := t']> (_tasks w) /\
           t_id t' = t_id t) \/
        _tasks w' `sublist_of` _tasks w).
Proof.
  intros w n w'.
  destruct (exec_ids_in_order timestamp inputs initial 0 initial_ids_in_order)
    as (Hc & Hs & Hb).
  fold w in Hc, Hs, Hb. simpl in Hc, Hb. fold n in Hc, Hb.
  repeat (split; [done|]).
  split; [apply successful_add_iff|].
  pose proof (step_classify timestamp now raw w) as Hstep. simpl in Hstep. fold w' in Hstep.
  destruct (is_successful_add timestamp now raw w).
  - destruct Hstep as (t & Ht & Hn & Hid & _). exists t.
    split; [done|]. split; [congruence|]. rewrite Hn, Hc. lia.
  - by apply kept_in_place.
Qed.

(** An id freed by a delete is not given again. *)
Example ids_after_delete :
  t_id <$> _tasks (exec epoch_zero
                     (two_adds ++ [ ("3-11-2025 09:00:02", "delete id=1");
                                    ("3-11-2025 09:00:03", "add name=c") ]) initial)
  = [0; 2].
Proof. vm_compute. reflexivity. Qed.

(** ** Names *)

(** C2, as stated, fails: [add] with an empty quoted name succeeds and
    stores a task whose name is the empty string. *)
Lemma empty_name_is_accepted :
  let line := "add name=" +:+ String Py.dquote (String Py.dquote EmptyString) in
  exists t, _tasks (exec epoch_zero [("3-11-2025 09:00:00", line)] initial) = [t]
            /\ t_name t = EmptyString.
Proof. eexists. split; vm_compute; reflexivity. Qed.

(** C2, amended: in every store state reachable from the empty store no
    task has a name made of digits only (the empty name is accepted); an
    [add] whose name is purely numeric raises and changes nothing, with
    [InvalidArgumentType] when its keys are all allowed; a [mod] of
    property name to a purely numeric value raises and changes nothing,
    with [InvalidArgumentType] when its keys are the three allowed ones
    and its id is not an integer or is the id of a stored task. *)
Theorem names_are_never_numeric
    (timestamp : string -> Z) (inputs : list (string * string)) :
  Forall (fun t => Py.isdigit (t_name t) = false)
         (_tasks (exec timestamp inputs initial)) /\
  (forall now args orig w v,
     args !! "name" = Some v -> Py.isdigit v = true ->
     exists e, cmd_add now args orig w = (w, Raise e) /\
       (dom args ⊆ {[ "name"; "type"; "desc"; "due"; "rep"; "prio" ]} ->
        e = InvalidArgumentType)) /\
  (forall args orig w id_str v,
     args !! "id" = Some id_str -> args !! "property" = Some "name" ->
     args !! "new_val" = Some v -> Py.isdigit v = true ->
     exists e, cmd_mod args orig w = (w, Raise e) /\
       (dom args ⊆ {[ "id"; "property"; "new_val" ]} ->
        (forall idv, Py.int id_str = Some idv -> exists t, t ∈ _tasks w /\ t_id t = idv) ->
        e = InvalidArgumentType)).
Proof.
  split; [|split].
  - apply (exec_names_ok timestamp inputs initial). constructor.
  - intros now args orig w v Hname Hv. unfold cmd_add. mred. rewrite Hname, Hv.
    destruct (bool_decide (dom args ⊆ _)) eqn:Hk; simpl;
      eexists; (split; [reflexivity|]); intros Hdom; [done|].
    by rewrite bool_decide_eq_true_2 in Hk.
  - intros args orig w id_str v Hid Hprop Hval Hv. unfold cmd_mod. mred.
    rewrite Hid, Hprop, Hval.
    destruct (bool_decide (dom args ⊆ _)) eqn:Hk; simpl.
    2:{ eexists; (split; [reflexivity|]); intros Hdom.
        by rewrite bool_decide_eq_true_2 in Hk. }
    destruct (Py.int id_str) as [idv|] eqn:Hint; [|by eexists].
    destruct (find_task idv (_tasks w)) as [[i t]|] eqn:Hfind; simpl.
    + rewrite Hv. simpl. by eexists.
    + eexists; (split; [reflexivity|]); intros _ Hex.
      destruct (Hex idv eq_refl) as (t & Ht & Hidt).
      destruct (find_task_elem idv (_tasks w) t Ht Hidt) as (i & t' & Hf). congruence.
Qed.

(** ** Line length *)

Lemma tokenize_error segment e :
  tokenize_args_segment segment = inl e -> e = InvalidArgument.
Proof.
  unfold tokenize_args_segment.
  destruct (tokenize_loop segment (matches_of segment)) as [args after].
  destruct (Py.strip after); congruence.
Qed.

(** C5, as stated, fails on blank lines: a line of 1025 spaces is longer
    than 1024 characters and is ignored without any error, because the
    blank-line test comes before the length test. *)
Lemma long_blank_line_is_ignored :
  let line := replicate_char 1025 " "%char in
  String.length (Py.rstrip_newline line) = 1025%nat /\
  process_line epoch_zero "3-11-2025 09:00:00" line initial = (initial, Ok tt) /\
  run_line epoch_zero "3-11-2025 09:00:00" line initial = (initial, Ok tt).
Proof. vm_compute. repeat split; reflexivity. Qed.

(** C5, amended: for every input line with a character that is not
    white space, if the line (after stripping trailing newlines) is longer
    than 1024 characters then processing fails with TooLongLine whatever
    the rest of the line is, so before any tokenization, and the state is
    unchanged; a blank line of any length is silently ignored; a line of
    at most 1024 characters, so one of exactly 1024, never fails with
    TooLongLine, and when it is not a comment and has a command word it
    goes on to the tokenizer and the dispatcher. *)
Theorem too_long_line_unless_blank
    (timestamp : string -> Z) (now raw : string) (w : World) :
  let line := Py.rstrip_newline raw in
  (Py.strip line = EmptyString -> process_line timestamp now raw w = (w, Ok tt)) /\
  (Py.strip line <> EmptyString -> (1024 < String.length line)%nat ->
     process_line timestamp now raw w = (w, Raise TooLongLine) /\
     run_line timestamp now raw w = (with_output w [error_line TooLongLine line], Ok tt)) /\
  ((String.length line <= 1024)%nat ->
     snd (process_line timestamp now raw w) <> Raise TooLongLine) /\
  (forall cmd after,
     Py.strip line <> EmptyString -> (String.length line <= 1024)%nat ->
     Py.startswith_hash (Py.strip line) = false ->
     command_word line = Some (cmd, after) ->
     process_line timestamp now raw w =
     bind (match Py.strip after with
           | EmptyString => ret ∅
           | String _ _ => lift (tokenize_args_segment (Py.strip after))
           end)
          (fun args => try_except (dispatch timestamp now cmd args line)
                                  (fun e => print (error_line e line))) w).
Proof.
  intros line. split; [|split; [|split]].
  - intros Hblank. unfold process_line. fold line. by rewrite Hblank.
  - intros Hnb Hlong.
    assert (Hp : process_line timestamp now raw w = (w, Raise TooLongLine)).
    { unfold process_line. fold line. destruct (Py.strip line); [done|].
      apply Nat.ltb_lt in Hlong. by rewrite Hlong. }
    split; [done|].
    unfold run_line, try_except. fold line.
    assert (Hp' : process_line timestamp now line w = (w, Raise TooLongLine)).
    { unfold process_line. subst line. rewrite rstrip_newline_idem.
      destruct (Py.strip (Py.rstrip_newline raw)); [done|].
      apply Nat.ltb_lt in Hlong. by rewrite Hlong. }
    by rewrite Hp'.
  - intros Hshort. apply Nat.ltb_ge in Hshort.
    destruct (parse_line raw) as [[cmd args]|] eqn:Hparse.
    + rewrite (process_line_parsed timestamp now raw cmd args Hparse).
      destruct (try_except_dispatch timestamp now cmd args (Py.rstrip_newline raw) w)
        as (w' & -> & _). done.
    + unfold process_line. fold line. unfold parse_line in Hparse. fold line in Hparse.
      rewrite Hshort in *.
      destruct (Py.strip line); [done|].
      destruct (Py.startswith_hash _); [done|].
      destruct (command_word line) as [[cmd after]|]; [|done].
      unfold bind. destruct (Py.strip after) as [|c rest]; [done|].
      destruct (tokenize_args_segment (String c rest)) as [e|args] eqn:Htok; [|done].
      apply tokenize_error in Htok as ->. done.
  - intros cmd after Hnb Hshort Hhash Hcw. apply Nat.ltb_ge in Hshort.
    unfold process_line. fold line. rewrite Hshort, Hhash, Hcw.
    destruct (Py.strip line); [done|]. reflexivity.
Qed.

(** A line of exactly 1024 characters reaches the dispatcher, and one
    more character makes it too long. *)
Example line_length_boundaries :
  let line n := "add name=" +:+ replicate_char n "x"%char in
  String.length (line 1015%nat) = 1024%nat /\
  stdout (exec epoch_zero [("3-11-2025 09:00:00", line 1015%nat)] initial)
    = [success_line (line 1015%nat)] /\
  stdout (exec epoch_zero [("3-11-2025 09:00:00", line 1016%nat)] initial)
    = [error_line TooLongLine (line 1016%nat)].
Proof. vm_compute. repeat split; reflexivity. Qed.

(** ** Modifying a task *)

Section Mod.

Variable timestamp : string -> Z.

(** A parsed [mod] line runs [cmd_mod] under the [except] clause. *)
Lemma process_line_mod now raw args w :
  parse_line raw = Some ("mod", args) ->
  process_line timestamp now raw w =
  try_except (cmd_mod args (Py.rstrip_newline raw))
             (fun e => print (error_line e (Py.rstrip_newline raw))) w.
Proof. intros Hp. by rewrite (process_line_parsed timestamp now raw _ _ Hp). Qed.

End Mod.

Lemma mod_args_lookup (id_str prop new_val : string) :
  let args : gmap string string :=
    {[ "id" := id_str; "property" := prop; "new_val" := new_val ]} in
  bool_decide (dom args ⊆ ({[ "id"; "property"; "new_val" ]} : gset string)) = true /\
  args !! "id" = Some id_str /\ args !! "property" = Some prop /\
  args !! "new_val" = Some new_val.
Proof.
  intros args. subst args. split; [|by simplify_map_eq].
  apply bool_decide_eq_true_2. rewrite !dom_insert_L, dom_singleton_L. set_solver.
Qed.

(** C7: for every store and every id of a stored task, the commands
    [mod id=<id> property=id new_val=<v>] and
    [mod id=<id> property=ctime new_val=<v>] fail with InvalidArgument
    and the state is the one before the command, so the targeted task
    keeps its id, its creation time and all its other fields; a line that
    parses to such a command prints the InvalidArgument error line and
    nothing else changes. *)
Theorem mod_id_and_ctime_rejected
    (timestamp : string -> Z) (now raw orig id_str new_val prop : string)
    (idv : Z) (t : Task) (w : World) :
  let args : gmap string string :=
    {[ "id" := id_str; "property" := prop; "new_val" := new_val ]} in
  prop = "id" \/ prop = "ctime" ->
  Py.int id_str = Some idv ->
  t ∈ _tasks w -> t_id t = idv ->
  cmd_mod args orig w = (w, Raise InvalidArgument) /\
  (parse_line raw = Some ("mod", args) ->
   process_line timestamp now raw w
   = (with_output w [error_line InvalidArgument (Py.rstrip_newline raw)], Ok tt)).
Proof.
  intros args Hprop Hint Ht Hid.
  assert (Hmod : forall o, cmd_mod args o w = (w, Raise InvalidArgument)).
  { intros o. destruct (mod_args_lookup id_str prop new_val) as (Hdom & H1 & H2 & H3).
    fold args in Hdom, H1, H2, H3.
    destruct (find_task_elem idv (_tasks w) t Ht Hid) as (i & t' & Hfind).
    unfold cmd_mod. mred. rewrite Hdom, H1, H2, H3, Hint. simpl.
    destruct Hprop as [-> | ->]; simpl; by rewrite Hfind. }
  split; [apply Hmod|].
  intros Hparse. rewrite (process_line_mod timestamp now raw args w Hparse).
  unfold try_except. by rewrite Hmod.
Qed.

Example mod_id_line_parses :
  parse_line "mod id=0 property=id new_val=7"
  = Some ("mod", {[ "id" := "0"; "property" := "id"; "new_val" := "7" ]}).
Proof. vm_compute. reflexivity. Qed.

Lemma mod_id_and_ctime_rejected_witness :
  let w := exec epoch_zero two_adds initial in
  let raw := "mod id=0 property=id new_val=7" in
  cmd_mod {[ "id" := "0"; "property" := "id"; "new_val" := "7" ]} raw w
    = (w, Raise InvalidArgument) /\
  process_line epoch_zero "3-11-2025 09:00:02" raw w
    = (with_output w [error_line InvalidArgument raw], Ok tt).
Proof.
  intros w raw.
  destruct (mod_id_and_ctime_rejected epoch_zero "3-11-2025 09:00:02" raw raw
              "0" "7" "id" 0 task_a w) as [H1 H2].
  - left. reflexivity.
  - reflexivity.
  - vm_compute. constructor.
  - reflexivity.
  - split; [exact H1|]. apply H2. vm_compute. reflexivity.
Defined.

(** C10: for every store and every id of a stored task,
    [mod id=<id> property=done new_val=<v>] succeeds when [v] is True or
    true and leaves the task with done true, succeeds when [v] is False
    or false and leaves it with done false, every other field of the
    task, every other task and the counter being as they were; for every
    other [v] it fails with InvalidDoneStatus in an unchanged state.
    [t] is the first task with that id, at position [i]: the one the
    handler looks up. *)
Theorem mod_done_accepts_four_spellings
    (orig id_str v : string) (idv : Z) (i : nat) (t : Task) (w : World) :
  let args : gmap string string :=
    {[ "id" := id_str; "property" := "done"; "new_val" := v ]} in
  let marked b :=
    mk_task (t_name t) (t_type t) (t_desc t) (t_due t) (t_rep t) (t_prio t)
            b (t_ctime t) (t_id t) in
  let updated b :=
    mk_world (<[i := marked b]> (_tasks w)) (_next_id w)
             (stdout w ++ [success_line orig]) in
  Py.int id_str = Some idv ->
  _tasks w !! i = Some t -> t_id t = idv ->
  (forall j t', (j < i)%nat -> _tasks w !! j = Some t' -> t_id t' <> idv) ->
  (v = "True" \/ v = "true" -> cmd_mod args orig w = (updated true, Ok tt)) /\
  (v = "False" \/ v = "false" -> cmd_mod args orig w = (updated false, Ok tt)) /\
  (v <> "True" -> v <> "true" -> v <> "False" -> v <> "false" ->
   cmd_mod args orig w = (w, Raise InvalidDoneStatus)).
Proof.
  intros args marked updated Hint Hl Ht Hfirst.
  pose proof (first_with_id_found idv _ i t Hl Ht Hfirst) as Hfind.
  destruct (mod_args_lookup id_str "done" v) as (Hdom & H1 & H2 & H3).
  fold args in Hdom, H1, H2, H3.
  assert (Hrun : cmd_mod args orig w =
                 match parse_bool_str v with
                 | inr b => (updated b, Ok tt)
                 | inl e => (w, Raise e)
                 end).
  { unfold cmd_mod. mred. rewrite Hdom, H1, H2, H3, Hint. simpl. rewrite Hfind.
    destruct (parse_bool_str v); [done|]. cbv beta iota.
    by rewrite (alter_insert_found _ _ _ _ Hl). }
  rewrite Hrun. unfold parse_bool_str. repeat split.
  - by intros [-> | ->].
  - by intros [-> | ->].
  - intros N1 N2 N3 N4. apply String.eqb_neq in N1, N2, N3, N4.
    by rewrite N1, N2, N3, N4.
Qed.

Lemma mod_done_accepts_four_spellings_witness :
  let w := exec epoch_zero two_adds initial in
  let args : gmap string string :=
    {[ "id" := "1"; "property" := "done"; "new_val" := "true" ]} in
  cmd_mod args "mod id=1 property=done new_val=true" w
  = (mk_world
       [task_a;
        mk_task "b" "NONE" EmptyString "NONE" "NONE" "MEDIUM" true "3-11-2025 09:00:01" 1]
       2 (stdout w ++ [success_line "mod id=1 property=done new_val=true"]), Ok tt).
Proof.
  intros w args.
  destruct (mod_done_accepts_four_spellings "mod id=1 property=done new_val=true"
              "1" "true" 1 1 task_b w) as (H1 & _ & _).
  - reflexivity.
  - vm_compute. reflexivity.
  - reflexivity.
  - intros j t' Hj. assert (j = 0%nat) as -> by lia. vm_compute. by intros [= <-].
  - subst args. rewrite H1; [|right; reflexivity]. vm_compute. reflexivity.
Defined.

Example mod_done_rejects_yes :
  stdout (exec epoch_zero
            (two_adds ++ [("3-11-2025 09:00:02", "mod id=1 property=done new_val=yes")])
            initial)
  = [ success_line "add name=a due=05-10-2025"; success_line "add name=b";
      error_line InvalidDoneStatus "mod id=1 property=done new_val=yes" ].
Proof. vm_compute. reflexivity. Qed.

(** ** Deleting tasks *)

Lemma find_task_middle idv l1 t l2 :
  Forall (fun t' => t_id t' <> idv) l1 -> t_id t = idv ->
  find_task idv (l1 ++ t :: l2) = Some (length l1, t).
Proof.
  intros Hl1 Ht. induction Hl1 as [|t' l1 Hne _ IH]; simpl.
  - by rewrite Ht, Z.eqb_refl.
  - apply Z.eqb_neq in Hne. by rewrite Hne, IH.
Qed.

Lemma find_task_absent idv l :
  Forall (fun t => t_id t <> idv) l -> find_task idv l = None.
Proof.
  induction 1 as [|t l Hne _ IH]; simpl; [done|].
  apply Z.eqb_neq in Hne. by rewrite Hne, IH.
Qed.

Lemma filter_agree {A} (P Q : A -> Prop)
    `{!forall x, Decision (P x)} `{!forall x, Decision (Q x)} (l : list A) :
  Forall (fun x => P x <-> Q x) l -> filter P l = filter Q l.
Proof.
  induction 1 as [|x l Hx _ IH]; [done|].
  rewrite !filter_cons, IH. destruct (decide (P x)), (decide (Q x)); tauto.
Qed.

(** [t not in to_delete] holds exactly of the tasks that do not match. *)
Lemma remaining_are_the_others (P : Task -> Prop) `{!forall t, Decision (P t)}
    (l : list Task) :
  filter (fun t => t ∉ (filter P l : list Task)) l = filter (fun t => ~ P t) l.
Proof.
  apply filter_agree, Forall_forall. intros t Ht.
  rewrite list_elem_of_filter. tauto.
Qed.

Lemma filter_empty_iff {A} (P : A -> Prop) `{!forall x, Decision (P x)} (l : list A) :
  filter P l = [] <-> Forall (fun x => ~ P x) l.
Proof.
  induction l as [|x l IH]; [by split; [constructor|]|].
  rewrite filter_cons, Forall_cons. destruct (decide (P x)); [|tauto].
  split; [done|tauto].
Qed.

(** C8: for every store, [delete] with [id] alone fails with
    InvalidArgumentType when the id is not an integer and with
    TaskNotFound when no task has that id, and otherwise removes the one
    task with that id (the first, should several have it) and nothing
    else; [id] combined with [property] or [val] fails with
    TooManyArguments; [delete] with [property] and [val] fails with
    TaskNotFound when no task matches, and otherwise removes exactly the
    tasks whose stringified property equals [val] up to case, the other
    tasks staying in their order.  Failures leave the state unchanged. *)
Theorem delete_by_id_or_by_property (orig : string) (w : World) :
  let removed l :=
    (mk_world l (_next_id w) (stdout w ++ [success_line orig]), Ok tt) in
  (forall id_str,
     let args : gmap string string := {[ "id" := id_str ]} in
     (Py.int id_str = None ->
      cmd_delete args orig w = (w, Raise InvalidArgumentType)) /\
     (forall idv, Py.int id_str = Some idv ->
        (Forall (fun t => t_id t <> idv) (_tasks w) ->
         cmd_delete args orig w = (w, Raise TaskNotFound)) /\
        (forall l1 t l2,
           _tasks w = l1 ++ t :: l2 -> t_id t = idv ->
           Forall (fun t' => t_id t' <> idv) l1 ->
           cmd_delete args orig w = removed (l1 ++ l2)))) /\
  (forall (args : gmap string string) id_str,
     dom args ⊆ {[ "id"; "property"; "val" ]} ->
     args !! "id" = Some id_str ->
     is_Some (args !! "property") \/ is_Some (args !! "val") ->
     cmd_delete args orig w = (w, Raise TooManyArguments)) /\
  (forall prop val,
     prop ∈ PROPERTIES ->
     let args : gmap string string := {[ "property" := prop; "val" := val ]} in
     let matching t := prop_matches prop val t = true in
     (Forall (fun t => ~ matching t) (_tasks w) ->
      cmd_delete args orig w = (w, Raise TaskNotFound)) /\
     (Exists matching (_tasks w) ->
      cmd_delete args orig w = removed (filter (fun t => ~ matching t) (_tasks w)))).
Proof.
  intros removed. split; [|split].
  - intros id_str args.
    assert (Hdom : bool_decide (dom args ⊆ ({[ "id"; "property"; "val" ]} : gset string)) = true).
    { apply bool_decide_eq_true_2. subst args. rewrite dom_singleton_L. set_solver. }
    assert (Hid : args !! "id" = Some id_str).
    { subst args. by rewrite lookup_singleton_eq. }
    assert (Hp : has args "property" = false).
    { apply bool_decide_eq_false_2. subst args. rewrite lookup_singleton_ne by done.
      by intros [? ?]. }
    assert (Hv : has args "val" = false).
    { apply bool_decide_eq_false_2. subst args. rewrite lookup_singleton_ne by done.
      by intros [? ?]. }
    split.
    + intros Hint. unfold cmd_delete. mred. by rewrite Hdom, Hid, Hp, Hv, Hint.
    + intros idv Hint. split.
      * intros Hnone. unfold cmd_delete. mred.
        rewrite Hdom, Hid, Hp, Hv, Hint. simpl. by rewrite find_task_absent.
      * intros l1 t l2 Hl Ht Hl1. unfold cmd_delete. mred.
        rewrite Hdom, Hid, Hp, Hv, Hint. simpl.
        rewrite Hl, (find_task_middle idv l1 t l2 Hl1 Ht), delete_middle. done.
  - intros args id_str Hdom Hid Hpv. unfold cmd_delete. mred.
    rewrite bool_decide_eq_true_2 by done. simpl. rewrite Hid.
    assert (has args "property" || has args "val" = true) as ->; [|done].
    unfold has. destruct Hpv.
    + by rewrite bool_decide_eq_true_2.
    + rewrite (bool_decide_eq_true_2 (is_Some (args !! "val"))) by done.
      apply orb_true_r.
  - intros prop val Hprop args matching.
    assert (Hdom : bool_decide (dom args ⊆ ({[ "id"; "property"; "val" ]} : gset string)) = true).
    { apply bool_decide_eq_true_2. subst args.
      rewrite dom_insert_L, dom_singleton_L. intros x.
      rewrite !elem_of_union, !elem_of_singleton. tauto. }
    assert (Hid : args !! "id" = None).
    { subst args. rewrite lookup_insert_ne by done. by rewrite lookup_singleton_ne. }
    assert (Hp : args !! "property" = Some prop).
    { subst args. by rewrite lookup_insert_eq. }
    assert (Hv : args !! "val" = Some val).
    { subst args. rewrite lookup_insert_ne by done. by rewrite lookup_singleton_eq. }
    assert (Hrun : cmd_delete args orig w =
                   if bool_decide (filter matching (_tasks w) = [])
                   then (w, Raise TaskNotFound)
                   else removed (filter (fun t => t ∉ filter matching (_tasks w)) (_tasks w))).
    { unfold cmd_delete. mred. rewrite Hdom, Hid, Hp, Hv. simpl.
      rewrite (bool_decide_eq_true_2 (prop ∈ PROPERTIES)) by done. simpl.
      unfold matching, removed.
      by destruct (bool_decide
                     (filter (fun t => prop_matches prop val t = true) (_tasks w) = [])). }
    rewrite Hrun. split.
    + intros Hnone. rewrite bool_decide_eq_true_2; [done|]. by apply filter_empty_iff.
    + intros Hsome. rewrite bool_decide_eq_false_2.
      * by rewrite remaining_are_the_others.
      * intros Hnil. apply filter_empty_iff in Hnil.
        apply Exists_exists in Hsome as (t & Ht & Hm).
        rewrite Forall_forall in Hnil. by apply (Hnil t Ht).
Qed.

(** The session of the repository's delete test: three tasks, delete
    by id, then delete by type, matched without regard to case. *)
Example delete_session :
  let run := exec epoch_zero
    [ ("3-11-2025 09:00:00", "add name=A type=School");
      ("3-11-2025 09:00:01", "add name=B type=Work");
      ("3-11-2025 09:00:02", "add name=C type=School");
      ("3-11-2025 09:00:03", "delete id=1");
      ("3-11-2025 09:00:04", "delete id=1");
      ("3-11-2025 09:00:05", "delete id=x");
      ("3-11-2025 09:00:06", "delete id=0 property=type val=X");
      ("3-11-2025 09:00:07", "delete property=type val=SCHOOL");
      ("3-11-2025 09:00:08", "delete property=type val=SCHOOL") ] initial in
  _tasks run = [] /\ _next_id run = 3 /\
  stdout run =
    [ success_line "add name=A type=School"; success_line "add name=B type=Work";
      success_line "add name=C type=School"; success_line "delete id=1";
      error_line TaskNotFound "delete id=1";
      error_line InvalidArgumentType "delete id=x";
      error_line TooManyArguments "delete id=0 property=type val=X";
      success_line "delete property=type val=SCHOOL";
      error_line TaskNotFound "delete property=type val=SCHOOL" ].
Proof. vm_compute. repeat split; reflexivity. Qed.

(** ** Repeated keys *)

Lemma span_length p s :
  (String.length (fst (Py.span p s)) + String.length (snd (Py.span p s))
   = String.length s)%nat.
Proof.
  induction s as [|c s IH]; simpl; [done|].
  destruct (p c); [|done]. destruct (Py.span p s). simpl in *. lia.
Qed.

Lemma lstrip_length p s :
  (String.length (Py.lstrip_chars p s) <= String.length s)%nat.
Proof. unfold Py.lstrip_chars. pose proof (span_length p s). lia. Qed.

(** A match is never empty: the text after it is shorter. *)
Lemma arg_pair_match_shorter s k v r :
  arg_pair_match s = Some (k, v, r) -> (String.length r < String.length s)%nat.
Proof.
  unfold arg_pair_match.
  pose proof (span_length Py.is_word s) as Hs.
  destruct (Py.span Py.is_word s) as [key s1]. simpl in Hs.
  destruct key as [|c key]; [done|]. simpl in Hs.
  pose proof (lstrip_length Py.isspace s1) as H1.
  destruct (Py.lstrip_chars Py.isspace s1) as [|e s3]; [done|]. simpl in H1.
  destruct (Ascii.eqb e "="); [|done].
  pose proof (lstrip_length Py.isspace s3) as H3.
  destruct (Py.lstrip_chars Py.isspace s3) as [|q s5] eqn:Hs4; [done|]. simpl in H3.
  pose proof (span_length (fun c => negb (Py.isspace c)) (String q s5)) as Hu.
  destruct (Py.span (fun c => negb (Py.isspace c)) (String q s5)) as [vu ru].
  simpl in Hu.
  pose proof (span_length (fun c => negb (Ascii.eqb c q)) s5) as Hq.
  destruct (Py.span (fun c => negb (Ascii.eqb c q)) s5) as [vq rq]. simpl in Hq.
  destruct (Ascii.eqb q Py.dquote || Ascii.eqb q Py.squote).
  - destruct rq as [|c' r']; intros [= <- <- <-]; simpl in *; lia.
  - intros [= <- <- <-]. lia.
Qed.

(** More fuel than the segment has characters changes nothing. *)
Lemma finditer_fuel n m s :
  (String.length s < n)%nat -> (String.length s < m)%nat ->
  finditer n s = finditer m s.
Proof.
  revert m s. induction n as [|n IH]; intros m s Hn Hm; [lia|].
  destruct m as [|m]; [lia|]. simpl.
  destruct (arg_pair_match s) as [[[k v] r]|] eqn:Hmatch.
  - apply arg_pair_match_shorter in Hmatch. f_equal. apply IH; lia.
  - destruct s as [|c s]; [done|]. simpl in *. apply IH; lia.
Qed.

Lemma last_occurrence_cons k k' v' r' ms :
  last_occurrence k ((k', v', r') :: ms)
  = match last_occurrence k ms with
    | Some v => Some v
    | None => if decide (k' = k) then Some v' else None
    end.
Proof.
  unfold last_occurrence. rewrite filter_cons. simpl.
  destruct (decide (k' = k)) as [->|Hne].
  - destruct (filter _ ms) as [|m' l']; [done|].
    rewrite last_cons. by destruct (last (m' :: l')).
  - by destruct (last _).
Qed.

Lemma tokenize_loop_run ms : forall (acc : gmap string string) (after k : string),
  let '(args, after') :=
    foldl (fun st m => let '(k, v, r) := m in (<[k:=v]> (fst st), r)) (acc, after) ms in
  args !! k = from_option Some (acc !! k) (last_occurrence k ms) /\
  after' = default after (last (snd <$> ms)).
Proof.
  induction ms as [|[[k' v'] r'] ms IH]; intros acc after k; simpl; [done|].
  specialize (IH (<[k':=v']> acc) r' k).
  destruct (foldl _ _ ms) as [args after']. destruct IH as [IH1 IH2]. split.
  - rewrite IH1, last_occurrence_cons.
    destruct (last_occurrence k ms); [done|]. simpl.
    destruct (decide (k' = k)) as [->|Hne].
    + by rewrite lookup_insert_eq.
    + by rewrite lookup_insert_ne.
  - rewrite IH2, last_cons.
    change (list_fmap _ _ snd ms) with (snd <$> ms). by destruct (last (snd <$> ms)).
Qed.

(** C9, as stated, fails when stray text follows the tokens: the key
    [a] occurs in two recognized tokens, and the tokenizer returns no
    mapping at all, it raises InvalidArgument. *)
Lemma repeated_key_with_stray_text :
  (fun m => fst m) <$> matches_of "a=1 a=2 junk" = [("a", "1"); ("a", "2")] /\
  tokenize_args_segment "a=1 a=2 junk" = inl InvalidArgument.
Proof. vm_compute. split; reflexivity. Qed.

(** C9, amended: for every argument segment whose text after the last
    recognized token is blank, the tokenizer returns a mapping that binds
    each key occurring in a recognized token to the value of its last
    occurrence, and no other key; when that text is not blank it raises
    InvalidArgument.  The tokens are those of the scan over the segment,
    which more fuel does not change. *)
Theorem last_occurrence_wins (segment : string) :
  let ms := matches_of segment in
  let after := default segment (last (snd <$> ms)) in
  (forall fuel, (String.length segment < fuel)%nat -> finditer fuel segment = ms) /\
  match Py.strip after with
  | EmptyString =>
      exists args, tokenize_args_segment segment = inr args /\
                   forall k, args !! k = last_occurrence k ms
  | String _ _ => tokenize_args_segment segment = inl InvalidArgument
  end.
Proof.
  intros ms after. split.
  - intros fuel Hfuel. unfold ms, matches_of. apply finditer_fuel; lia.
  - unfold tokenize_args_segment, tokenize_loop. fold ms.
    pose proof (tokenize_loop_run ms ∅ segment) as Hrun.
    destruct (foldl _ _ ms) as [args after'].
    assert (after' = after) as -> by (by destruct (Hrun EmptyString)).
    destruct (Py.strip after); [|done].
    exists args. split; [done|]. intros k. destruct (Hrun k) as [-> _].
    rewrite lookup_empty. by destruct (last_occurrence k ms).
Qed.

Example repeated_key_last_wins :
  exists args, tokenize_args_segment "a=1 b=2 a=3" = inr args /\
               args !! "a" = Some "3" /\ args !! "b" = Some "2".
Proof. eexists. vm_compute. repeat split; reflexivity. Qed.


(** * Further properties *)

(** ** One line, one step *)

Lemma step_raise now w e (r : World * result unit) :
  r = (w, Raise e) -> Step now w (fst r).
Proof. intros ->. by apply step_same. Qed.

Lemma cmd_add_step now args orig w : Step now w (fst (cmd_add now args orig w)).
Proof.
  unfold cmd_add. mred.
  repeat (case_match; simplify_eq/=; try (by apply step_same)).
  all: eapply (step_add _ _ _ args); simpl; try done.
  all: unfold well_formed, new_task; simpl.
  all: repeat match goal with
         | H : negb (bool_decide _) = false |- _ =>
             apply negb_false_iff, bool_decide_eq_true_1 in H
         end.
  all: split; [|done].
  - left. by apply String.eqb_eq.
  - by eapply parse_date_ok.
Qed.

Lemma editable_property prop :
  prop ∈ PROPERTIES ->
  String.eqb prop "due" = false -> String.eqb prop "rep" = false ->
  String.eqb prop "prio" = false -> String.eqb prop "done" = false ->
  String.eqb prop "id" = false -> String.eqb prop "ctime" = false ->
  prop = "name" \/ prop = "type" \/ prop = "desc".
Proof.
  unfold PROPERTIES. intros Hin.
  repeat (apply elem_of_cons in Hin as [->|Hin]); try (by apply elem_of_nil in Hin);
    simpl; intros; try discriminate; auto.
Qed.

Lemma set_field_update prop v :
  prop = "name" \/ prop = "type" \/ prop = "desc" ->
  String.eqb prop "name" && Py.isdigit v = false ->
  Update (set_field prop v).
Proof.
  intros [->|[->| ->]] Hname; simpl in Hname.
  - apply (up_name v Hname).
  - apply (up_type v).
  - apply (up_desc v).
Qed.

Lemma cmd_mod_step now args orig w : Step now w (fst (cmd_mod args orig w)).
Proof.
  unfold cmd_mod. mred.
  repeat (case_match; simplify_eq/=; try (by apply step_same)).
  all: match goal with
       | H : find_task _ _ = Some _ |- _ =>
           apply find_task_spec in H as (Hlook & _ & _)
       end.
  all: repeat match goal with
         | H : negb (bool_decide _) = false |- _ =>
             apply negb_false_iff, bool_decide_eq_true_1 in H
         end.
  all: eapply step_update; [|exact Hlook|by apply alter_insert_found|done].
  - apply up_due. by eapply parse_date_ok.
  - by apply up_rep.
  - by apply up_prio.
  - apply up_done.
  - apply set_field_update; [|done]. by apply editable_property.
Qed.

Lemma cmd_done_step now args orig w : Step now w (fst (cmd_done args orig w)).
Proof.
  unfold cmd_done. mred.
  repeat (case_match; simplify_eq/=; try (by apply step_same)).
  match goal with
  | H : find_task _ _ = Some _ |- _ => apply find_task_spec in H as (Hlook & _ & _)
  end.
  eapply step_update; [apply (up_done true)|exact Hlook|by apply alter_insert_found|done].
Qed.

Lemma cmd_delete_step now args orig w : Step now w (fst (cmd_delete args orig w)).
Proof.
  destruct (cmd_delete_spec args orig w) as [[e ->]|(l & -> & Hsub)].
  - by apply step_same.
  - by apply step_remove.
Qed.

Section Steps.

Variable timestamp : string -> Z.

Lemma dispatch_step now cmd args orig w :
  Step now w (fst (dispatch timestamp now cmd args orig w)).
Proof.
  unfold dispatch.
  repeat case_match; try (by apply step_same).
  - unfold bind, when_raise.
    destruct (negb (bool_decide (args = ∅))); unfold raise, ret; cbv beta iota;
      [by apply step_same|].
    rewrite cmd_help_spec. by apply step_same.
  - destruct (cmd_print_spec timestamp args orig w) as [[e ->]|[out ->]];
      by apply step_same.
  - apply cmd_add_step.
  - destruct (cmd_list_spec timestamp args orig w) as [[e ->]|[out ->]];
      by apply step_same.
  - apply cmd_mod_step.
  - apply cmd_done_step.
  - apply cmd_delete_step.
Qed.

(** Printing does not touch the store. *)
Lemma Step_output now w w' out :
  Step now w w' -> Step now w (with_output w' out).
Proof.
  intros [H1 H2|args name H1 H2 H3 H4|i t f H1 H2 H3 H4|H1 H2].
  - by apply step_same.
  - by eapply step_add.
  - by eapply step_update.
  - by apply step_remove.
Qed.

Lemma try_except_step now (m : M unit) (h : Error -> string) w :
  Step now w (fst (m w)) ->
  Step now w (fst (try_except m (fun e => print (h e)) w)).
Proof.
  unfold try_except. destruct (m w) as [w' [[]|e]]; simpl; [done|].
  intros H. by apply (Step_output now w w' [h e]).
Qed.

Lemma process_line_step now raw w :
  Step now w (fst (process_line timestamp now raw w)).
Proof.
  destruct (parse_line raw) as [[cmd args]|] eqn:Hp.
  - rewrite (process_line_parsed timestamp now raw cmd args Hp).
    apply (try_except_step now _ (fun e => error_line e (Py.rstrip_newline raw))).
    apply dispatch_step.
  - destruct (process_line_unparsed timestamp now raw w Hp) as [->|[e ->]];
      by apply step_same.
Qed.

(** Every line is one step: nothing, an [add], an update in place, or
    a removal. *)
Lemma run_line_step now raw w :
  Step now w (fst (run_line timestamp now raw w)).
Proof.
  unfold run_line.
  apply (try_except_step now _ (fun e => error_line e (Py.rstrip_newline raw))).
  apply process_line_step.
Qed.

End Steps.

(** ** Stored fields stay valid *)

Lemma Update_well_formed f t : Update f -> well_formed t -> well_formed (f t).
Proof.
  intros Hf (Hdue & Hrep & Hprio). destruct Hf; unfold well_formed; simpl; auto.
Qed.

Lemma Update_identity f t :
  Update f -> t_id (f t) = t_id t /\ t_ctime (f t) = t_ctime t.
Proof. by intros []. Qed.

Lemma Step_Forall (P : Task -> Prop) now w w' :
  (forall args name nid,
     Py.isdigit name = false -> well_formed (new_task now args name nid) ->
     P (new_task now args name nid)) ->
  (forall f t, Update f -> P t -> P (f t)) ->
  Step now w w' -> Forall P (_tasks w) -> Forall P (_tasks w').
Proof.
  intros Hnew Hup [H1 H2|args name H1 H2 H3 H4|i t f H1 H2 H3 H4|H1 H2] Hw.
  - by rewrite H1.
  - rewrite H3. apply Forall_app. split; [done|]. repeat constructor. by apply Hnew.
  - rewrite H3. apply Forall_insert; [done|]. apply Hup; [done|].
    rewrite Forall_forall in Hw. apply Hw. by eapply list_elem_of_lookup_2.
  - rewrite Forall_forall in *. intros x Hx. apply Hw. by eapply elem_of_sublist.
Qed.

(** X1: in every store state reachable from the empty store, every
    task's due field is [NONE] or a real calendar date, its repeat is one
    of the four repeat tokens and its priority one of the three
    priorities: [add] and [mod] validate before they store. *)
Theorem stored_fields_stay_valid
    (timestamp : string -> Z) (inputs : list (string * string)) :
  Forall well_formed (_tasks (exec timestamp inputs initial)).
Proof.
  assert (H : forall w, Forall well_formed (_tasks w) ->
                        Forall well_formed (_tasks (exec timestamp inputs w))).
  { induction inputs as [|[now raw] rest IH]; intros w Hw; [done|].
    rewrite exec_cons. apply IH.
    apply (Step_Forall well_formed now w); [done| |apply run_line_step|done].
    intros f t. apply Update_well_formed. }
  apply H. constructor.
Qed.

(** ** Identity and creation time are written once *)

(** X2: whatever the line and the state, either no task is created and
    the tasks that remain keep their id and their creation time, in the
    same order, or exactly one task is appended to the unchanged store,
    with the counter as id, the clock reading as creation time and done
    false. *)
Theorem id_and_ctime_are_write_once
    (timestamp : string -> Z) (now raw : string) (w : World) :
  let w' := fst (run_line timestamp now raw w) in
  let stamp t := (t_id t, t_ctime t) in
  (stamp <$> _tasks w' `sublist_of` stamp <$> _tasks w /\ _next_id w' = _next_id w) \/
  (exists t, _tasks w' = _tasks w ++ [t] /\ t_id t = _next_id w /\
             t_ctime t = now /\ t_done t = false /\ _next_id w' = _next_id w + 1).
Proof.
  intros w' stamp.
  pose proof (run_line_step timestamp now raw w) as Hstep. fold w' in Hstep.
  clearbody w'.
  destruct Hstep as [H1 H2|args name H1 H2 H3 H4|i t f H1 H2 H3 H4|H1 H2].
  - left. by rewrite H1.
  - right. eexists. by repeat split.
  - left. split; [|done]. rewrite H3, list_fmap_insert.
    assert (stamp (f t) = stamp t) as ->.
    { unfold stamp. by destruct (Update_identity f t H1) as [-> ->]. }
    rewrite list_insert_id; [done|]. by rewrite list_lookup_fmap, H2.
  - left. split; [|done]. by apply fmap_sublist.
Qed.

(** ** Commands that only read *)

Lemma try_except_store (m : M unit) (h : Error -> string) w :
  same_store (fst (m w)) (fst (try_except m (fun e => print (h e)) w)).
Proof. unfold try_except, same_store. by destruct (m w) as [w' [[]|e]]. Qed.

Lemma same_store_trans w1 w2 w3 :
  same_store w1 w2 -> same_store w2 w3 -> same_store w1 w3.
Proof. unfold same_store. intros [-> ->] [-> ->]. done. Qed.

Section ReadOnly.

Variable timestamp : string -> Z.

Lemma dispatch_read_only now cmd args orig w :
  cmd ∉ ["add"; "mod"; "done"; "delete"] ->
  same_store w (fst (dispatch timestamp now cmd args orig w)).
Proof.
  intros Hcmd. unfold dispatch.
  destruct (String.eqb cmd "help") eqn:Hhelp.
  { unfold bind, when_raise.
    destruct (negb (bool_decide (args = ∅))); unfold raise, ret; cbv beta iota; [done|].
    by rewrite cmd_help_spec. }
  destruct (String.eqb cmd "print") eqn:Hprint.
  { by destruct (cmd_print_spec timestamp args orig w) as [[e ->]|[out ->]]. }
  destruct (String.eqb cmd "add") eqn:Hadd.
  { apply String.eqb_eq in Hadd as ->. exfalso. apply Hcmd. set_solver. }
  destruct (String.eqb cmd "list") eqn:Hlist.
  { by destruct (cmd_list_spec timestamp args orig w) as [[e ->]|[out ->]]. }
  destruct (String.eqb cmd "mod") eqn:Hmod.
  { apply String.eqb_eq in Hmod as ->. exfalso. apply Hcmd. set_solver. }
  destruct (String.eqb cmd "done") eqn:Hdone.
  { apply String.eqb_eq in Hdone as ->. exfalso. apply Hcmd. set_solver. }
  destruct (String.eqb cmd "delete") eqn:Hdel.
  { apply String.eqb_eq in Hdel as ->. exfalso. apply Hcmd. set_solver. }
  done.
Qed.

End ReadOnly.

(** X3: only [add], [mod], [done] and [delete] write: a line whose
    command word is any other word ([help], [print], [list], an unknown
    command) or that has no command word leaves the store and the id
    counter as they were, whatever its arguments and whether it succeeds
    or fails. *)
Theorem other_commands_only_read
    (timestamp : string -> Z) (now raw : string) (w : World) :
  is_mutating_command raw = false ->
  same_store w (fst (run_line timestamp now raw w)).
Proof.
  unfold is_mutating_command. intros Hcmd. unfold run_line.
  eapply same_store_trans;
    [|apply (try_except_store _ (fun e => error_line e (Py.rstrip_newline raw)))].
  destruct (parse_line (Py.rstrip_newline raw)) as [[cmd args]|] eqn:Hp.
  - rewrite (process_line_parsed timestamp now _ cmd args Hp).
    eapply same_store_trans;
      [|apply (try_except_store _ (fun e => error_line e _))].
    destruct (parse_line_command_word _ _ _ Hp) as [after Hcw].
    rewrite rstrip_newline_idem in Hcw. rewrite Hcw in Hcmd.
    apply dispatch_read_only. by apply bool_decide_eq_false_1 in Hcmd.
  - by destruct (process_line_unparsed timestamp now _ w Hp) as [->|[e ->]].
Qed.

Lemma other_commands_only_read_witness :
  same_store (exec epoch_zero two_adds initial)
    (fst (run_line epoch_zero "3-11-2025 09:00:02" "list property=name val=A sort_by=id"
                   (exec epoch_zero two_adds initial))).
Proof.
  apply other_commands_only_read. vm_compute. reflexivity.
Defined.

(** ** What print and list show *)

Lemma print_rows_table ts w :
  print_rows ts w = (with_output w (table ts), Ok tt).
Proof.
  revert w. induction ts as [|t ts IH]; intros w; simpl.
  - unfold ret, with_output. simpl. rewrite app_nil_r. by destruct w.
  - mred. rewrite IH. unfold with_output. simpl. by rewrite <- !app_assoc.
Qed.

Section Tables.

Variable timestamp : string -> Z.

Lemma print_header_and_tasks_table tasks sort_by direction w :
  exists order,
    order ≡ₚ tasks /\
    print_header_and_tasks timestamp tasks sort_by direction w
    = (with_output w (header :: table order), Ok tt).
Proof.
  exists (sorted_tasks timestamp tasks sort_by direction). split.
  - unfold sorted_tasks. apply sorted_perm.
  - unfold print_header_and_tasks. mred. rewrite print_rows_table.
    unfold with_output. simpl. by rewrite <- app_assoc.
Qed.

(** X4: [print] either raises in the unchanged state or prints the
    success line, the header and then, for every stored task exactly
    once, its row followed by an empty line. *)
Theorem print_shows_every_task (args : gmap string string) (orig : string) (w : World) :
  (exists e, cmd_print timestamp args orig w = (w, Raise e)) \/
  (exists order,
     order ≡ₚ _tasks w /\
     cmd_print timestamp args orig w
     = (with_output w (success_line orig :: header :: table order), Ok tt)).
Proof.
  unfold cmd_print, validate_sort_args. mred.
  repeat (case_match; simplify_eq/=; try raise_case).
  right.
  match goal with
  | |- context [print_header_and_tasks _ ?l ?s ?d ?w0] =>
      destruct (print_header_and_tasks_table l s d w0) as (order & Hperm & ->)
  end.
  exists order. split; [done|]. unfold with_output. simpl. by rewrite <- app_assoc.
Qed.

(** X5: [list] succeeds exactly when its arguments are accepted: only
    the four keys, a property and a value, the property and the sort
    field (given or default) among the nine names, the direction asc or
    desc.  It then prints the success line, the header and, exactly once
    each, the rows of the stored tasks whose stringified property equals
    the value up to case, and of no other task; with no matching task
    that is the header alone, not an error.  With arguments that are not
    accepted it raises in the unchanged state. *)
Theorem list_shows_the_matching_tasks
    (args : gmap string string) (orig : string) (w : World) :
  let accepted prop val :=
    dom args ⊆ ({[ "property"; "val"; "sort_by"; "direction" ]} : gset string) /\
    args !! "property" = Some prop /\ args !! "val" = Some val /\
    prop ∈ PROPERTIES /\
    default "asc" (args !! "direction") ∈ VALID_DIRECTION /\
    default "name" (args !! "sort_by") ∈ PROPERTIES in
  (forall prop val,
     accepted prop val ->
     exists order,
       order ≡ₚ filter (fun t => prop_matches prop val t = true) (_tasks w) /\
       (Forall (fun t => prop_matches prop val t = false) (_tasks w) -> order = []) /\
       cmd_list timestamp args orig w
       = (with_output w (success_line orig :: header :: table order), Ok tt)) /\
  ((forall prop val, ~ accepted prop val) ->
   exists e, cmd_list timestamp args orig w = (w, Raise e)).
Proof.
  intros accepted. split.
  - intros prop val (Hdom & Hp & Hv & Hprop & Hdir & Hsort).
    unfold cmd_list, validate_sort_args, get. mred.
    rewrite Hp, Hv.
    rewrite (bool_decide_eq_true_2 _ Hdom), (bool_decide_eq_true_2 _ Hprop),
      (bool_decide_eq_true_2 _ Hdir), (bool_decide_eq_true_2 _ Hsort).
    cbn [negb fst snd].
    match goal with
    | |- context [print_header_and_tasks _ ?l ?s ?d ?w0] =>
        destruct (print_header_and_tasks_table l s d w0) as (order & Hperm & ->)
    end.
    exists order. repeat split; try done.
    + intros Hnone. apply Permutation_nil_r. rewrite Hperm. simpl.
      assert (filter (fun t => prop_matches prop val t = true) (_tasks w) = []) as ->; [|done].
      apply filter_empty_iff. eapply Forall_impl; [exact Hnone|].
      simpl. intros t ->. done.
    + unfold with_output. simpl. by rewrite <- app_assoc.
  - intros Hno. unfold cmd_list, validate_sort_args, get. mred.
    destruct (bool_decide (dom args ⊆ _)) eqn:Hdom; cbn [negb]; [|by eexists].
    apply bool_decide_eq_true_1 in Hdom.
    destruct (args !! "property") as [prop|] eqn:Hp; [|by eexists].
    destruct (args !! "val") as [val|] eqn:Hv; [|by eexists].
    destruct (bool_decide (prop ∈ PROPERTIES)) eqn:Hprop; cbn [negb]; [|by eexists].
    apply bool_decide_eq_true_1 in Hprop.
    destruct (bool_decide (default "asc" (args !! "direction") ∈ VALID_DIRECTION)) eqn:Hdir;
      cbn [negb]; [|by eexists].
    apply bool_decide_eq_true_1 in Hdir.
    destruct (bool_decide (default "name" (args !! "sort_by") ∈ PROPERTIES)) eqn:Hsort;
      cbn [negb]; [|by eexists].
    apply bool_decide_eq_true_1 in Hsort.
    by destruct (Hno prop val).
Qed.

End Tables.

Lemma list_shows_the_matching_tasks_witness :
  exists order,
    order ≡ₚ filter (fun t => prop_matches "type" "school" t = true)
                    (_tasks (exec epoch_zero two_adds initial)) /\
    (Forall (fun t => prop_matches "type" "school" t = false)
            (_tasks (exec epoch_zero two_adds initial)) -> order = []) /\
    cmd_list epoch_zero {[ "property" := "type"; "val" := "school" ]}
             "list property=type val=school" (exec epoch_zero two_adds initial)
    = (with_output (exec epoch_zero two_adds initial)
         (success_line "list property=type val=school" :: header :: table order), Ok tt).
Proof.
  apply (list_shows_the_matching_tasks epoch_zero
           {[ "property" := "type"; "val" := "school" ]}
           "list property=type val=school" (exec epoch_zero two_adds initial)).
  repeat split; try reflexivity; apply (bool_decide_unpack _); vm_compute; exact I.
Defined.

(** ** Printed ids are read back *)

Lemma int_digits_uint d acc :
  Py.int_digits acc false (NilEmpty.string_of_uint d) = Some (horner acc d, EmptyString).
Proof.
  revert acc. induction d; intros acc; simpl; [done|..];
    change (Py.digit_val _) with 0 || change (Py.digit_val _) with 1
    || change (Py.digit_val _) with 2 || change (Py.digit_val _) with 3
    || change (Py.digit_val _) with 4 || change (Py.digit_val _) with 5
    || change (Py.digit_val _) with 6 || change (Py.digit_val _) with 7
    || change (Py.digit_val _) with 8 || change (Py.digit_val _) with 9;
    apply IHd.
Qed.

Lemma horner_of_uint_acc d (acc : positive) :
  Z.pos (Pos.of_uint_acc d acc) = horner (Z.pos acc) d.
Proof.
  revert acc. induction d; intros acc; simpl; [done|..]; rewrite IHd; f_equal; lia.
Qed.

Lemma horner_of_uint d : Z.of_uint d = horner 0 d.
Proof.
  unfold Z.of_uint. induction d; simpl; try done;
    rewrite horner_of_uint_acc; f_equal.
Qed.

Lemma digit_is_plain c :
  Py.is_digit c = true ->
  Py.is_c_space c = false /\ Ascii.eqb c "-" = false /\ Ascii.eqb c "+" = false.
Proof.
  destruct c as [[] [] [] [] [] [] [] []]; intros H; try discriminate H;
    repeat split; reflexivity.
Qed.

(** A numeral that starts with a digit and is read to its end. *)
Lemma int_of_numeral c s v :
  Py.is_digit c = true ->
  Py.int_digits 0 false (String c s) = Some (v, EmptyString) ->
  Py.int (String c s) = Some v /\ Py.int (String "-" (String c s)) = Some (- v).
Proof.
  intros Hc Hv. destruct (digit_is_plain c Hc) as (Hsp & Hminus & Hplus).
  split.
  - unfold Py.int, Py.lstrip_chars. cbn [Py.span]. rewrite Hsp. cbn [snd].
    rewrite Hminus, Hplus, Hc, Hv. simpl Py.all_chars. cbv iota beta.
    f_equal; lia.
  - unfold Py.int, Py.lstrip_chars. cbn [Py.span].
    change (Py.is_c_space "-") with false. cbn [snd].
    change (Ascii.eqb "-" "-") with true. cbv iota.
    rewrite Hc, Hv. simpl Py.all_chars. cbv iota beta. f_equal; lia.
Qed.

Lemma string_of_uint_cases d :
  d = Decimal.Nil \/
  exists c s, NilEmpty.string_of_uint d = String c s /\ Py.is_digit c = true.
Proof. destruct d; [by left|right; do 2 eexists; split; reflexivity..]. Qed.

Lemma int_string_of_uint d :
  Py.int (NilZero.string_of_uint d) = Some (Z.of_uint d) /\
  Py.int (String "-" (NilZero.string_of_uint d)) = Some (- Z.of_uint d).
Proof.
  destruct (string_of_uint_cases d) as [->|(c & s & Hs & Hc)].
  - split; reflexivity.
  - assert (NilZero.string_of_uint d = String c s) as ->.
    { rewrite <- Hs. by destruct d. }
    apply int_of_numeral; [done|].
    by rewrite <- Hs, int_digits_uint, horner_of_uint.
Qed.

(** [int(str(n))] is [n]. *)
Lemma int_str_int n : Py.int (Py.str_int n) = Some n.
Proof.
  unfold Py.str_int. rewrite <- (DecimalZ.of_to n) at 2.
  destruct (Z.to_int n) as [d|d]; simpl.
  - apply int_string_of_uint.
  - apply int_string_of_uint.
Qed.

(** ** Marking a task done *)

Lemma alter_middle (f : Task -> Task) (l1 : list Task) t l2 :
  alter f (length l1) (l1 ++ t :: l2) = l1 ++ f t :: l2.
Proof. induction l1 as [|x l1 IH]; [done|]. simpl. f_equal. exact IH. Qed.

Lemma find_task_split idv l i t :
  find_task idv l = Some (i, t) ->
  exists l1 l2, l = l1 ++ t :: l2 /\ length l1 = i /\ t_id t = idv /\
                Forall (fun t' => t_id t' <> idv) l1.
Proof.
  intros H. destruct (find_task_spec idv l i t H) as (Hl & Hid & Hbefore).
  exists (take i l), (drop (S i) l). split; [|split; [|done]].
  - by rewrite (take_drop_middle l i t Hl).
  - rewrite length_take. apply lookup_lt_Some in Hl. lia.
Qed.

Lemma done_args_lookup (id_str : string) :
  let args : gmap string string := {[ "id" := id_str ]} in
  bool_decide (dom args ⊆ ({[ "id" ]} : gset string)) = true /\
  args !! "id" = Some id_str.
Proof.
  simpl. split; [|by rewrite lookup_singleton_eq].
  apply bool_decide_eq_true_2. by rewrite dom_singleton_L.
Qed.

(** X6: for every store, [done] with [id] alone fails with
    InvalidArgumentType when the id is not an integer and with
    TaskNotFound when no task has that id, in an unchanged state;
    otherwise the first task with that id is left with done true,
    whatever done was, every other field of it and every other task
    being as they were. *)
Theorem done_marks_one_task (orig id_str : string) (w : World) :
  let args : gmap string string := {[ "id" := id_str ]} in
  (Py.int id_str = None -> cmd_done args orig w = (w, Raise InvalidArgumentType)) /\
  (forall idv, Py.int id_str = Some idv ->
     (Forall (fun t => t_id t <> idv) (_tasks w) ->
      cmd_done args orig w = (w, Raise TaskNotFound)) /\
     (forall l1 t l2,
        _tasks w = l1 ++ t :: l2 -> t_id t = idv ->
        Forall (fun t' => t_id t' <> idv) l1 ->
        cmd_done args orig w
        = (mk_world
             (l1 ++ mk_task (t_name t) (t_type t) (t_desc t) (t_due t) (t_rep t)
                            (t_prio t) true (t_ctime t) (t_id t) :: l2)
             (_next_id w) (stdout w ++ [success_line orig]), Ok tt))).
Proof.
  intros args. destruct (done_args_lookup id_str) as [Hdom Hid].
  fold args in Hdom, Hid. split; [|intros idv Hint; split].
  - intros Hint. unfold cmd_done. mred. by rewrite Hdom, Hid, Hint.
  - intros Hnone. unfold cmd_done. mred. rewrite Hdom, Hid, Hint. simpl.
    by rewrite find_task_absent.
  - intros l1 t l2 Hl Ht Hl1. unfold cmd_done. mred. rewrite Hdom, Hid, Hint. simpl.
    rewrite Hl, (find_task_middle idv l1 t l2 Hl1 Ht). cbv beta iota.
    by rewrite Hl, alter_middle.
Qed.

(** X7: every stored task can be addressed by its id as the table
    prints it: [done] with that text as id succeeds, and the first task
    carrying the id is left with done true and its other fields as they
    were. *)
Theorem done_by_printed_id (orig : string) (t : Task) (w : World) :
  t ∈ _tasks w ->
  exists l1 t' l2,
    _tasks w = l1 ++ t' :: l2 /\ t_id t' = t_id t /\
    Forall (fun u => t_id u <> t_id t) l1 /\
    cmd_done {[ "id" := Py.str_int (t_id t) ]} orig w
    = (mk_world
         (l1 ++ mk_task (t_name t') (t_type t') (t_desc t') (t_due t') (t_rep t')
                        (t_prio t') true (t_ctime t') (t_id t') :: l2)
         (_next_id w) (stdout w ++ [success_line orig]), Ok tt).
Proof.
  intros Ht. destruct (find_task_elem (t_id t) (_tasks w) t Ht eq_refl) as (i & t' & Hf).
  destruct (find_task_split _ _ _ _ Hf) as (l1 & l2 & Hl & _ & Hid & Hl1).
  exists l1, t', l2. split; [done|]. split; [done|]. split; [done|].
  destruct (done_args_lookup (Py.str_int (t_id t))) as [Hdom Hlook].
  unfold cmd_done. mred. rewrite Hdom, Hlook, int_str_int. simpl.
  rewrite Hl, (find_task_middle (t_id t) l1 t' l2 Hl1 Hid). cbv beta iota.
  by rewrite Hl, alter_middle.
Qed.

Lemma done_by_printed_id_witness :
  exists l1 t' l2,
    _tasks (exec epoch_zero two_adds initial) = l1 ++ t' :: l2 /\ t_id t' = t_id task_b /\
    Forall (fun u => t_id u <> t_id task_b) l1 /\
    cmd_done {[ "id" := Py.str_int (t_id task_b) ]} "done id=1"
             (exec epoch_zero two_adds initial)
    = (mk_world
         (l1 ++ mk_task (t_name t') (t_type t') (t_desc t') (t_due t') (t_rep t')
                        (t_prio t') true (t_ctime t') (t_id t') :: l2)
         (_next_id (exec epoch_zero two_adds initial))
         (stdout (exec epoch_zero two_adds initial) ++ [success_line "done id=1"]),
       Ok tt).
Proof.
  apply (done_by_printed_id "done id=1" task_b (exec epoch_zero two_adds initial)).
  vm_compute. apply list_elem_of_further, list_elem_of_here.
Defined.

Lemma cmd_done_success args orig w w1 :
  cmd_done args orig w = (w1, Ok tt) ->
  exists id_str idv l1 t l2,
    bool_decide (dom args ⊆ ({[ "id" ]} : gset string)) = true /\
    args !! "id" = Some id_str /\ Py.int id_str = Some idv /\
    _tasks w = l1 ++ t :: l2 /\ t_id t = idv /\
    Forall (fun t' => t_id t' <> idv) l1 /\
    w1 = mk_world (l1 ++ set_done true t :: l2) (_next_id w)
                  (stdout w ++ [success_line orig]).
Proof.
  unfold cmd_done. mred. intros H.
  destruct (bool_decide (dom args ⊆ _)) eqn:Hdom; simpl in H; [|done].
  destruct (args !! "id") as [id_str|] eqn:Hid; [|done].
  destruct (Py.int id_str) as [idv|] eqn:Hint; [|done].
  destruct (find_task idv (_tasks w)) as [[i t]|] eqn:Hfind; simpl in H; [|done].
  destruct (find_task_split _ _ _ _ Hfind) as (l1 & l2 & Hl & Hlen & Ht & Hl1).
  exists id_str, idv, l1, t, l2. repeat split; try done.
  injection H as <-. subst i. by rewrite Hl, alter_middle.
Qed.

(** X8: [done] is idempotent on the store: when it succeeds, running
    the same command again succeeds too and leaves the store as the first
    run left it. *)
Theorem done_twice_is_done_once
    (args : gmap string string) (orig orig' : string) (w w1 : World) :
  cmd_done args orig w = (w1, Ok tt) ->
  exists w2, cmd_done args orig' w1 = (w2, Ok tt) /\ same_store w1 w2.
Proof.
  intros H.
  destruct (cmd_done_success _ _ _ _ H)
    as (id_str & idv & l1 & t & l2 & Hdom & Hid & Hint & Hl & Ht & Hl1 & ->).
  unfold cmd_done. mred. rewrite Hdom, Hid, Hint. simpl.
  rewrite (find_task_middle idv l1 (set_done true t) l2 Hl1 Ht). cbv beta iota.
  eexists. split; [reflexivity|]. unfold same_store. simpl.
  by rewrite alter_middle.
Qed.

Lemma done_twice_is_done_once_witness :
  exists w2,
    cmd_done {[ "id" := "0" ]} "done id=0"
      (mk_world [set_done true task_a; task_b] 2
         (stdout (exec epoch_zero two_adds initial) ++ [success_line "done id=0"]))
    = (w2, Ok tt) /\
    same_store
      (mk_world [set_done true task_a; task_b] 2
         (stdout (exec epoch_zero two_adds initial) ++ [success_line "done id=0"])) w2.
Proof.
  apply (done_twice_is_done_once {[ "id" := "0" ]} "done id=0" "done id=0"
           (exec epoch_zero two_adds initial)).
  vm_compute. reflexivity.
Defined.

(** ** Reading back what mod wrote *)

Lemma cmd_mod_success args orig w w1 :
  cmd_mod args orig w = (w1, Ok tt) ->
  exists id_str prop v idv i t f,
    args !! "id" = Some id_str /\ args !! "property" = Some prop /\
    args !! "new_val" = Some v /\ Py.int id_str = Some idv /\
    find_task idv (_tasks w) = Some (i, t) /\ Writes prop v f /\
    w1 = mk_world (<[i := f t]> (_tasks w)) (_next_id w)
                  (stdout w ++ [success_line orig]).
Proof.
  unfold cmd_mod. mred. intros H.
  destruct (bool_decide (dom args ⊆ _)); simpl in H; [|done].
  destruct (args !! "id") as [id_str|] eqn:Hid; [|done].
  destruct (args !! "property") as [prop|] eqn:Hprop; [|done].
  destruct (args !! "new_val") as [v|] eqn:Hval; [|done].
  destruct (Py.int id_str) as [idv|] eqn:Hint; [|done].
  destruct (bool_decide (prop ∈ PROPERTIES)) eqn:Hin; simpl in H; [|done].
  apply bool_decide_eq_true_1 in Hin.
  destruct (find_task idv (_tasks w)) as [[i t]|] eqn:Hfind; [|done].
  pose proof (find_task_spec _ _ _ _ Hfind) as (Hlook & _ & _).
  exists id_str, prop, v, idv, i, t.
  assert (Hins : forall f, alter f i (_tasks w) = <[i := f t]> (_tasks w)).
  { intros f. by apply alter_insert_found. }
  destruct (String.eqb prop "due") eqn:E1.
  { apply String.eqb_eq in E1 as ->.
    destruct (parse_date_str v); simpl in H; [done|].
    injection H as <-. exists (set_due v). rewrite Hins.
    repeat (split; [done|]). split; [constructor|done]. }
  destruct (String.eqb prop "rep") eqn:E2.
  { apply String.eqb_eq in E2 as ->.
    destruct (negb (bool_decide (v ∈ VALID_REPS))); simpl in H; [done|].
    injection H as <-. exists (set_rep v). rewrite Hins.
    repeat (split; [done|]). split; [constructor|done]. }
  destruct (String.eqb prop "prio") eqn:E3.
  { apply String.eqb_eq in E3 as ->.
    destruct (negb (bool_decide (v ∈ VALID_PRIOS))); simpl in H; [done|].
    injection H as <-. exists (set_prio v). rewrite Hins.
    repeat (split; [done|]). split; [constructor|done]. }
  destruct (String.eqb prop "done") eqn:E4.
  { apply String.eqb_eq in E4 as ->.
    destruct (parse_bool_str v) as [e|b] eqn:Hb; simpl in H; [done|].
    injection H as <-. exists (set_done b). rewrite Hins.
    repeat (split; [done|]). split; [by constructor|done]. }
  destruct (String.eqb prop "id") eqn:E5; [done|].
  destruct (String.eqb prop "ctime") eqn:E6; [done|].
  destruct (String.eqb prop "name" && Py.isdigit v) eqn:E7; simpl in H; [done|].
  injection H as <-. rewrite Hins.
  destruct (editable_property prop Hin E1 E2 E3 E4 E5 E6) as [->|[->| ->]].
  - exists (set_name v). repeat (split; [done|]). split; [constructor|done].
  - exists (set_type v). repeat (split; [done|]). split; [constructor|done].
  - exists (set_desc v). repeat (split; [done|]). split; [constructor|done].
Qed.

Lemma lower_bool_spelling v b :
  parse_bool_str v = inr b -> Py.lower (Py.str_bool b) = Py.lower v.
Proof.
  unfold parse_bool_str.
  destruct (String.eqb v "True") eqn:E1; [apply String.eqb_eq in E1 as ->|].
  { by intros [= <-]. }
  destruct (String.eqb v "true") eqn:E2; [apply String.eqb_eq in E2 as ->|].
  { by intros [= <-]. }
  destruct (String.eqb v "False") eqn:E3; [apply String.eqb_eq in E3 as ->|].
  { by intros [= <-]. }
  destruct (String.eqb v "false") eqn:E4; [apply String.eqb_eq in E4 as ->|].
  { by intros [= <-]. }
  done.
Qed.

Lemma Writes_matches prop v f t :
  Writes prop v f -> prop_matches prop v (f t) = true.
Proof.
  intros [ | | |v' b Hb| | | ]; unfold prop_matches.
  4:{ change (prop_str (set_done b t) "done") with (Py.str_bool b).
      rewrite (lower_bool_spelling v' b Hb). apply String.eqb_refl. }
  all: simpl; apply String.eqb_refl.
Qed.

Lemma Writes_frame prop v f t p :
  Writes prop v f -> p <> prop -> prop_str (f t) p = prop_str t p.
Proof.
  intros Hw Hne. unfold prop_str.
  repeat match goal with
         | |- context [String.eqb p ?s] =>
             let E := fresh "E" in
             destruct (String.eqb p s) eqn:E; [apply String.eqb_eq in E|]
         end;
    try done; subst; by destruct Hw.
Qed.

(** X9: when [mod] succeeds its id argument is an integer, and it has
    replaced one task, the first whose id is that integer, by a task
    that matches the new value on the modified property (what
    [list property=<p> val=<v>] then selects; for done up to the case of
    True and False), with every other property printing as before; no
    other task and not the counter changed, and the success line is all
    it printed. *)
Theorem mod_writes_one_property
    (args : gmap string string) (orig : string) (w w1 : World) :
  cmd_mod args orig w = (w1, Ok tt) ->
  exists id_str idv prop v i t t',
    args !! "id" = Some id_str /\ Py.int id_str = Some idv /\
    args !! "property" = Some prop /\ args !! "new_val" = Some v /\
    _tasks w !! i = Some t /\ t_id t = idv /\
    (forall j u, (j < i)%nat -> _tasks w !! j = Some u -> t_id u <> idv) /\
    _tasks w1 = <[i := t']> (_tasks w) /\ _next_id w1 = _next_id w /\
    stdout w1 = stdout w ++ [success_line orig] /\
    prop_matches prop v t' = true /\
    (forall p, p <> prop -> prop_str t' p = prop_str t p).
Proof.
  intros H.
  destruct (cmd_mod_success _ _ _ _ H)
    as (id_str & prop & v & idv & i & t & f & Hid & Hprop & Hval & Hint & Hfind & Hw & ->).
  destruct (find_task_spec _ _ _ _ Hfind) as (Hlook & Ht & Hfirst).
  exists id_str, idv, prop, v, i, t, (f t). repeat split; try done.
  - intros j u Hj Hu. rewrite Forall_lookup in Hfirst.
    apply (Hfirst j u). by rewrite lookup_take_lt.
  - by apply Writes_matches.
  - intros p Hp. by apply (Writes_frame prop v).
Qed.

Lemma mod_writes_one_property_witness :
  exists id_str idv prop v i t t',
    ({[ "id" := "1"; "property" := "done"; "new_val" := "true" ]} : gmap string string)
      !! "id" = Some id_str /\ Py.int id_str = Some idv /\
    ({[ "id" := "1"; "property" := "done"; "new_val" := "true" ]} : gmap string string)
      !! "property" = Some prop /\
    ({[ "id" := "1"; "property" := "done"; "new_val" := "true" ]} : gmap string string)
      !! "new_val" = Some v /\
    _tasks (exec epoch_zero two_adds initial) !! i = Some t /\ t_id t = idv /\
    (forall j u, (j < i)%nat ->
       _tasks (exec epoch_zero two_adds initial) !! j = Some u -> t_id u <> idv) /\
    [task_a;
     mk_task "b" "NONE" EmptyString "NONE" "NONE" "MEDIUM" true "3-11-2025 09:00:01" 1]
    = <[i := t']> (_tasks (exec epoch_zero two_adds initial)) /\
    2 = _next_id (exec epoch_zero two_adds initial) /\
    stdout (exec epoch_zero two_adds initial)
      ++ [success_line "mod id=1 property=done new_val=true"]
    = stdout (exec epoch_zero two_adds initial)
      ++ [success_line "mod id=1 property=done new_val=true"] /\
    prop_matches prop v t' = true /\
    (forall p, p <> prop -> prop_str t' p = prop_str t p).
Proof.
  apply (mod_writes_one_property
           {[ "id" := "1"; "property" := "done"; "new_val" := "true" ]}
           "mod id=1 property=done new_val=true"
           (exec epoch_zero two_adds initial)
           (mk_world
              [task_a;
               mk_task "b" "NONE" EmptyString "NONE" "NONE" "MEDIUM" true
                       "3-11-2025 09:00:01" 1]
              2
              (stdout (exec epoch_zero two_adds initial)
               ++ [success_line "mod id=1 property=done new_val=true"]))).
  vm_compute. reflexivity.
Defined.

(** ** Deleting what is already gone *)

Lemma sorted_ids_unique idv (l1 : list Task) t l2 :
  StronglySorted Z.lt (t_id <$> (l1 ++ t :: l2)) -> t_id t = idv ->
  Forall (fun t' => t_id t' <> idv) (l1 ++ l2).
Proof.
  rewrite fmap_app, fmap_cons. intros Hs Ht.
  apply StronglySorted_app in Hs as (Hcross & _ & Hs2).
  apply StronglySorted_inv in Hs2 as [_ Hafter].
  apply Forall_app. split; apply Forall_forall; intros x Hx.
  - assert (t_id x < t_id t); [|lia].
    apply Hcross; [by apply list_elem_of_fmap_2|]. apply list_elem_of_here.
  - rewrite Forall_forall in Hafter.
    assert (t_id t < t_id x); [|lia]. apply Hafter. by apply list_elem_of_fmap_2.
Qed.

Lemma filter_out_then_none (P : Task -> Prop) `{!forall t, Decision (P t)}
    (l : list Task) :
  filter P (filter (fun t => ~ P t) l) = [].
Proof.
  apply filter_empty_iff, Forall_forall. intros t Ht.
  by apply list_elem_of_filter in Ht as [Hn _].
Qed.

(** X10: in every store state reachable from the empty store, once a
    [delete] has succeeded, by id or by property and value, the same
    [delete] run again finds nothing: it fails with TaskNotFound and
    changes nothing. *)
Theorem delete_twice_finds_nothing
    (timestamp : string -> Z) (inputs : list (string * string))
    (args : gmap string string) (orig orig' : string) (w1 : World) :
  cmd_delete args orig (exec timestamp inputs initial) = (w1, Ok tt) ->
  cmd_delete args orig' w1 = (w1, Raise TaskNotFound).
Proof.
  destruct (exec_ids_in_order timestamp inputs initial 0 initial_ids_in_order)
    as (_ & Hsorted & _).
  generalize dependent (exec timestamp inputs initial). intros w Hsorted.
  unfold cmd_delete. mred. intros H.
  destruct (bool_decide (dom args ⊆ _)); simpl in *; [|done].
  destruct (args !! "id") as [id_str|].
  - destruct (has args "property" || has args "val"); simpl in *; [done|].
    destruct (Py.int id_str) as [idv|]; [|done].
    destruct (find_task idv (_tasks w)) as [[i t]|] eqn:Hfind; simpl in *; [|done].
    injection H as <-. simpl.
    destruct (find_task_split _ _ _ _ Hfind) as (l1 & l2 & Hl & Hlen & Ht & _).
    subst i. rewrite Hl, delete_middle.
    rewrite find_task_absent; [done|].
    rewrite Hl in Hsorted. by apply (sorted_ids_unique idv l1 t l2).
  - destruct (args !! "property") as [prop|]; [|done].
    destruct (args !! "val") as [val|]; [|done].
    destruct (negb (bool_decide (prop ∈ PROPERTIES))); simpl in *; [done|].
    destruct (bool_decide (filter _ (_tasks w) = [])); simpl in *; [done|].
    injection H as <-. simpl.
    rewrite remaining_are_the_others, filter_out_then_none.
    by rewrite bool_decide_eq_true_2.
Qed.

Lemma delete_twice_finds_nothing_witness :
  cmd_delete {[ "property" := "prio"; "val" := "medium" ]} "again"
    (mk_world [] 2 (stdout (exec epoch_zero two_adds initial) ++ [success_line "once"]))
  = (mk_world [] 2 (stdout (exec epoch_zero two_adds initial) ++ [success_line "once"]),
     Raise TaskNotFound).
Proof.
  apply (delete_twice_finds_nothing epoch_zero two_adds
           {[ "property" := "prio"; "val" := "medium" ]} "once" "again").
  vm_compute. reflexivity.
Defined.

(** ** What the tokenizer returns *)

Lemma span_all p s : Py.all_chars p (fst (Py.span p s)) = true.
Proof.
  induction s as [|c s IH]; simpl; [done|].
  destruct (p c) eqn:Hc; [|done]. destruct (Py.span p s). simpl in *. by rewrite Hc.
Qed.

Lemma span_suffix p s : exists a, s = a +:+ snd (Py.span p s).
Proof.
  induction s as [|c s [a IH]]; simpl; [by exists EmptyString|].
  destruct (p c); [|by exists EmptyString].
  destruct (Py.span p s) as [x y]. simpl in *. exists (String c a).
  change (String c s = String c (a +:+ y)). congruence.
Qed.

Lemma occurs_app c a b : occurs c (a +:+ b) = occurs c a || occurs c b.
Proof.
  induction a as [|x a IH]; [done|].
  change (occurs c (String x (a +:+ b)) = occurs c (String x a) || occurs c b).
  simpl. by rewrite IH, orb_assoc.
Qed.

Lemma arg_pair_match_key s k v r :
  arg_pair_match s = Some (k, v, r) ->
  k <> EmptyString /\ Py.all_chars Py.is_word k = true /\ occurs "=" s = true.
Proof.
  unfold arg_pair_match.
  pose proof (span_all Py.is_word s) as Hall.
  destruct (span_suffix Py.is_word s) as [a Ha].
  destruct (Py.span Py.is_word s) as [key s1]. simpl in Hall, Ha.
  destruct key as [|c key]; [done|].
  destruct (span_suffix Py.isspace s1) as [b Hb]. unfold Py.lstrip_chars.
  destruct (snd (Py.span Py.isspace s1)) as [|e s3]; [done|].
  destruct (Ascii.eqb e "=") eqn:He; [|done].
  apply Ascii.eqb_eq in He as ->.
  assert (Hocc : occurs "=" s = true).
  { rewrite Ha, Hb, !occurs_app. simpl. by rewrite !orb_true_r. }
  destruct (snd (Py.span Py.isspace s3)) as [|q s5]; [done|].
  destruct (Py.span (fun c0 => negb (Py.isspace c0)) (String q s5)) as [vu ru].
  destruct (Py.span (fun c0 => negb (Ascii.eqb c0 q)) s5) as [vq rq].
  destruct (Ascii.eqb q Py.dquote || Ascii.eqb q Py.squote).
  - destruct rq; intros [= <- <- <-]; done.
  - intros [= <- <- <-]. done.
Qed.

Lemma finditer_keys n s :
  Forall (fun m => fst (fst m) <> EmptyString /\
                   Py.all_chars Py.is_word (fst (fst m)) = true)
         (finditer n s).
Proof.
  revert s. induction n as [|n IH]; intros s; simpl; [constructor|].
  destruct (arg_pair_match s) as [[[k v] r]|] eqn:Hm.
  - constructor; [|apply IH]. simpl.
    by destruct (arg_pair_match_key _ _ _ _ Hm) as (H1 & H2 & _).
  - destruct s; [constructor|apply IH].
Qed.

Lemma finditer_no_equals n s : occurs "=" s = false -> finditer n s = [].
Proof.
  revert s. induction n as [|n IH]; intros s Hs; simpl; [done|].
  destruct (arg_pair_match s) as [[[k v] r]|] eqn:Hm.
  - destruct (arg_pair_match_key _ _ _ _ Hm) as (_ & _ & Heq). congruence.
  - destruct s as [|c s]; [done|]. apply IH. simpl in Hs.
    by apply orb_false_iff in Hs as [_ Hs].
Qed.

Lemma last_occurrence_key k v ms :
  last_occurrence k ms = Some v -> exists r, (k, v, r) ∈ ms.
Proof.
  unfold last_occurrence. intros H.
  destruct (last (filter _ ms)) as [[[k' v'] r]|] eqn:Hlast; [|done].
  simpl in H. injection H as ->.
  apply last_Some in Hlast as [l' Hl'].
  assert (Hin : (k', v, r) ∈ filter (fun m => fst (fst m) = k) ms).
  { rewrite Hl'. apply elem_of_app. right. apply list_elem_of_here. }
  apply list_elem_of_filter in Hin as [Hk Hin]. simpl in Hk. subst k'. by exists r.
Qed.

(** X11: whenever the tokenizer returns a mapping, every key of the
    mapping is a non-empty run of word characters (letters, digits,
    underscore); and a segment that is not blank and has no equals sign
    has no token at all and is rejected with InvalidArgument. *)
Theorem tokenizer_keys_are_words (segment : string) :
  (forall args k, tokenize_args_segment segment = inr args -> is_Some (args !! k) ->
     k <> EmptyString /\ Py.all_chars Py.is_word k = true) /\
  (occurs "=" segment = false -> Py.strip segment <> EmptyString ->
   tokenize_args_segment segment = inl InvalidArgument).
Proof.
  split.
  - intros args k. unfold tokenize_args_segment, tokenize_loop.
    pose proof (tokenize_loop_run (matches_of segment) ∅ segment k) as Hrun.
    destruct (foldl _ _ (matches_of segment)) as [args' after].
    destruct Hrun as [Hk _]. destruct (Py.strip after); [|done].
    intros [= <-] [v Hv]. rewrite Hv, lookup_empty in Hk.
    destruct (last_occurrence k (matches_of segment)) as [v'|] eqn:Hlast; [|done].
    apply last_occurrence_key in Hlast as [r Hin].
    pose proof (finditer_keys (S (String.length segment)) segment) as Hall.
    rewrite Forall_forall in Hall. apply (Hall _ Hin).
  - intros Hno Hnb. unfold tokenize_args_segment, matches_of.
    rewrite finditer_no_equals by done. simpl.
    by destruct (Py.strip segment).
Qed.

(** ** Reading back rendered arguments *)

Lemma append_assoc (a b c : string) : (a +:+ b) +:+ c = a +:+ (b +:+ c).
Proof.
  induction a as [|x a IH]; [done|].
  change (String x ((a +:+ b) +:+ c) = String x (a +:+ (b +:+ c))). by rewrite IH.
Qed.

Lemma append_nil_r (a : string) : a +:+ EmptyString = a.
Proof.
  induction a as [|x a IH]; [done|].
  change (String x (a +:+ EmptyString) = String x a). by rewrite IH.
Qed.

Lemma length_append (a b : string) :
  String.length (a +:+ b) = (String.length a + String.length b)%nat.
Proof.
  induction a as [|x a IH]; [done|].
  change (S (String.length (a +:+ b)) = S (String.length a + String.length b)).
  by rewrite IH.
Qed.

Lemma span_app_stop p a c b :
  Py.all_chars p a = true -> p c = false ->
  Py.span p (a +:+ String c b) = (a, String c b).
Proof.
  intros Ha Hc. induction a as [|x a IH].
  - change (Py.span p (String c b) = (EmptyString, String c b)). simpl. by rewrite Hc.
  - change (Py.span p (String x (a +:+ String c b)) = (String x a, String c b)).
    simpl in *. apply andb_true_iff in Ha as [-> Ha]. by rewrite (IH Ha).
Qed.

Lemma occurs_all_other c s :
  occurs c s = false -> Py.all_chars (fun x => negb (Ascii.eqb x c)) s = true.
Proof.
  induction s as [|x s IH]; simpl; [done|].
  intros [-> Hs]%orb_false_iff. simpl. by apply IH.
Qed.

Lemma render_pair_app p rest :
  render_pair p +:+ rest
  = fst p +:+ String "=" (String Py.dquote (snd p +:+ String Py.dquote rest)).
Proof.
  unfold render_pair. rewrite append_assoc. f_equal.
  change (String "=" (String Py.dquote ((snd p +:+ String Py.dquote EmptyString) +:+ rest))
          = String "=" (String Py.dquote (snd p +:+ String Py.dquote rest))).
  by rewrite append_assoc.
Qed.

(** A rendered pair at the start of the text is the next match. *)
Lemma arg_pair_match_rendered p rest :
  writable p ->
  arg_pair_match (render_pair p +:+ rest) = Some (fst p, snd p, rest).
Proof.
  intros (Hne & Hword & Hquote). rewrite render_pair_app.
  unfold arg_pair_match.
  rewrite (span_app_stop Py.is_word (fst p) "=" _ Hword eq_refl).
  destruct (fst p) as [|c k] eqn:Hk; [done|].
  unfold Py.lstrip_chars. cbn [Py.span].
  change (Py.isspace "=") with false. cbn [snd].
  change (Ascii.eqb "=" "=") with true. cbv iota. cbn [Py.span].
  change (Py.isspace Py.dquote) with false. cbn [snd].
  change (Ascii.eqb Py.dquote Py.dquote) with true. cbn [orb].
  rewrite (span_app_stop _ (snd p) Py.dquote rest (occurs_all_other _ _ Hquote) eq_refl).
  done.
Qed.

Lemma length_render_pair p :
  String.length (render_pair p)
  = (String.length (fst p) + String.length (snd p) + 3)%nat.
Proof.
  unfold render_pair. rewrite length_append. simpl. rewrite length_append. simpl. lia.
Qed.

Lemma finditer_rendered ps : forall n,
  Forall writable ps -> (String.length (render ps) < n)%nat ->
  finditer n (render ps) = rendered_matches ps.
Proof.
  induction ps as [|p ps IH]; intros n Hps Hn.
  - destruct n; [lia|]. reflexivity.
  - apply Forall_cons in Hps as [Hp Hps].
    destruct n as [|n]; [lia|]. destruct ps as [|p' ps].
    + change (render [p]) with (render_pair p).
      rewrite <- (append_nil_r (render_pair p)) at 1. simpl finditer.
      rewrite (arg_pair_match_rendered p EmptyString Hp). simpl.
      by destruct n.
    + change (render (p :: p' :: ps))
        with (render_pair p +:+ String " " (render (p' :: ps))) in *.
      rewrite length_append in Hn.
      change (String.length (String " " (render (p' :: ps))))
        with (S (String.length (render (p' :: ps)))) in Hn.
      simpl finditer. rewrite (arg_pair_match_rendered p _ Hp).
      change (rendered_matches (p :: p' :: ps))
        with ((fst p, snd p, String " " (render (p' :: ps)))
              :: rendered_matches (p' :: ps)).
      f_equal. destruct n as [|n]; [lia|].
      change (finditer (S n) (String " " (render (p' :: ps))))
        with (finditer n (render (p' :: ps))).
      apply IH; [done|]. pose proof (length_render_pair p). lia.
Qed.

Lemma tokenize_loop_rendered ps : forall (acc : gmap string string) after,
  foldl (fun st m => let '(k, v, r) := m in (<[k:=v]> (fst st), r))
        (acc, after) (rendered_matches ps)
  = (foldl (fun m p => <[fst p := snd p]> m) acc ps,
     match ps with [] => after | _ :: _ => EmptyString end).
Proof.
  induction ps as [|p ps IH]; intros acc after; [done|].
  destruct ps as [|p' ps]; [done|].
  change (rendered_matches (p :: p' :: ps))
    with ((fst p, snd p, String " " (render (p' :: ps))) :: rendered_matches (p' :: ps)).
  cbn [foldl]. cbn [fst]. by rewrite IH.
Qed.

Lemma assign_in_order (ps : list (string * string)) :
  foldl (fun (m : gmap string string) p => <[fst p := snd p]> m) ∅ ps
  = list_to_map (reverse ps).
Proof.
  induction ps as [|p ps IH] using rev_ind; [done|].
  rewrite foldl_app, reverse_app. simpl. by rewrite IH.
Qed.

(** X12: arguments written as key, equals sign and the value between
    double quotes, separated by single spaces, are read back as written:
    for keys that are non-empty runs of word characters and values
    without a double quote (blank, empty and spaced values included), the
    tokenizer returns the mapping of the pairs, a later pair overriding an
    earlier one with the same key. *)
Theorem tokenizer_reads_back_rendered_arguments (ps : list (string * string)) :
  Forall writable ps ->
  tokenize_args_segment (render ps) = inr (list_to_map (reverse ps)).
Proof.
  intros Hps. unfold tokenize_args_segment, tokenize_loop, matches_of.
  rewrite (finditer_rendered ps _ Hps) by lia.
  rewrite tokenize_loop_rendered, assign_in_order.
  destruct ps; [|done]. reflexivity.
Qed.

Lemma tokenizer_reads_back_rendered_arguments_witness :
  tokenize_args_segment (render [("name", "Task A"); ("desc", EmptyString); ("name", "B")])
  = inr (list_to_map (reverse [("name", "Task A"); ("desc", EmptyString); ("name", "B")])).
Proof.
  apply tokenizer_reads_back_rendered_arguments.
  repeat constructor; simpl; discriminate.
Defined.

(** ** Comment lines *)

(** X13: a line whose first non-blank character is [#] is ignored
    without output or change when it has at most 1024 characters, whatever
    follows the [#]; a longer one fails with TooLongLine, because the
    length test comes before the comment test. *)
Theorem comment_lines_are_skipped
    (timestamp : string -> Z) (now raw : string) (w : World) :
  Py.startswith_hash (Py.strip (Py.rstrip_newline raw)) = true ->
  if (1024 <? String.length (Py.rstrip_newline raw))%nat
  then process_line timestamp now raw w = (w, Raise TooLongLine)
  else process_line timestamp now raw w = (w, Ok tt) /\
       run_line timestamp now raw w = (w, Ok tt).
Proof.
  intros Hhash. unfold run_line, try_except, process_line.
  rewrite rstrip_newline_idem.
  destruct (Py.strip (Py.rstrip_newline raw)) as [|c s] eqn:Hs; [done|].
  destruct (1024 <? String.length (Py.rstrip_newline raw))%nat; [done|].
  by rewrite Hhash.
Qed.

Lemma comment_lines_are_skipped_witness :
  process_line epoch_zero "3-11-2025 09:00:00" "  # add name=x" initial = (initial, Ok tt) /\
  run_line epoch_zero "3-11-2025 09:00:00" "  # add name=x" initial = (initial, Ok tt).
Proof.
  apply (comment_lines_are_skipped epoch_zero "3-11-2025 09:00:00" "  # add name=x" initial).
  reflexivity.
Defined.

(** ** Which errors a command can end in *)

Lemma parse_date_error s e : parse_date_str s = inl e -> e = InvalidDateFormat.
Proof.
  unfold parse_date_str. destruct (String.eqb s "NONE"); [done|].
  destruct (date_fullmatch s) as [[[d m] y]|]; [|congruence].
  destruct (make_date y m d); congruence.
Qed.

Lemma parse_bool_error s e : parse_bool_str s = inl e -> e = InvalidDoneStatus.
Proof.
  unfold parse_bool_str. destruct (_ || _); [done|]. destruct (_ || _); congruence.
Qed.

Ltac in_list := repeat first [apply list_elem_of_here | apply list_elem_of_further].

Ltac parse_errors :=
  repeat match goal with
         | H : parse_date_str _ = inl _ |- _ => apply parse_date_error in H; subst
         | H : parse_bool_str _ = inl _ |- _ => apply parse_bool_error in H; subst
         end.

Lemma cmd_add_errors now args orig w w' e :
  cmd_add now args orig w = (w', Raise e) -> e ∈ errors_of "add".
Proof.
  unfold cmd_add. mred. intros H.
  repeat (case_match; simplify_eq/=); parse_errors; in_list.
Qed.

Lemma cmd_mod_errors args orig w w' e :
  cmd_mod args orig w = (w', Raise e) -> e ∈ errors_of "mod".
Proof.
  unfold cmd_mod. mred. intros H.
  repeat (case_match; simplify_eq/=); parse_errors; in_list.
Qed.

Lemma cmd_done_errors args orig w w' e :
  cmd_done args orig w = (w', Raise e) -> e ∈ errors_of "done".
Proof.
  unfold cmd_done. mred. intros H.
  repeat (case_match; simplify_eq/=); in_list.
Qed.

Lemma cmd_delete_errors args orig w w' e :
  cmd_delete args orig w = (w', Raise e) -> e ∈ errors_of "delete".
Proof.
  unfold cmd_delete. mred. intros H.
  repeat (case_match; simplify_eq/=); in_list.
Qed.

Section Errors.

Variable timestamp : string -> Z.

Lemma cmd_print_errors args orig w w' e :
  cmd_print timestamp args orig w = (w', Raise e) -> e ∈ errors_of "print".
Proof.
  unfold cmd_print, validate_sort_args. mred. intros H.
  repeat (case_match; simplify_eq/=); try in_list.
  all: match goal with
       | H : print_header_and_tasks _ ?l ?s ?d ?w0 = _ |- _ =>
           destruct (print_header_and_tasks_table timestamp l s d w0) as (o & _ & Ho);
           congruence
       end.
Qed.

Lemma cmd_list_errors args orig w w' e :
  cmd_list timestamp args orig w = (w', Raise e) -> e ∈ errors_of "list".
Proof.
  unfold cmd_list, validate_sort_args. mred. intros H.
  repeat (case_match; simplify_eq/=); try in_list.
  all: match goal with
       | H : print_header_and_tasks _ ?l ?s ?d ?w0 = _ |- _ =>
           destruct (print_header_and_tasks_table timestamp l s d w0) as (o & _ & Ho);
           congruence
       end.
Qed.

Lemma dispatch_errors now cmd args orig w w' e :
  dispatch timestamp now cmd args orig w = (w', Raise e) -> e ∈ errors_of cmd.
Proof.
  unfold dispatch, errors_of.
  destruct (String.eqb cmd "help").
  { unfold bind, when_raise.
    destruct (negb (bool_decide (args = ∅))); unfold raise, ret; cbv beta iota.
    - intros [= <- <-]. in_list.
    - by rewrite cmd_help_spec. }
  destruct (String.eqb cmd "print"); [apply cmd_print_errors|].
  destruct (String.eqb cmd "add"); [apply cmd_add_errors|].
  destruct (String.eqb cmd "list"); [apply cmd_list_errors|].
  destruct (String.eqb cmd "mod"); [apply cmd_mod_errors|].
  destruct (String.eqb cmd "done"); [apply cmd_done_errors|].
  destruct (String.eqb cmd "delete"); [apply cmd_delete_errors|].
  intros [= <- <-]. in_list.
Qed.

Lemma raises_intro cmd args w e :
  (dispatch timestamp EmptyString cmd args EmptyString w).2 = Raise e ->
  exists now args' orig w0 w',
    dispatch timestamp now cmd args' orig w0 = (w', Raise e).
Proof.
  intros H. exists EmptyString, args, EmptyString, w.
  destruct (dispatch timestamp EmptyString cmd args EmptyString w) as [w' r].
  exists w'. simpl in H. by subst.
Qed.

Ltac attain args w := apply (raises_intro _ args w); vm_compute; reflexivity.

Ltac attain_any :=
  let w1 := constr:(mk_world [task_a] 1 []) in
  first
    [ attain (∅ : gmap string string) initial
    | attain ({[ "x" := "1" ]} : gmap string string) initial
    | attain ({[ "name" := "5" ]} : gmap string string) initial
    | attain ({[ "name" := "a"; "rep" := "X" ]} : gmap string string) initial
    | attain ({[ "name" := "a"; "prio" := "X" ]} : gmap string string) initial
    | attain ({[ "name" := "a"; "due" := "X" ]} : gmap string string) initial
    | attain ({[ "sort_by" := "x" ]} : gmap string string) initial
    | attain ({[ "property" := "x"; "val" := "1" ]} : gmap string string) initial
    | attain ({[ "id" := "x" ]} : gmap string string) initial
    | attain ({[ "id" := "0" ]} : gmap string string) initial
    | attain ({[ "id" := "x"; "property" := "name"; "new_val" := "a" ]}
               : gmap string string) initial
    | attain ({[ "id" := "0"; "property" := "x"; "new_val" := "a" ]}
               : gmap string string) w1
    | attain ({[ "id" := "0"; "property" := "name"; "new_val" := "a" ]}
               : gmap string string) initial
    | attain ({[ "id" := "0"; "property" := "due"; "new_val" := "X" ]}
               : gmap string string) w1
    | attain ({[ "id" := "0"; "property" := "rep"; "new_val" := "X" ]}
               : gmap string string) w1
    | attain ({[ "id" := "0"; "property" := "prio"; "new_val" := "X" ]}
               : gmap string string) w1
    | attain ({[ "id" := "0"; "property" := "done"; "new_val" := "X" ]}
               : gmap string string) w1 ].

(** X14: the error kinds a command can end in are exactly those its
    handler names: help in TooManyArguments; print in TooManyArguments or
    InvalidArgument; add in TooManyArguments, MissingArguments,
    InvalidArgumentType, InvalidRepeat, InvalidPriority or
    InvalidDateFormat; list in TooManyArguments, MissingArguments or
    InvalidArgument; done in TooManyArguments, MissingArguments,
    InvalidArgumentType or TaskNotFound; delete in those four or
    InvalidArgument; mod in those five or InvalidDateFormat,
    InvalidRepeat, InvalidPriority, InvalidDoneStatus; any other command
    word in InvalidArgument only.  Each listed kind is reached by some
    arguments and store, and UnknownCommand and TooLongLine come from no
    command. *)
Theorem commands_raise_exactly_their_errors (cmd : string) (e : Error) :
  (e ∈ errors_of cmd <->
   exists now args orig w w',
     dispatch timestamp now cmd args orig w = (w', Raise e)) /\
  (UnknownCommand ∉ errors_of cmd) /\ (TooLongLine ∉ errors_of cmd).
Proof.
  split.
  - split; [|intros (now & args & orig & w & w' & H); by eapply dispatch_errors].
    unfold errors_of.
    destruct (String.eqb cmd "help") eqn:E1;
      [apply String.eqb_eq in E1; subst cmd|].
    { intros Hin.
      repeat (apply elem_of_cons in Hin as [->|Hin]; [attain_any|]).
      by apply elem_of_nil in Hin. }
    destruct (String.eqb cmd "print") eqn:E2;
      [apply String.eqb_eq in E2; subst cmd|].
    { intros Hin.
      repeat (apply elem_of_cons in Hin as [->|Hin]; [attain_any|]).
      by apply elem_of_nil in Hin. }
    destruct (String.eqb cmd "add") eqn:E3;
      [apply String.eqb_eq in E3; subst cmd|].
    { intros Hin.
      repeat (apply elem_of_cons in Hin as [->|Hin]; [attain_any|]).
      by apply elem_of_nil in Hin. }
    destruct (String.eqb cmd "list") eqn:E4;
      [apply String.eqb_eq in E4; subst cmd|].
    { intros Hin.
      repeat (apply elem_of_cons in Hin as [->|Hin]; [attain_any|]).
      by apply elem_of_nil in Hin. }
    destruct (String.eqb cmd "mod") eqn:E5;
      [apply String.eqb_eq in E5; subst cmd|].
    { intros Hin.
      repeat (apply elem_of_cons in Hin as [->|Hin]; [attain_any|]).
      by apply elem_of_nil in Hin. }
    destruct (String.eqb cmd "done") eqn:E6;
      [apply String.eqb_eq in E6; subst cmd|].
    { intros Hin.
      repeat (apply elem_of_cons in Hin as [->|Hin]; [attain_any|]).
      by apply elem_of_nil in Hin. }
    destruct (String.eqb cmd "delete") eqn:E7;
      [apply String.eqb_eq in E7; subst cmd|].
    { intros Hin.
      repeat (apply elem_of_cons in Hin as [->|Hin]; [attain_any|]).
      by apply elem_of_nil in Hin. }
    intros Hin. apply elem_of_cons in Hin as [->|Hin];
      [|by apply elem_of_nil in Hin].
    exists EmptyString, (∅ : gmap string string), EmptyString, initial, initial.
    unfold dispatch. by rewrite E1, E2, E3, E4, E5, E6, E7.
  - unfold errors_of.
    split; intros Hin; repeat case_match;
      repeat (apply elem_of_cons in Hin as [?|Hin]; [done|]);
      by apply elem_of_nil in Hin.
Qed.

End Errors.

(** ** Due dates sort in calendar order *)

Lemma parse_date_valid s dt :
  parse_date_str s = inr (Some dt) ->
  1 <= year dt <= 9999 /\ 1 <= month dt <= 12 /\
  1 <= day dt <= days_in_month (year dt) (month dt).
Proof.
  unfold parse_date_str. destruct (String.eqb s "NONE"); [done|].
  destruct (date_fullmatch s) as [[[d m] y]|]; [|done].
  unfold make_date.
  destruct (_ && _) eqn:E; [|done]. intros [= <-]. simpl.
  repeat (apply andb_prop in E as [E ?]). lia.
Qed.

Lemma days_before_year_succ y :
  days_before_year (y + 1) =
  days_before_year y + 365 + (if is_leap y then 1 else 0).
Proof.
  unfold days_before_year, is_leap. cbv zeta.
  replace (y + 1 - 1) with y by lia.
  destruct (Z.eqb_spec (y mod 4) 0), (Z.eqb_spec (y mod 100) 0),
    (Z.eqb_spec (y mod 400) 0); cbn [negb andb orb];
    Z.div_mod_to_equations; lia.
Qed.

Lemma days_before_year_mono y1 y2 :
  y1 <= y2 -> days_before_year y1 <= days_before_year y2.
Proof.
  intros H. replace y2 with (y1 + Z.of_nat (Z.to_nat (y2 - y1))) by lia.
  induction (Z.to_nat (y2 - y1)) as [|n IH].
  - replace (y1 + Z.of_nat 0) with y1 by lia. lia.
  - replace (y1 + Z.of_nat (S n)) with (y1 + Z.of_nat n + 1) by lia.
    rewrite days_before_year_succ. destruct (is_leap _); lia.
Qed.

Lemma month_cases m :
  1 <= m <= 12 ->
  m = 1 \/ m = 2 \/ m = 3 \/ m = 4 \/ m = 5 \/ m = 6 \/
  m = 7 \/ m = 8 \/ m = 9 \/ m = 10 \/ m = 11 \/ m = 12.
Proof. lia. Qed.

Ltac eval_days :=
  repeat match goal with
         | |- context [fold_right ?f ?a ?l] =>
             let v := eval vm_compute in (fold_right f a l) in
             change (fold_right f a l) with v
         end.

Lemma day_of_year_bounds y m d :
  1 <= m <= 12 -> 1 <= d <= days_in_month y m ->
  1 <= days_before_month y m + d <= 365 + (if is_leap y then 1 else 0).
Proof.
  intros Hm Hd. apply month_cases in Hm.
  destruct Hm as [->|[->|[->|[->|[->|[->|[->|[->|[->|[->|[->| ->]]]]]]]]]]];
    revert Hd; unfold days_before_month, days_in_month;
    generalize (is_leap y); intros leap; destruct leap;
    cbn; eval_days; lia.
Qed.

Lemma day_of_year_mono y m1 d1 m2 d2 :
  1 <= m1 <= 12 -> 1 <= d1 <= days_in_month y m1 ->
  1 <= m2 <= 12 -> 1 <= d2 <= days_in_month y m2 ->
  m1 < m2 \/ (m1 = m2 /\ d1 < d2) ->
  days_before_month y m1 + d1 < days_before_month y m2 + d2.
Proof.
  intros Hm1 Hd1 Hm2 Hd2 [Hlt|[-> Hlt]]; [|lia].
  apply month_cases in Hm1, Hm2.
  destruct Hm1 as [->|[->|[->|[->|[->|[->|[->|[->|[->|[->|[->| ->]]]]]]]]]]];
    destruct Hm2 as [->|[->|[->|[->|[->|[->|[->|[->|[->|[->|[->| ->]]]]]]]]]]];
    try lia; clear Hlt;
    revert Hd1 Hd2; unfold days_before_month, days_in_month;
    generalize (is_leap y); intros leap; destruct leap;
    cbn; eval_days; lia.
Qed.

Lemma toordinal_earlier a b :
  1 <= month a <= 12 -> 1 <= day a <= days_in_month (year a) (month a) ->
  1 <= month b <= 12 -> 1 <= day b <= days_in_month (year b) (month b) ->
  earlier a b -> toordinal a < toordinal b.
Proof.
  intros Hma Hda Hmb Hdb [Hy|[Hy Hmd]]; unfold toordinal.
  - pose proof (day_of_year_bounds _ _ _ Hma Hda) as Ha.
    pose proof (day_of_year_bounds _ _ _ Hmb Hdb) as Hb.
    pose proof (days_before_year_succ (year a)) as Hs.
    pose proof (days_before_year_mono (year a + 1) (year b)) as Hmono.
    lia.
  - rewrite Hy in *.
    pose proof (day_of_year_mono _ _ _ _ _ Hma Hda Hmb Hdb Hmd). lia.
Qed.

(** X15: sorting by due puts real dates in calendar order: of two tasks
    in the table whose due dates are real, the one with the earlier date
    (by year, then month, then day) comes first, and last when the
    direction is desc. *)
Theorem due_dates_sort_in_calendar_order
    (timestamp : string -> Z) (tasks : list Task) (direction : string)
    (i j : nat) (a b : Task) (da db : date) :
  sorted_tasks timestamp tasks "due" direction !! i = Some a ->
  sorted_tasks timestamp tasks "due" direction !! j = Some b ->
  parse_date_str (t_due a) = inr (Some da) ->
  parse_date_str (t_due b) = inr (Some db) ->
  earlier da db ->
  if String.eqb direction "desc" then (j < i)%nat else (i < j)%nat.
Proof.
  intros Hi Hj Ha Hb Hab.
  pose proof (due_key_real timestamp a da Ha) as Ka.
  pose proof (due_key_real timestamp b db Hb) as Kb.
  destruct (parse_date_valid _ _ Ha) as (_ & Hma & Hda).
  destruct (parse_date_valid _ _ Hb) as (_ & Hmb & Hdb).
  pose proof (toordinal_earlier _ _ Hma Hda Hmb Hdb Hab) as Hlt.
  assert (Hk : key_lt (sort_key_func timestamp "due" a)
                      (sort_key_func timestamp "due" b) = true).
  { rewrite Ka, Kb. simpl. lia. }
  assert (Hne : i <> j).
  { intros ->. rewrite Hi in Hj. injection Hj as ->.
    rewrite Ka in Kb. injection Kb as Hk'. lia. }
  unfold sorted_tasks in *. destruct (String.eqb direction "desc").
  - destruct (decide (j < i)%nat) as [|Hge]; [done|]. exfalso.
    assert (Hij : (i < j)%nat) by lia.
    pose proof (StronglySorted_lookup_lt _ _ i j a b
                  (sorted_desc _ (sort_key_total timestamp "due") tasks) Hi Hj Hij) as H.
    unfold flip in H. cbv beta in H. congruence.
  - destruct (decide (i < j)%nat) as [|Hge]; [done|]. exfalso.
    assert (Hji : (j < i)%nat) by lia.
    pose proof (StronglySorted_lookup_lt _ _ j i b a
                  (sorted_asc _ (sort_key_total timestamp "due") tasks) Hj Hi Hji) as H.
    cbv beta in H. congruence.
Qed.

Lemma due_dates_sort_in_calendar_order_witness :
  (if String.eqb "asc" "desc" then (1 < 0)%nat else (0 < 1)%nat) /\
  (if String.eqb "desc" "desc" then (0 < 1)%nat else (1 < 0)%nat).
Proof.
  split.
  - apply (due_dates_sort_in_calendar_order epoch_zero
             [task_a; set_due "1-3-2025" task_b] "asc" 0 1
             (set_due "1-3-2025" task_b) task_a
             (mk_date 2025 3 1) (mk_date 2025 10 5));
      [reflexivity | reflexivity | vm_compute; reflexivity
      | vm_compute; reflexivity | right; simpl; lia].
  - apply (due_dates_sort_in_calendar_order epoch_zero
             [task_a; set_due "1-3-2025" task_b] "desc" 1 0
             (set_due "1-3-2025" task_b) task_a
             (mk_date 2025 3 1) (mk_date 2025 10 5));
      [reflexivity | reflexivity | vm_compute; reflexivity
      | vm_compute; reflexivity | right; simpl; lia].
Defined.

(** ** Output is only appended to, and [clear_state] starts afresh *)

Lemma appends_ret {A} (a : A) : appends_only (ret a).
Proof. done. Qed.

Lemma appends_raise {A} e : appends_only (@raise A e).
Proof. done. Qed.

Lemma appends_bind {A B} (m : M A) (k : A -> M B) :
  appends_only m -> (forall a, appends_only (k a)) -> appends_only (bind m k).
Proof.
  intros Hm Hk p w. unfold bind. rewrite Hm.
  destruct (m w) as [w' [a|e]]; simpl; [apply Hk|done].
Qed.

Lemma appends_try_except {A} (m : M A) (h : Error -> M A) :
  appends_only m -> (forall e, appends_only (h e)) -> appends_only (try_except m h).
Proof.
  intros Hm Hh p w. unfold try_except. rewrite Hm.
  destruct (m w) as [w' [a|e]]; simpl; [done|apply Hh].
Qed.

Lemma appends_lift {A} (r : Error + A) : appends_only (lift r).
Proof. by destruct r. Qed.

Lemma appends_when_raise b e : appends_only (when_raise b e).
Proof. by destruct b. Qed.

Lemma appends_check_allowed allowed args : appends_only (check_allowed allowed args).
Proof. apply appends_when_raise. Qed.

Lemma appends_get_tasks : appends_only get_tasks.
Proof. done. Qed.

Lemma appends_get_next_id : appends_only get_next_id.
Proof. done. Qed.

Lemma appends_set_tasks l : appends_only (set_tasks l).
Proof. done. Qed.

Lemma appends_set_next_id n : appends_only (set_next_id n).
Proof. done. Qed.

Lemma appends_print s : appends_only (print s).
Proof.
  intros p w. unfold print, printed_before. simpl. by rewrite app_assoc.
Qed.

Ltac appends_step :=
  first
    [ apply appends_ret | apply appends_raise | apply appends_lift
    | apply appends_when_raise | apply appends_check_allowed
    | apply appends_get_tasks | apply appends_get_next_id
    | apply appends_set_tasks | apply appends_set_next_id
    | apply appends_print
    | apply appends_bind; [|intros ?]
    | match goal with
      | |- appends_only (if ?b then _ else _) => destruct b
      | |- appends_only (match ?x with _ => _ end) => destruct x
      end ].

Lemma appends_print_all ls : appends_only (print_all ls).
Proof. induction ls; simpl; repeat appends_step. done. Qed.

Lemma appends_print_rows ts : appends_only (print_rows ts).
Proof. induction ts; simpl; repeat appends_step. done. Qed.

Lemma appends_assign i f : appends_only (assign i f).
Proof. unfold assign. repeat appends_step. Qed.

Lemma appends_cmd_add now args orig : appends_only (cmd_add now args orig).
Proof. unfold cmd_add. repeat appends_step. Qed.

Lemma appends_cmd_mod args orig : appends_only (cmd_mod args orig).
Proof. unfold cmd_mod. repeat first [apply appends_assign | appends_step]. Qed.

Lemma appends_cmd_done args orig : appends_only (cmd_done args orig).
Proof. unfold cmd_done. repeat first [apply appends_assign | appends_step]. Qed.

Lemma appends_cmd_delete args orig : appends_only (cmd_delete args orig).
Proof. unfold cmd_delete. repeat appends_step. Qed.

Lemma appends_cmd_help args orig : appends_only (cmd_help args orig).
Proof. unfold cmd_help. repeat first [apply appends_print_all | appends_step]. Qed.

Section Output.

Variable timestamp : string -> Z.

Lemma appends_print_header_and_tasks l s d :
  appends_only (print_header_and_tasks timestamp l s d).
Proof.
  unfold print_header_and_tasks. repeat first [apply appends_print_rows | appends_step].
Qed.

Lemma appends_cmd_print args orig : appends_only (cmd_print timestamp args orig).
Proof.
  unfold cmd_print, validate_sort_args.
  repeat first [apply appends_print_header_and_tasks | appends_step].
Qed.

Lemma appends_cmd_list args orig : appends_only (cmd_list timestamp args orig).
Proof.
  unfold cmd_list, validate_sort_args.
  repeat first [apply appends_print_header_and_tasks | appends_step].
Qed.

Lemma appends_dispatch now cmd args orig :
  appends_only (dispatch timestamp now cmd args orig).
Proof.
  unfold dispatch.
  repeat first
    [ apply appends_cmd_help | apply appends_cmd_print | apply appends_cmd_add
    | apply appends_cmd_list | apply appends_cmd_mod | apply appends_cmd_done
    | apply appends_cmd_delete | appends_step ].
Qed.

Lemma appends_process_line now raw : appends_only (process_line timestamp now raw).
Proof.
  unfold process_line. cbv zeta.
  repeat first [apply appends_try_except; [|intros ?] | apply appends_dispatch | appends_step].
Qed.

Lemma appends_run_line now raw : appends_only (run_line timestamp now raw).
Proof.
  unfold run_line. cbv zeta.
  apply appends_try_except; [apply appends_process_line|intros ?; apply appends_print].
Qed.

Lemma appends_run_lines inputs : appends_only (run_lines timestamp inputs).
Proof.
  induction inputs as [|[now raw] rest IH]; simpl; [apply appends_ret|].
  apply appends_bind; [apply appends_run_line|done].
Qed.

(** X16: after [clear_state] a run behaves as in a fresh process: it
    leaves the store and the id counter a run from the empty store
    leaves, and prints the same lines, after what had been printed
    before. *)
Theorem clear_state_starts_afresh
    (inputs : list (string * string)) (w : World) :
  let w1 := exec timestamp inputs (clear_state w).1 in
  let w0 := exec timestamp inputs initial in
  _tasks w1 = _tasks w0 /\ _next_id w1 = _next_id w0 /\
  stdout w1 = stdout w ++ stdout w0.
Proof.
  cbv zeta. unfold exec, clear_state. cbn [fst].
  replace (mk_world [] 0 (stdout w)) with (printed_before (stdout w) initial)
    by (unfold printed_before; simpl; by rewrite app_nil_r).
  rewrite (appends_run_lines inputs (stdout w) initial). done.
Qed.

End Output.

(** ** What an error line tells *)

Lemma error_line_inj e l e' l' :
  error_line e l = error_line e' l' -> e = e' /\ l = l'.
Proof.
  unfold error_line. destruct e, e'; simpl; intros H; by simplify_eq.
Qed.

Lemma errors_of_known cmd e :
  e ∈ errors_of cmd -> e <> UnknownCommand /\ e <> TooLongLine.
Proof.
  unfold errors_of. intros Hin.
  repeat case_match;
    repeat (apply elem_of_cons in Hin as [->|Hin]; [by split|]);
    by apply elem_of_nil in Hin.
Qed.

Section ErrorLines.

Variable timestamp : string -> Z.

Lemma try_dispatch_kinds now cmd args line w :
  exists w',
    try_except (dispatch timestamp now cmd args line)
               (fun e => print (error_line e line)) w = (w', Ok tt) /\
    ((exists e, w' = with_output w [error_line e line] /\ e ∈ errors_of cmd) \/
     (exists out, stdout w' = stdout w ++ success_line line :: out)).
Proof.
  unfold try_except.
  destruct (dispatch_spec timestamp now cmd args line w)
    as [[e He]|(w2 & out & Hrun & Hout & _)].
  - rewrite He. eexists. split; [reflexivity|]. left. exists e.
    split; [done|]. by eapply dispatch_errors.
  - rewrite Hrun. exists w2. split; [done|]. right. by exists out.
Qed.

Lemma run_line_kinds now raw w :
  let line := Py.rstrip_newline raw in
  let w' := (run_line timestamp now raw w).1 in
  w' = w \/
  (exists e,
     w' = with_output w [error_line e line] /\
     e <> UnknownCommand /\
     (e = TooLongLine <-> (1024 < String.length line)%nat) /\
     (forall cmd after,
        command_word line = Some (cmd, after) ->
        (String.length line <= 1024)%nat ->
        e = InvalidArgument \/ e ∈ errors_of cmd)) \/
  (exists out, stdout w' = stdout w ++ success_line line :: out).
Proof.
  intros line w'.
  assert (Hw' : (run_line timestamp now raw w).1 = w') by done.
  clearbody w'. revert Hw'. unfold run_line, process_line.
  rewrite rstrip_newline_idem. fold line. unfold try_except at 1.
  destruct (Py.strip line) eqn:Hs; [intros <-; by left|]. rewrite <- Hs. clear Hs.
  destruct (1024 <? String.length line)%nat eqn:Hlen.
  { intros <-. right; left. exists TooLongLine. apply Nat.ltb_lt in Hlen.
    repeat split; try done. intros; lia. }
  apply Nat.ltb_ge in Hlen.
  destruct (Py.startswith_hash _); [intros <-; by left|].
  destruct (command_word line) as [[cmd after]|] eqn:Hcw.
  2:{ intros <-. right; left. exists InvalidArgument.
      repeat split; try done. intros; lia. }
  assert (Hrun : forall args,
    (try_except (dispatch timestamp now cmd args line)
                (fun e => print (error_line e line)) w).1 = w' ->
    w' = w \/
    (exists e,
       w' = with_output w [error_line e line] /\
       e <> UnknownCommand /\
       (e = TooLongLine <-> (1024 < String.length line)%nat) /\
       (forall cmd' after',
          Some (cmd, after) = Some (cmd', after') ->
          (String.length line <= 1024)%nat ->
          e = InvalidArgument \/ e ∈ errors_of cmd')) \/
    (exists out, stdout w' = stdout w ++ success_line line :: out)).
  { intros args.
    destruct (try_dispatch_kinds now cmd args line w)
      as (w2 & -> & [(e & -> & Hin)|[out Hout]]); simpl; intros <-.
    - right; left. exists e. destruct (errors_of_known _ _ Hin) as [? ?].
      repeat split; try done.
      + intros; lia.
      + intros cmd' after' [= <- <-] _. by right.
    - right; right. by exists out. }
  unfold bind. destruct (Py.strip after) as [|c rest].
  - unfold ret. intros Hw'. apply (Hrun ∅).
    destruct (try_dispatch_kinds now cmd ∅ line w) as (w2 & Hw2 & _).
    by rewrite Hw2 in *.
  - destruct (tokenize_args_segment (String c rest)) as [e|args] eqn:Htok.
    + apply tokenize_error in Htok as ->. simpl. intros <-.
      right; left. exists InvalidArgument. repeat split; try done.
      * intros; lia.
      * intros; by left.
    + simpl. unfold ret. intros Hw'. apply (Hrun args).
      destruct (try_dispatch_kinds now cmd args line w) as (w2 & Hw2 & _).
      by rewrite Hw2 in *.
Qed.

(** X17: an error line in the output of a line tells what happened: it
    is the only thing the line printed, it echoes the line without its
    line end, and its kind is the error that was raised, which is never
    UnknownCommand, is TooLongLine exactly when the line has more than
    1024 characters, and for a shorter line that starts with a command
    word is InvalidArgument (from the argument syntax) or one of the
    kinds of that command. *)
Theorem error_line_tells_the_error
    (now raw : string) (w : World) (e : Error) (l : string) (out : list string) :
  stdout (run_line timestamp now raw w).1 = stdout w ++ error_line e l :: out ->
  let line := Py.rstrip_newline raw in
  l = line /\ out = [] /\ e <> UnknownCommand /\
  (e = TooLongLine <-> (1024 < String.length line)%nat) /\
  (forall cmd after,
     command_word line = Some (cmd, after) ->
     (String.length line <= 1024)%nat ->
     e = InvalidArgument \/ e ∈ errors_of cmd).
Proof.
  intros H line.
  destruct (run_line_kinds now raw w) as [Hw|[(e' & Hw & Hk)|[out' Hout]]].
  - rewrite Hw in H. apply (f_equal length) in H.
    rewrite length_app in H. simpl in H. lia.
  - rewrite Hw in H. simpl in H. apply app_inv_head in H.
    assert (Hx : error_line e' (Py.rstrip_newline raw) = error_line e l)
      by congruence.
    assert (Ho : out = []) by congruence.
    apply error_line_inj in Hx as [-> <-].
    by repeat split; try apply Hk.
  - rewrite Hout in H. apply app_inv_head in H.
    assert (Hx : success_line (Py.rstrip_newline raw) = error_line e l)
      by congruence.
    by apply success_not_error in Hx.
Qed.

End ErrorLines.

Lemma error_line_tells_the_error_witness :
  "done id=7" = Py.rstrip_newline "done id=7" /\ ([] : list string) = [] /\
  TaskNotFound <> UnknownCommand /\
  (TaskNotFound = TooLongLine <->
   (1024 < String.length (Py.rstrip_newline "done id=7"))%nat) /\
  (forall cmd after,
     command_word (Py.rstrip_newline "done id=7") = Some (cmd, after) ->
     (String.length (Py.rstrip_newline "done id=7") <= 1024)%nat ->
     TaskNotFound = InvalidArgument \/ TaskNotFound ∈ errors_of cmd).
Proof.
  apply (error_line_tells_the_error epoch_zero "3-11-2025 09:00:02" "done id=7"
           (exec epoch_zero two_adds initial) TaskNotFound "done id=7" []).
  vm_compute. reflexivity.
Defined.

(** ** Printing a due date and reading it back *)

Lemma numbers_all (P : Z -> bool) lo hi x :
  forallb P (numbers lo hi) = true -> lo <= x < hi -> P x = true.
Proof.
  intros Hall Hx. rewrite forallb_forall in Hall. apply Hall.
  unfold numbers. apply in_map_iff. exists (Z.to_nat (x - lo)).
  split; [lia|]. apply in_seq. lia.
Qed.

Lemma two_digits n :
  0 <= n < 100 -> two_digits_of n (zfill 2 (Py.str_int n)) = true.
Proof.
  apply (numbers_all (fun n => two_digits_of n (zfill 2 (Py.str_int n))) 0 100).
  vm_compute. reflexivity.
Qed.

Lemma four_digits_padded n :
  0 <= n < 10000 -> four_digits_of n (zfill 4 (Py.str_int n)) = true.
Proof.
  apply (numbers_all (fun n => four_digits_of n (zfill 4 (Py.str_int n))) 0 10000).
  vm_compute. reflexivity.
Qed.

Lemma four_digits_plain n :
  1000 <= n < 10000 -> four_digits_of n (Py.str_int n) = true.
Proof.
  apply (numbers_all (fun n => four_digits_of n (Py.str_int n)) 1000 10000).
  vm_compute. reflexivity.
Qed.

Lemma short_year n :
  0 <= n < 1000 -> (String.length (Py.str_int n) =? 4)%nat = false.
Proof.
  intros H. apply negb_true_iff. revert H.
  apply (numbers_all (fun n => negb (String.length (Py.str_int n) =? 4)%nat) 0 1000).
  vm_compute. reflexivity.
Qed.

Lemma date_fullmatch_digits d m sd sm sy :
  two_digits_of d sd = true -> two_digits_of m sm = true ->
  date_fullmatch (sd +:+ "-" +:+ sm +:+ "-" +:+ sy) =
  if (String.length sy =? 4)%nat && Py.all_chars Py.is_digit sy
  then Some (d, m, digits_value 0 sy) else None.
Proof.
  unfold two_digits_of. intros Hd Hm.
  destruct sd as [|a [|b [|]]]; try done.
  destruct sm as [|a' [|b' [|]]]; try done.
  apply andb_prop in Hd as [Hd Hdv]. apply andb_prop in Hd as [Ha Hb].
  apply andb_prop in Hm as [Hm Hmv]. apply andb_prop in Hm as [Ha' Hb'].
  apply Z.eqb_eq in Hdv, Hmv.
  unfold date_fullmatch. cbv [String.append]. cbn [digits_1_2].
  rewrite Ha, Hb. cbv [mbind option_bind expect_hyphen]. simpl Ascii.eqb. cbv iota.
  cbn [digits_1_2]. rewrite Ha', Hb'.
  cbv [mbind option_bind expect_hyphen]. simpl Ascii.eqb. cbv iota.
  rewrite Hdv, Hmv.
  reflexivity.
Qed.

Lemma parse_rendered d m sd sm sy :
  two_digits_of d sd = true -> two_digits_of m sm = true ->
  parse_date_str (sd +:+ "-" +:+ sm +:+ "-" +:+ sy) =
  if (String.length sy =? 4)%nat && Py.all_chars Py.is_digit sy
  then match make_date (digits_value 0 sy) m d with
       | Some dt => inr (Some dt)
       | None => inl InvalidDateFormat
       end
  else inl InvalidDateFormat.
Proof.
  intros Hd Hm. unfold parse_date_str.
  rewrite (date_fullmatch_digits d m sd sm sy Hd Hm).
  assert (Hne : String.eqb (sd +:+ "-" +:+ sm +:+ "-" +:+ sy) "NONE" = false).
  { unfold two_digits_of in Hd. destruct sd as [|a [|b [|]]]; try done.
    apply andb_prop in Hd as [Hd _]. apply andb_prop in Hd as [Ha _].
    cbv [String.append]. simpl String.eqb.
    destruct (Ascii.eqb_spec a "N"); [subst; discriminate|done]. }
  rewrite Hne. by destruct (_ && _).
Qed.

(** X18: a due date written by [format_due_for_print] is read back by
    [parse_date_str] as the same date, and the text written for no date
    as no date, provided the year is written in four digits: always
    where years are padded, and from the year 1000 on where they are
    not.  Where they are not padded, the text of an earlier year is
    rejected with InvalidDateFormat. *)
Theorem printed_due_date_reads_back (pad_year : bool) (d : date) :
  make_date (year d) (month d) (day d) = Some d ->
  parse_date_str (format_due_for_print pad_year None) = inr None /\
  parse_date_str (format_due_for_print pad_year (Some d)) =
  if pad_year || (1000 <=? year d) then inr (Some d) else inl InvalidDateFormat.
Proof.
  intros Hv. split; [reflexivity|].
  assert (Hb : 1 <= year d <= 9999 /\ 1 <= month d <= 12 /\ 1 <= day d <= 31).
  { unfold make_date in Hv. destruct (_ && _) eqn:E in Hv; [|done].
    repeat (apply andb_prop in E as [E ?]).
    assert (days_in_month (year d) (month d) <= 31).
    { unfold days_in_month. repeat case_match; lia. }
    lia. }
  destruct Hb as (Hy & Hm & Hd).
  unfold format_due_for_print, strftime_dmY.
  rewrite (parse_rendered (day d) (month d)) by (apply two_digits; lia).
  destruct pad_year; cbn [orb].
  - assert (H4 : four_digits_of (year d) (zfill 4 (Py.str_int (year d))) = true)
      by (apply four_digits_padded; lia).
    apply andb_prop in H4 as [E Hval]. apply Z.eqb_eq in Hval.
    by rewrite E, Hval, Hv.
  - destruct (Z.leb_spec 1000 (year d)) as [Hge|Hlt].
    + assert (H4 : four_digits_of (year d) (Py.str_int (year d)) = true)
        by (apply four_digits_plain; lia).
      apply andb_prop in H4 as [E Hval]. apply Z.eqb_eq in Hval.
      by rewrite E, Hval, Hv.
    + rewrite short_year by lia. done.
Qed.

Lemma printed_due_date_reads_back_witness :
  parse_date_str (format_due_for_print false None) = inr None /\
  parse_date_str (format_due_for_print false (Some (mk_date 2025 10 5))) =
  (if false || (1000 <=? 2025) then inr (Some (mk_date 2025 10 5))
   else inl InvalidDateFormat).
Proof.
  apply (printed_due_date_reads_back false (mk_date 2025 10 5)). reflexivity.
Defined.

(** ** The creation time is read back from its text *)

Lemma split_on_cons sep s : exists p ps, split_on sep s = p :: ps.
Proof.
  induction s as [|a r (p & ps & IH)]; simpl; [by eauto|].
  destruct (Ascii.eqb a sep); [by eauto|]. rewrite IH. eauto.
Qed.

Lemma split_on_whole sep s :
  Py.all_chars (fun a => negb (Ascii.eqb a sep)) s = true ->
  split_on sep s = [s].
Proof.
  induction s as [|a r IH]; simpl; [done|].
  intros [Ha Hr]%andb_prop. apply negb_true_iff in Ha. rewrite Ha, IH; done.
Qed.

Lemma split_on_app sep s1 s2 :
  Py.all_chars (fun a => negb (Ascii.eqb a sep)) s1 = true ->
  split_on sep (s1 +:+ String sep s2) = s1 :: split_on sep s2.
Proof.
  induction s1 as [|a r IH]; intros H.
  - change (EmptyString +:+ String sep s2) with (String sep s2). simpl.
    by rewrite Ascii.eqb_refl.
  - change (String a r +:+ String sep s2) with (String a (r +:+ String sep s2)).
    simpl in *. apply andb_prop in H as [Ha Hr]. apply negb_true_iff in Ha.
    rewrite Ha, IH; done.
Qed.

Lemma all_chars_app p s1 s2 :
  Py.all_chars p (s1 +:+ s2) = Py.all_chars p s1 && Py.all_chars p s2.
Proof.
  induction s1 as [|a r IH].
  - done.
  - change (String a r +:+ s2) with (String a (r +:+ s2)). simpl.
    by rewrite IH, andb_assoc.
Qed.

Lemma all_chars_impl (p q : ascii -> bool) s :
  (forall a, p a = true -> q a = true) ->
  Py.all_chars p s = true -> Py.all_chars q s = true.
Proof.
  intros Hpq. induction s as [|a r IH]; simpl; [done|].
  intros [Ha Hr]%andb_prop. by rewrite (Hpq a Ha), IH.
Qed.

Lemma digits_without sep s :
  Py.is_digit sep = false ->
  Py.all_chars Py.is_digit s = true ->
  Py.all_chars (fun a => negb (Ascii.eqb a sep)) s = true.
Proof.
  intros Hsep. apply all_chars_impl. intros a Ha.
  destruct (Ascii.eqb_spec a sep); [congruence|done].
Qed.

Lemma reads_as_digits n s : reads_as n s = true -> Py.all_chars Py.is_digit s = true.
Proof. unfold reads_as. by intros [? _]%andb_prop. Qed.

Lemma reads_as_int n s : reads_as n s = true -> Py.int s = Some n.
Proof.
  unfold reads_as. intros [_ H]%andb_prop.
  destruct (Py.int s) as [v|]; [|done]. by apply Z.eqb_eq in H as ->.
Qed.

Lemma number_reads_back n : 0 <= n < 10000 -> reads_as n (Py.str_int n) = true.
Proof.
  apply (numbers_all (fun n => reads_as n (Py.str_int n)) 0 10000).
  vm_compute. reflexivity.
Qed.

Lemma two_digits_read_back n :
  0 <= n < 100 -> reads_as n (zfill 2 (Py.str_int n)) = true.
Proof.
  apply (numbers_all (fun n => reads_as n (zfill 2 (Py.str_int n))) 0 100).
  vm_compute. reflexivity.
Qed.

Lemma ctime_fields_rendered y m d hh mm ss sy sm sd sH sM sS :
  reads_as y sy = true -> reads_as m sm = true -> reads_as d sd = true ->
  reads_as hh sH = true -> reads_as mm sM = true -> reads_as ss sS = true ->
  ctime_fields (sd +:+ "-" +:+ sm +:+ "-" +:+ sy +:+ " " +:+
                sH +:+ ":" +:+ sM +:+ ":" +:+ sS) =
  make_datetime y m d hh mm ss.
Proof.
  intros Hy Hm Hd HH HM HS.
  pose proof (reads_as_digits _ _ Hy) as Dy. pose proof (reads_as_digits _ _ Hm) as Dm.
  pose proof (reads_as_digits _ _ Hd) as Dd. pose proof (reads_as_digits _ _ HH) as DH.
  pose proof (reads_as_digits _ _ HM) as DM. pose proof (reads_as_digits _ _ HS) as DS.
  unfold ctime_fields.
  replace (sd +:+ "-" +:+ sm +:+ "-" +:+ sy +:+ " " +:+ sH +:+ ":" +:+ sM +:+ ":" +:+ sS)
    with ((sd +:+ "-" +:+ sm +:+ "-" +:+ sy) +:+ String " " (sH +:+ ":" +:+ sM +:+ ":" +:+ sS))
    by (by rewrite !append_assoc).
  rewrite split_on_app.
  2:{ rewrite !all_chars_app, (digits_without " " sd), (digits_without " " sm),
        (digits_without " " sy) by done. reflexivity. }
  rewrite split_on_whole.
  2:{ rewrite !all_chars_app, (digits_without " " sH), (digits_without " " sM),
        (digits_without " " sS) by done. reflexivity. }
  cbn [lookup list_lookup mbind option_bind].
  change (sd +:+ "-" +:+ sm +:+ "-" +:+ sy) with (sd +:+ String "-" (sm +:+ String "-" sy)).
  rewrite (split_on_app "-" sd), (split_on_app "-" sm), (split_on_whole "-" sy)
    by (by apply digits_without).
  change (sH +:+ ":" +:+ sM +:+ ":" +:+ sS) with (sH +:+ String ":" (sM +:+ String ":" sS)).
  rewrite (split_on_app ":" sH), (split_on_app ":" sM), (split_on_whole ":" sS)
    by (by apply digits_without).
  cbn [lookup list_lookup]. cbv [mbind option_bind].
  by rewrite (reads_as_int _ _ Hy), (reads_as_int _ _ Hm), (reads_as_int _ _ Hd),
    (reads_as_int _ _ HH), (reads_as_int _ _ HM), (reads_as_int _ _ HS).
Qed.

(** X19: the creation time written by [now_ctime_str] is read back by
    the [ctime] branch of the sort key as the same year, month, day,
    hour, minute and second, so the key of a task created when the clock
    read [dt] is the platform's timestamp of [dt], never the fallback 0
    of an unreadable string. *)
Theorem creation_time_reads_back
    (epoch : datetime -> Z) (dt : datetime) (t : Task) :
  make_datetime (dt_year dt) (dt_month dt) (dt_day dt)
                (dt_hour dt) (dt_minute dt) (dt_second dt) = Some dt ->
  t_ctime t = now_ctime_str dt ->
  ctime_fields (t_ctime t) = Some dt /\
  sort_key_func (ctime_key epoch) "ctime" t = KInt (epoch dt).
Proof.
  intros Hv Ht.
  assert (Hb : 1 <= dt_year dt <= 9999 /\ 1 <= dt_month dt <= 12 /\
               1 <= dt_day dt <= 31 /\ 0 <= dt_hour dt <= 23 /\
               0 <= dt_minute dt <= 59 /\ 0 <= dt_second dt <= 59).
  { revert Hv. unfold make_datetime.
    destruct (make_date _ _ _) as [dd|] eqn:Hd; [|done].
    destruct (_ && _) eqn:E2; [|done]. intros _.
    unfold make_date in Hd. destruct (_ && _) eqn:E1 in Hd; [|done].
    repeat (apply andb_prop in E1 as [E1 ?]). repeat (apply andb_prop in E2 as [E2 ?]).
    assert (days_in_month (dt_year dt) (dt_month dt) <= 31).
    { unfold days_in_month. repeat case_match; lia. }
    lia. }
  assert (Hf : ctime_fields (t_ctime t) = Some dt).
  { rewrite Ht. unfold now_ctime_str.
    rewrite (ctime_fields_rendered (dt_year dt) (dt_month dt) (dt_day dt)
               (dt_hour dt) (dt_minute dt) (dt_second dt));
      [done | | | | | |];
      first [apply number_reads_back; lia | apply two_digits_read_back; lia]. }
  split; [done|]. unfold sort_key_func, ctime_key. cbn [String.eqb Ascii.eqb Bool.eqb].
  by rewrite Hf.
Qed.

Lemma creation_time_reads_back_witness :
  ctime_fields (t_ctime (set_done true task_a)) = Some (mk_datetime 2025 11 3 9 0 0) /\
  sort_key_func (ctime_key (fun dt => dt_second dt)) "ctime" (set_done true task_a) =
  KInt (dt_second (mk_datetime 2025 11 3 9 0 0)).
Proof.
  apply (creation_time_reads_back (fun dt => dt_second dt)
           (mk_datetime 2025 11 3 9 0 0) (set_done true task_a));
    reflexivity.
Defined.
